(** * Evaluation metrics of [libreco/evaluate/evaluate.py]

    A shallow embedding of the rating-error metrics (RMSE, binary
    cross-entropy) and of the ranking metrics (AP@k, MAP@k, HitRatio@k,
    NDCG@k), followed by the properties established about them.

    Python values are modelled as follows.
    - Python [int] is [Z]; lists and one-dimensional numpy arrays are [list].
    - IEEE double values (Python [float], [numpy.float64]) are an abstract
      carrier [F] with the operations of the class [Float64]; the metrics
      are written once, against that interface.  Two instances are given:
      Rocq's primitive binary64 floats, on which the metrics compute, and
      the real numbers, the exact-arithmetic reading of the formulas.
      The logarithms, which IEEE 754 leaves to the math library, are
      parameters of the binary64 instance [libm].
    - A call either returns a value or raises: [outcome].
    - A dict is an association list in insertion order. *)

From Stdlib Require Import String ZArith List Bool Lia Reals Lra Floats.
From Stdlib Require Import Permutation Sorted.
Import ListNotations.
Local Open Scope Z_scope.

(** ** Exceptions and the error monad *)

Inductive exn : Type :=
| ZeroDivisionError
| IndexError
| KeyError
| ValueError
| UnboundLocalError (name : string).

Inductive outcome (A : Type) : Type :=
| Return (a : A)
| Raise (e : exn).
Arguments Return {A} a.
Arguments Raise {A} e.

Definition bind {A B} (c : outcome A) (k : A -> outcome B) : outcome B :=
  match c with
  | Return a => k a
  | Raise e => Raise e
  end.

Notation "x <- c ;; k" := (bind c (fun x => k))
  (at level 61, c at next level, right associativity).

Definition raises {A} (c : outcome A) : Prop := exists e, c = Raise e.

(** A [for] loop whose body may raise: the accumulator is threaded from
    left to right and the first exception ends the loop. *)
Fixpoint for_each {A S} (body : S -> A -> outcome S) (l : list A) (s : S)
  : outcome S :=
  match l with
  | [] => Return s
  | x :: l' => s' <- body s x ;; for_each body l' s'
  end.

(** Independent evaluation of [f] on every element, in order. *)
Fixpoint map_outcome {A B} (f : A -> outcome B) (l : list A)
  : outcome (list B) :=
  match l with
  | [] => Return []
  | x :: l' => y <- f x ;; ys <- map_outcome f l' ;; Return (y :: ys)
  end.

(** ** Python and numpy sequence primitives *)

(** [range(a, b)] *)
Definition range (a b : Z) : list Z :=
  map (fun n => a + Z.of_nat n) (seq 0 (Z.to_nat (b - a))).

(** [l[:k]]: a negative [k] counts from the end. *)
Definition slice_to {A} (k : Z) (l : list A) : list A :=
  if 0 <=? k then firstn (Z.to_nat k) l
  else firstn (length l - Z.to_nat (- k)) l.

(** [a[j]] on a numpy array: a negative [j] counts from the end, anything
    outside [-len, len) raises [IndexError]. *)
Definition np_index {A} (a : list A) (j : Z) : outcome A :=
  let n := Z.of_nat (length a) in
  let j' := if j <? 0 then j + n else j in
  if (0 <=? j') && (j' <? n) then
    match nth_error a (Z.to_nat j') with
    | Some x => Return x
    | None => Raise IndexError
    end
  else Raise IndexError.

(** [d[key]] on a dict. *)
Fixpoint dict_get {V} (d : list (Z * V)) (key : Z) : outcome V :=
  match d with
  | [] => Raise KeyError
  | (k, v) :: d' => if k =? key then Return v else dict_get d' key
  end.

(** [for u in d]: the keys, in insertion order. *)
Definition keys {V} (d : list (Z * V)) : list Z := map fst d.

(** [x in s] for a set of item ids. *)
Definition contains (s : list Z) (x : Z) : bool := existsb (Z.eqb x) s.

(** [zip] of two and of three sequences: as long as the shortest. *)
Definition zip {A B} := @combine A B.
Definition zip3 {A B C} (a : list A) (b : list B) (c : list C)
  : list (A * B * C) := combine (combine a b) c.

(** ** IEEE double values *)

Class Float64 (F : Type) : Type := {
  of_Z : Z -> F;              (* int to float *)
  fadd : F -> F -> F;
  fsub : F -> F -> F;
  fmul : F -> F -> F;
  fdiv : F -> F -> F;
  fneg : F -> F;
  fsqrt : F -> F;
  feqb : F -> F -> bool;      (* == *)
  fltb : F -> F -> bool;      (* < *)
  fisnan : F -> bool;
  nan : F
}.

(** The transcendental functions, which IEEE 754 leaves to the math
    library. *)
Class Float64Log (F : Type) `{Float64 F} : Type := {
  flog : F -> F;              (* np.log *)
  flog2 : F -> F              (* np.log2 *)
}.

Section Values.
Context {F : Type} `{Float64 F}.

(** A number as the interpreter sees it.  Which of the three it is
    decides what a division by zero does: Python's own [int] and [float]
    raise, a [numpy.float64] operand yields inf or nan with a warning. *)
Inductive pynum : Type :=
| PyInt (z : Z)
| PyFloat (x : F)
| NpFloat (x : F).

Definition to_F (a : pynum) : F :=
  match a with
  | PyInt z => of_Z z
  | PyFloat x => x
  | NpFloat x => x
  end.

Definition is_np (a : pynum) : bool :=
  match a with NpFloat _ => true | _ => false end.

Definition is_zero (a : pynum) : bool :=
  match a with
  | PyInt z => z =? 0
  | PyFloat x => feqb x (of_Z 0)
  | NpFloat x => feqb x (of_Z 0)
  end.

(** Python's own [int] or [float], as opposed to a numpy scalar. *)
Definition plain (a : pynum) : Prop := is_np a = false.

(** [a + b] *)
Definition py_add (a b : pynum) : pynum :=
  match a, b with
  | PyInt x, PyInt y => PyInt (x + y)
  | _, _ =>
      if is_np a || is_np b then NpFloat (fadd (to_F a) (to_F b))
      else PyFloat (fadd (to_F a) (to_F b))
  end.

(** [a / b] *)
Definition py_truediv (a b : pynum) : outcome pynum :=
  if is_np a || is_np b then Return (NpFloat (fdiv (to_F a) (to_F b)))
  else if is_zero b then Raise ZeroDivisionError
  else Return (PyFloat (fdiv (to_F a) (to_F b))).

(** [np.add.reduce] over a one-dimensional array, read left to right.
    numpy adds the elements of an array of eight and more pairwise; in
    exact arithmetic the grouping is immaterial, and over binary64 the
    statements below either keep the [np_sum] of the array as it is or
    are about shorter arrays. *)
Definition np_sum (a : list F) : F := fold_left fadd a (of_Z 0).

(** [np.mean]: over an empty array the result is nan (with a
    RuntimeWarning), not an exception. *)
Definition np_mean (a : list F) : F :=
  match a with
  | [] => nan
  | _ => fdiv (np_sum a) (of_Z (Z.of_nat (length a)))
  end.

(** [a - b] on arrays, with numpy's broadcasting of a length-one
    operand; other shape mismatches raise [ValueError]. *)
Definition np_sub (a b : list F) : outcome (list F) :=
  if (length a =? length b)%nat then
    Return (map (fun p => fsub (fst p) (snd p)) (combine a b))
  else
    match a, b with
    | _, [y] => Return (map (fun x => fsub x y) a)
    | [x], _ => Return (map (fun y => fsub x y) b)
    | _, _ => Raise ValueError
    end.

(** [np.power(a, 2)] *)
Definition np_power2 (a : list F) : list F := map (fun x => fmul x x) a.

(** The order numpy sorts floats by: [<], with nan after everything. *)
Definition np_lt (x y : F) : bool :=
  fltb x y || (fisnan y && negb (fisnan x)).

Fixpoint insert_by (x : nat * F) (l : list (nat * F)) : list (nat * F) :=
  match l with
  | [] => [x]
  | y :: l' =>
      if np_lt (snd y) (snd x) then y :: insert_by x l' else x :: y :: l'
  end.

Definition sort_indexed (l : list (nat * F)) : list (nat * F) :=
  fold_right insert_by [] l.

(** [np.argsort]: the indices that sort the array ascending.  Equal
    scores keep their index order (the insertion sort numpy falls back to
    on short arrays); nothing below depends on how ties are broken except
    where it is said. *)
Definition np_argsort (a : list F) : list Z :=
  map (fun p => Z.of_nat (fst p))
      (sort_indexed (combine (seq 0 (length a)) a)).

(** [np.argsort(ranklist)[::-1][:k]] *)
Definition top_k_of (ranklist : list F) (k : Z) : list Z :=
  slice_to k (rev (np_argsort ranklist)).
End Values.
Arguments pynum F : clear implicits.

(** ** The collaborators: dataset and models *)

Section Metrics.
Context {F : Type} `{Float64 F}.

(** The attributes of [dataset] the metrics read.  [train_user] maps a
    user id to the item ids of that user's training interactions. *)
Record Dataset : Type := {
  train_user_indices : list Z;
  train_item_indices : list Z;
  train_labels : list F;
  train_ratings : list F;
  test_user_indices : list Z;
  test_item_indices : list Z;
  test_labels : list F;
  test_ratings : list F;
  train_user : list (Z * list Z);
  n_users : Z
}.

(** [model.predict(u, i)]: a point prediction.  The model may keep state
    (caches, counters), which every call threads through. *)
Record RatingModel (St : Type) : Type := {
  predict : St -> Z -> Z -> F * St
}.
Arguments predict {St} _ _ _ _.

(** [model.predict(u, i, method)]: a probability and a raw score. *)
Record ProbModel : Type := {
  predict_method : Z -> Z -> string -> F * F
}.

(** [model.predict_user(u)]: one score per catalog item. *)
Record RankModel : Type := {
  predict_user : Z -> list F
}.

(** ** Rating-error metrics *)

(** The local variables the [mode] dispatch may or may not bind. *)
Record frame : Type := {
  user_indices : option (list Z);
  item_indices : option (list Z);
  ratings : option (list F)
}.

Definition unbound : frame :=
  {| user_indices := None; item_indices := None; ratings := None |}.

(** Reading a local variable. *)
Definition load {A} (name : string) (v : option A) : outcome A :=
  match v with
  | Some x => Return x
  | None => Raise (UnboundLocalError name)
  end.

(** The [if mode == "train": ... elif mode == "test": ...] of [rmse_knn];
    there is no [else]. *)
Definition select_knn (dataset : Dataset) (mode : string) : frame :=
  if (mode =? "train")%string then
    {| user_indices := Some (train_user_indices dataset);
       item_indices := Some (train_item_indices dataset);
       ratings := Some (train_labels dataset) |}
  else if (mode =? "test")%string then
    {| user_indices := Some (test_user_indices dataset);
       item_indices := Some (test_item_indices dataset);
       ratings := Some (test_labels dataset) |}
  else unbound.

(** The same dispatch in [rmse_svd], which reads the ratings. *)
Definition select_svd (dataset : Dataset) (mode : string) : frame :=
  if (mode =? "train")%string then
    {| user_indices := Some (train_user_indices dataset);
       item_indices := Some (train_item_indices dataset);
       ratings := Some (train_ratings dataset) |}
  else if (mode =? "test")%string then
    {| user_indices := Some (test_user_indices dataset);
       item_indices := Some (test_item_indices dataset);
       ratings := Some (test_ratings dataset) |}
  else unbound.

(** [for u, i in zip(...): p = model.predict(u, i); pred.append(p)] *)
Fixpoint predict_loop {St} (model : RatingModel St) (pairs : list (Z * Z))
  (pred : list F) (s : St) : list F * St :=
  match pairs with
  | [] => (pred, s)
  | (u, i) :: rest =>
      let '(p, s') := predict model s u i in
      predict_loop model rest (pred ++ [p]) s'
  end.

(** What follows the dispatch, shared by both functions. *)
Definition rmse_frame {St} (model : RatingModel St) (fr : frame) (s : St)
  : outcome (pynum F) * St :=
  match load "user_indices" (user_indices fr) with
  | Raise e => (Raise e, s)
  | Return us =>
      match load "item_indices" (item_indices fr) with
      | Raise e => (Raise e, s)
      | Return its =>
          let '(pred, s') := predict_loop model (zip us its) [] s in
          (rs <- load "ratings" (ratings fr) ;;
           diff <- np_sub pred rs ;;
           Return (NpFloat (fsqrt (np_mean (np_power2 diff)))), s')
      end
  end.

Definition rmse_knn {St} (model : RatingModel St) (dataset : Dataset)
  (mode : string) (s : St) : outcome (pynum F) * St :=
  rmse_frame model (select_knn dataset mode) s.

Definition rmse_svd {St} (model : RatingModel St) (dataset : Dataset)
  (baseline : bool) (mode : string) (s : St) : outcome (pynum F) * St :=
  rmse_frame model (select_svd dataset mode) s.

(** ** Ranking metrics *)

(** [for pred in top_k[:i]: if pred in rel: precision_i += 1] *)
Definition count_in (rel : list Z) (l : list Z) : Z :=
  fold_left (fun c x => if contains rel x then c + 1 else c) l 0.

(** One round of the [for i in range(1, k + 1)] loop of [AP_at_k], on the
    pair [(precision_k, count_relevant_k)]. *)
Definition AP_body (top_k : list Z) (dataset : Dataset) (u : Z)
  (acc : pynum F * Z) (i : Z) : outcome (pynum F * Z) :=
  let '(precision_k, count_relevant_k) := acc in
  item <- np_index top_k (i - 1) ;;
  rel <- dict_get (train_user dataset) u ;;
  if contains rel item then
    let precision_i := count_in rel (slice_to i top_k) in
    q <- py_truediv (PyInt precision_i) (PyInt i) ;;
    Return (py_add precision_k q, count_relevant_k + 1)
  else Return acc.

Definition AP_at_k (model : RankModel) (dataset : Dataset) (u k : Z)
  : outcome (pynum F) :=
  let ranklist := predict_user model u in
  let top_k := top_k_of ranklist k in
  acc <- for_each (AP_body top_k dataset u) (range 1 (k + 1)) (PyInt 0, 0) ;;
  let '(precision_k, count_relevant_k) := acc in
  match py_truediv precision_k (PyInt count_relevant_k) with
  | Raise ZeroDivisionError => Return (PyFloat (of_Z 0))
  | r => r
  end.

Definition MAP_at_k (model : RankModel) (dataset : Dataset) (k : Z)
  : outcome (pynum F) :=
  average_precision_at_k <-
    for_each (fun acc u => ap <- AP_at_k model dataset u k ;;
                           Return (py_add acc ap))
             (keys (train_user dataset)) (PyInt 0) ;;
  py_truediv average_precision_at_k (PyInt (n_users dataset)).

(** The body of the user loop of [HitRatio_at_k]: the value appended. *)
Definition HitRatio_user (model : RankModel) (dataset : Dataset) (k u : Z)
  : outcome (pynum F) :=
  let ranklist := predict_user model u in
  let top_k := top_k_of ranklist k in
  user_HitRatio <-
    for_each (fun c i => rel <- dict_get (train_user dataset) u ;;
                         Return (if contains rel i then c + 1 else c))
             top_k 0 ;;
  py_truediv (PyInt user_HitRatio) (PyInt k).

Definition HitRatio_at_k (model : RankModel) (dataset : Dataset) (k : Z)
  : outcome (pynum F) :=
  HitRatio <-
    for_each (fun acc u => h <- HitRatio_user model dataset k u ;;
                           Return (acc ++ [h]))
             (keys (train_user dataset)) [] ;;
  Return (NpFloat (np_mean (map to_F HitRatio))).

End Metrics.
Arguments Dataset F : clear implicits.
Arguments RatingModel F St : clear implicits.
Arguments predict {F St} _ _ _ _.
Arguments ProbModel F : clear implicits.
Arguments RankModel F : clear implicits.
Arguments frame F : clear implicits.

Section LogMetrics.
Context {F : Type} `{Float64Log F}.

(** [np.reciprocal(np.log2(n + 2))] *)
Definition discount (n : Z) : pynum F :=
  NpFloat (fdiv (of_Z 1) (flog2 (of_Z (n + 2)))).

(** [enumerate(l)] *)
Definition enumerate {A} (l : list A) : list (Z * A) :=
  combine (range 0 (Z.of_nat (length l))) l.

(** [for n in range(k): IDCG += np.reciprocal(np.log2(n + 2))] *)
Definition IDCG_of (k : Z) : pynum F :=
  fold_left (fun IDCG n => py_add IDCG (discount n)) (range 0 k) (PyInt 0).

(** The body of the user loop of [NDCG_at_k]: the value [DCG / IDCG]. *)
Definition NDCG_user (model : RankModel F) (dataset : Dataset F) (k u : Z)
  : outcome (pynum F) :=
  let ranklist := predict_user model u in
  let top_k := top_k_of ranklist k in
  DCG <-
    for_each (fun DCG (p : Z * Z) =>
                let '(n, item) := p in
                rel <- dict_get (train_user dataset) u ;;
                Return (if contains rel item then py_add DCG (discount n)
                        else DCG))
             (enumerate top_k) (PyInt 0) ;;
  py_truediv DCG (IDCG_of k).

Definition NDCG_at_k (model : RankModel F) (dataset : Dataset F) (k : Z)
  : outcome (pynum F) :=
  NDCG <-
    for_each (fun NDCG u => r <- NDCG_user model dataset k u ;;
                            Return (py_add NDCG r))
             (keys (train_user dataset)) (PyInt 0) ;;
  py_truediv NDCG (PyInt (n_users dataset)).

(** One round of the loop of [binary_cross_entropy], on the pair
    [(ce, probs)]. *)
Definition bce_body (model : ProbModel F) (method : string)
  (acc : list F * list F) (sample : Z * Z * F) : list F * list F :=
  let '(ce, probs) := acc in
  let '(u, i, l) := sample in
  let '(prob, _) := predict_method model u i method in
  let probs := probs ++ [prob] in
  if feqb l (of_Z 1) then (ce ++ [fneg (flog prob)], probs)
  else if feqb l (of_Z 0) then
    (ce ++ [fneg (flog (fsub (of_Z 1) prob))], probs)
  else (ce, probs).

Definition binary_cross_entropy (model : ProbModel F) (user item : list Z)
  (label : list F) (method : string) : F * list F :=
  let '(ce, probs) :=
    fold_left (bce_body model method) (zip3 user item label) ([], []) in
  (np_mean ce, probs).

End LogMetrics.

(** ** Two carriers *)

(** Binary64 floats, as the interpreter computes with them.  The
    conversion from [int] is the exact one for magnitudes below [2^63]. *)
Definition float_of_Z (z : Z) : float :=
  if z <? 0 then PrimFloat.opp (PrimFloat.of_uint63 (Uint63.of_Z (- z)))
  else PrimFloat.of_uint63 (Uint63.of_Z z).

#[export] Instance Float64_binary64 : Float64 float := {|
  of_Z := float_of_Z;
  fadd := PrimFloat.add;
  fsub := PrimFloat.sub;
  fmul := PrimFloat.mul;
  fdiv := PrimFloat.div;
  fneg := PrimFloat.opp;
  fsqrt := PrimFloat.sqrt;
  feqb := PrimFloat.eqb;
  fltb := PrimFloat.ltb;
  fisnan := PrimFloat.is_nan;
  nan := PrimFloat.nan
|}.

(** Exact arithmetic: the reals with one undefined element, which absorbs
    and which every partial operation returns outside its domain. *)
Inductive xreal : Type :=
| Finite (r : R)
| Undefined.

Definition xlift2 (op : R -> R -> R) (a b : xreal) : xreal :=
  match a, b with
  | Finite x, Finite y => Finite (op x y)
  | _, _ => Undefined
  end.

Definition xdiv (a b : xreal) : xreal :=
  match a, b with
  | Finite x, Finite y =>
      if Req_dec_T y 0 then Undefined else Finite (x / y)%R
  | _, _ => Undefined
  end.

Definition xneg (a : xreal) : xreal :=
  match a with Finite x => Finite (- x)%R | Undefined => Undefined end.

Definition xsqrt (a : xreal) : xreal :=
  match a with
  | Finite x => if Rle_dec 0 x then Finite (R_sqrt.sqrt x) else Undefined
  | Undefined => Undefined
  end.

Definition xln (a : xreal) : xreal :=
  match a with
  | Finite x => if Rlt_dec 0 x then Finite (ln x) else Undefined
  | Undefined => Undefined
  end.

Definition xlog2 (a : xreal) : xreal :=
  match a with
  | Finite x => if Rlt_dec 0 x then Finite (ln x / ln 2)%R else Undefined
  | Undefined => Undefined
  end.

Definition xeqb (a b : xreal) : bool :=
  match a, b with
  | Finite x, Finite y => if Req_dec_T x y then true else false
  | _, _ => false
  end.

Definition xltb (a b : xreal) : bool :=
  match a, b with
  | Finite x, Finite y => if Rlt_dec x y then true else false
  | _, _ => false
  end.

Definition xisnan (a : xreal) : bool :=
  match a with Finite _ => false | Undefined => true end.

#[export] Instance Float64_xreal : Float64 xreal := {|
  of_Z := fun z => Finite (IZR z);
  fadd := xlift2 Rplus;
  fsub := xlift2 Rminus;
  fmul := xlift2 Rmult;
  fdiv := xdiv;
  fneg := xneg;
  fsqrt := xsqrt;
  feqb := xeqb;
  fltb := xltb;
  fisnan := xisnan;
  nan := Undefined
|}.

#[export] Instance Float64Log_xreal : Float64Log xreal := {|
  flog := xln;
  flog2 := xlog2
|}.

(** ** Concrete inputs *)

(** A dataset that has only its ranking part. *)
Definition ranking_dataset {F} (tu : list (Z * list Z)) (n : Z) : Dataset F :=
  {| train_user_indices := []; train_item_indices := [];
     train_labels := []; train_ratings := [];
     test_user_indices := []; test_item_indices := [];
     test_labels := []; test_ratings := [];
     train_user := tu; n_users := n |}.

(** A model that scores every user alike. *)
Definition constant_ranker {F} (scores : list F) : RankModel F :=
  {| predict_user := fun _ => scores |}.

(** User 7 with an empty history, and a catalog of one or of two items. *)
Definition no_history : Dataset float := ranking_dataset [(7, [])] 1.
Definition one_item_model : RankModel float := constant_ranker [0.5%float].
Definition two_item_model : RankModel float :=
  constant_ranker [0.5%float; 0.25%float].

(** What the [enumerate] loop of [NDCG_at_k] accumulates once the
    relevant set [rel] of the user is at hand. *)
Definition DCG_of {F} `{Float64Log F} (rel : list Z) (top_k : list Z)
  : pynum F :=
  fold_left (fun DCG (p : Z * Z) =>
               if contains rel (snd p) then py_add DCG (discount (fst p))
               else DCG)
            (enumerate top_k) (PyInt 0).

(** The same user and dataset over the exact carrier. *)
Definition no_history_x : Dataset xreal := ranking_dataset [(7, [])] 1.
Definition one_item_model_x : RankModel xreal :=
  constant_ranker [Finite 1%R].

(** ** The aggregate read as a map followed by a reduction *)

(** [acc = 0; for x in l: acc += x] *)
Definition py_sum {F} `{Float64 F} (l : list (pynum F)) : pynum F :=
  fold_left py_add l (PyInt 0).

(** The arithmetic mean of a sequence: its sum over its length. *)
Definition arithmetic_mean {F} `{Float64 F} (l : list (pynum F))
  : outcome (pynum F) :=
  py_truediv (py_sum l) (PyInt (Z.of_nat (length l))).

(** The values [AP_at_k(model, dataset, u, k)], one per user of
    [dataset.train_user], each computed on its own. *)
Definition per_user_AP {F} `{Float64 F} (model : RankModel F)
  (dataset : Dataset F) (k : Z) : outcome (list (pynum F)) :=
  map_outcome (fun u => AP_at_k model dataset u k)
              (keys (train_user dataset)).

(** ** The evaluation split and the RMSE formula *)

Inductive split : Type := Train | Test.

Definition split_name (sp : split) : string :=
  match sp with Train => "train" | Test => "test" end.

(** The three parallel sequences of a split: users, items and true
    values, the labels for [rmse_knn] and the ratings for [rmse_svd]. *)
Definition knn_split {F} (d : Dataset F) (sp : split)
  : list Z * list Z * list F :=
  match sp with
  | Train => (train_user_indices d, train_item_indices d, train_labels d)
  | Test => (test_user_indices d, test_item_indices d, test_labels d)
  end.

Definition svd_split {F} (d : Dataset F) (sp : split)
  : list Z * list Z * list F :=
  match sp with
  | Train => (train_user_indices d, train_item_indices d, train_ratings d)
  | Test => (test_user_indices d, test_item_indices d, test_ratings d)
  end.

(** [sqrt(mean((pred - true)^2))] over two parallel sequences. *)
Definition squared_error {F} `{Float64 F} (p : F * F) : F :=
  fmul (fsub (fst p) (snd p)) (fsub (fst p) (snd p)).

Definition rmse_formula {F} `{Float64 F} (pred true : list F) : F :=
  fsqrt (fdiv (np_sum (map squared_error (combine pred true)))
              (of_Z (Z.of_nat (length true)))).

(** The predictions asked one after the other, in sequence order, each
    call starting from the state the previous one left. *)
Fixpoint calls_in_order {F St} (model : RatingModel F St)
  (pairs : list (Z * Z)) (s : St) : list F * St :=
  match pairs with
  | [] => ([], s)
  | (u, i) :: rest =>
      let '(p, s') := predict model s u i in
      let '(ps, s'') := calls_in_order model rest s' in
      (p :: ps, s'')
  end.

(** The same model, recording next to its state every call it
    receives. *)
Definition logged {F St} (model : RatingModel F St)
  : RatingModel F (St * list (Z * Z)) :=
  {| predict := fun sl u i =>
       let '(p, s') := predict model (fst sl) u i in
       (p, (s', snd sl ++ [(u, i)])) |}.

(** ** Cross-entropy, sample by sample *)

Section CrossEntropySpec.
Context {F : Type} `{Float64Log F}.

(** The probability the model predicts for a sample. *)
Definition prob_of (model : ProbModel F) (method : string)
  (sample : Z * Z * F) : F :=
  fst (predict_method model (fst (fst sample)) (snd (fst sample)) method).

Definition label_of (sample : Z * Z * F) : F := snd sample.

(** A label that is [1.0] or [0.0]. *)
Definition valid_label (l : F) : bool := feqb l (of_Z 1) || feqb l (of_Z 0).

(** [-ln(p)] under label [1.0], [-ln(1 - p)] under label [0.0]. *)
Definition cross_entropy_term (l p : F) : F :=
  if feqb l (of_Z 1) then fneg (flog p)
  else fneg (flog (fsub (of_Z 1) p)).

Definition sample_term (model : ProbModel F) (method : string)
  (sample : Z * Z * F) : F :=
  cross_entropy_term (label_of sample) (prob_of model method sample).

End CrossEntropySpec.

(** Two rating samples and a model that always predicts one half and
    counts its calls. *)
Definition two_samples : Dataset float :=
  {| train_user_indices := [1; 2]; train_item_indices := [3; 4];
     train_labels := [1%float; 0%float];
     train_ratings := [1%float; 0%float];
     test_user_indices := []; test_item_indices := [];
     test_labels := []; test_ratings := [];
     train_user := []; n_users := 2 |}.

Definition one_half : RatingModel float nat :=
  {| predict := fun calls _ _ => (0.5%float, S calls) |}.

(** A probabilistic model over the exact carrier. *)
Definition one_half_x : ProbModel xreal :=
  {| predict_method := fun _ _ _ => (Finite (1 / 2)%R, Finite 0%R) |}.

(** ** Batch-mode RMSE *)

(** [model.sess.run(model.metrics, feed_dict=...)]: the execution engine,
    opaque, fed the three sequences. *)
Record TfModel (F : Type) : Type := {
  run_metrics : list Z -> list Z -> list F -> F
}.
Arguments run_metrics {F} _ _ _ _.

(** [rmse_tf]: the dispatch of [rmse_svd], then the engine. *)
Definition rmse_tf {F} `{Float64 F} (model : TfModel F) (dataset : Dataset F)
  (mode : string) : outcome (pynum F) :=
  let fr := select_svd dataset mode in
  us <- load "user_indices" (user_indices fr) ;;
  its <- load "item_indices" (item_indices fr) ;;
  rs <- load "ratings" (ratings fr) ;;
  Return (NpFloat (run_metrics model us its rs)).

(** A dataset with no sample and no user. *)
Definition empty_dataset {F} : Dataset F := ranking_dataset [] 0.

(** ** Shifting every score of a user *)

(** The model whose score vector for [u] is [predict_user(u) + c(u)]. *)
Definition shifted {F} `{Float64 F} (c : Z -> F) (model : RankModel F)
  : RankModel F :=
  {| predict_user := fun u => map (fun x => fadd x (c u)) (predict_user model u) |}.

(** An indexed score with its score mapped by [g]. *)
Definition lift_score {F} (g : F -> F) (p : nat * F) : nat * F :=
  (fst p, g (snd p)).

(** Two items, the first scored higher, liked by user 7. *)
Definition first_is_best : RankModel float :=
  constant_ranker [2%float; 1%float].
Definition second_is_best : RankModel float :=
  constant_ranker [1%float; 2%float].
Definition likes_first : Dataset float := ranking_dataset [(7, [0])] 1.
Definition huge : float := 1e17%float.
Definition by_huge (u : Z) : float := huge.

(** User 7 likes item 0, the one item of the catalog. *)
Definition likes_only_item : Dataset xreal := ranking_dataset [(7, [0])] 1.

(** The shift by [c] keeps every comparison, in the order numpy sorts
    by, between two scores of a user. *)
Definition order_kept {F} `{Float64 F} (c : Z -> F) (model : RankModel F)
  : Prop :=
  forall u x y, In x (predict_user model u) -> In y (predict_user model u) ->
    np_lt (fadd x (c u)) (fadd y (c u)) = np_lt x y.

(** Three items scored in decreasing order, for user 7. *)
Definition three_items : RankModel float :=
  constant_ranker [0.75%float; 0.5%float; 0.25%float].
Definition likes_first_and_last : Dataset float :=
  ranking_dataset [(7, [0; 2])] 1.
Definition likes_all_three : Dataset float :=
  ranking_dataset [(7, [2; 0; 1]); (8, [0; 1; 2; 5])] 2.

(** Probability 0.9 for user 1 and 0.1 for everybody else. *)
Definition confident_x : ProbModel xreal :=
  {| predict_method := fun u _ _ =>
       if u =? 1 then (Finite (9 / 10)%R, Finite 0%R)
       else (Finite (1 / 10)%R, Finite 0%R) |}.

(** ** Closed forms of the per-user values *)

(** [dataset.train_user[u]] for a user known to be a key; the empty set
    stands for the lookup that cannot fail. *)
Definition relevant_of {F} (dataset : Dataset F) (u : Z) : list Z :=
  match dict_get (train_user dataset) u with
  | Return rel => rel
  | Raise _ => []
  end.

(** The hit rate [HitRatio_at_k] appends for user [u]. *)
Definition hit_rate {F} `{Float64 F} (model : RankModel F)
  (dataset : Dataset F) (k u : Z) : F :=
  fdiv (of_Z (count_in (relevant_of dataset u)
                       (top_k_of (predict_user model u) k)))
       (of_Z k).

(** The value [DCG / IDCG] that [NDCG_at_k] adds for user [u]. *)
Definition gain_ratio {F} `{Float64Log F} (model : RankModel F)
  (dataset : Dataset F) (k u : Z) : F :=
  fdiv (to_F (DCG_of (relevant_of dataset u)
                     (top_k_of (predict_user model u) k)))
       (to_F (IDCG_of k)).

(** A user of the dataset whom the user count leaves out. *)
Definition uncounted : Dataset float := ranking_dataset [(7, [0])] 0.
Definition uncounted_x : Dataset xreal := ranking_dataset [(7, [0])] 0.

(** Ascending order on indexed scores: the later one is not below. *)
Definition ascending {F} `{Float64 F} (p q : nat * F) : Prop :=
  np_lt (snd q) (snd p) = false.

(** Two items over the exact carrier, the second scored higher. *)
Definition second_is_best_x : list xreal := [Finite 1%R; Finite 2%R].

(** A defined value of the exact carrier. *)
Definition finite (x : xreal) : Prop := exists r, x = Finite r.

(** A model that predicts the user id, and ratings it predicts
    exactly. *)
Definition echo_x : RatingModel xreal unit :=
  {| predict := fun s u _ => (Finite (IZR u), s) |}.
Definition echoed_x : Dataset xreal :=
  {| train_user_indices := [1; 2]; train_item_indices := [0; 0];
     train_labels := [Finite 1%R; Finite 2%R];
     train_ratings := [Finite 1%R; Finite 2%R];
     test_user_indices := []; test_item_indices := [];
     test_labels := []; test_ratings := [];
     train_user := []; n_users := 2 |}.

(** Two users and two items, but three ratings, or a single one. *)
Definition three_ratings : Dataset float :=
  {| train_user_indices := [1; 2]; train_item_indices := [3; 4];
     train_labels := [1%float; 0%float; 1%float];
     train_ratings := [1%float; 0%float; 1%float];
     test_user_indices := [1; 2]; test_item_indices := [3; 4];
     test_labels := [1%float]; test_ratings := [1%float];
     train_user := []; n_users := 2 |}.

(** A defined value of the exact carrier between two bounds. *)
Definition within (lo hi : R) (x : xreal) : Prop :=
  exists r, x = Finite r /\ (lo <= r <= hi)%R.

(** A defined, non-negative value of the exact carrier. *)
Definition nonneg (x : xreal) : Prop := exists r, x = Finite r /\ (0 <= r)%R.

(** A call that returns a Python [float] between 0 and 1. *)
Definition unit_float_result (c : outcome (pynum xreal)) : Prop :=
  exists a, c = Return (PyFloat (Finite a)) /\ (0 <= a <= 1)%R.

(** A Python [float] between 0 and 1. *)
Definition unit_float (v : pynum xreal) : Prop :=
  exists a, v = PyFloat (Finite a) /\ (0 <= a <= 1)%R.

(** The discount of position [n] as a real number. *)
Definition discount_real (n : Z) : R := (1 / (ln (IZR (n + 2)) / ln 2))%R.

(** A defined value strictly between 0 and 1, as a probability is. *)
Definition strictly_inside (x : xreal) : Prop :=
  exists p, x = Finite p /\ (0 < p < 1)%R.

(** ** The sort order of binary64 *)

(** A key under which binary64 values sort as numpy sorts them: by
    sign class, then exponent, then mantissa, with nan above all. *)
Definition sort_key (f : spec_float) : Z * Z * Z :=
  match f with
  | S754_nan => (3, 0, 0)
  | S754_infinity true => (-2, 0, 0)
  | S754_infinity false => (2, 0, 0)
  | S754_zero _ => (0, 0, 0)
  | S754_finite false m e => (1, e, Zpos m)
  | S754_finite true m e => (-1, - e, - Zpos m)
  end.

Definition key_lt (a b : Z * Z * Z) : Prop :=
  fst (fst a) < fst (fst b)
  \/ (fst (fst a) = fst (fst b)
      /\ (snd (fst a) < snd (fst b)
          \/ (snd (fst a) = snd (fst b) /\ snd a < snd b))).

(** A ranking over primitive floats: the second item is not a number. *)
Definition with_nan : list float :=
  [0.5%float; PrimFloat.nan; 2%float; PrimFloat.neg_infinity].

(** Two users, of whom user 8 gets a single score. *)
Definition short_for_user_8 : RankModel float :=
  {| predict_user := fun u =>
       if u =? 8 then [0.5%float] else [0.5%float; 0.25%float] |}.
Definition two_users : Dataset float :=
  ranking_dataset [(7, [0]); (8, [0])] 2.

(** ** Binary64 with a math library *)

(** Binary64 arithmetic together with implementations of [np.log] and
    [np.log2].  IEEE 754 does not fix the results of the two, so that
    they are parameters: what holds over [libm log log2] for every [log]
    and [log2] holds of the ones the platform supplies. *)
Definition libm (log log2 : float -> float) : Float64Log float :=
  {| flog := log; flog2 := log2 |}.

(** [np.log2] at the small powers of two and [np.log] at one, where the
    results are exact; nan stands for the arguments left out.  They
    serve to run the metrics on concrete doubles with cutoff 1, where
    the one logarithm taken is [np.log2(2) = 1.0]. *)
Definition log2_exact (x : float) : float :=
  if PrimFloat.eqb x 1 then 0%float
  else if PrimFloat.eqb x 2 then 1%float
  else if PrimFloat.eqb x 4 then 2%float
  else if PrimFloat.eqb x 8 then 3%float
  else PrimFloat.nan.
Definition log_exact (x : float) : float :=
  if PrimFloat.eqb x 1 then 0%float else PrimFloat.nan.

(** A double that is finite and not zero. *)
Definition regular_float (x : float) : bool :=
  match Prim2SF x with
  | S754_finite _ _ _ => true
  | _ => false
  end.

(** The double that holds the positive integer [v], below [2^53]: the
    mantissa shifted up to 53 bits. *)
Definition double_of_pos (v : positive) : spec_float :=
  S754_finite false
    (Nat.iter (53 - Pos.to_nat (digits2_pos v)) xO v)
    (Z.pos (digits2_pos v) - 53).

(** The best case of [NDCG_at_k]: for every user, every position
    [0..k-1] of the top-k list holds an item of the user's relevant
    set. *)
Definition every_position_relevant {F} `{Float64 F} (model : RankModel F)
  (dataset : Dataset F) (k : Z) : Prop :=
  forall u rel,
    In u (keys (train_user dataset)) ->
    dict_get (train_user dataset) u = Return rel ->
    forall n, 0 <= n < k ->
      exists item,
        np_index (top_k_of (predict_user model u) k) n = Return item
        /\ contains rel item = true.

(** Users 7 and 8 both like item 0, which [two_item_model] and
    [first_is_best] rank first. *)
Definition both_like_first : Dataset float :=
  ranking_dataset [(7, [0]); (8, [0; 1])] 2.

(** The same two users under a user count of four. *)
Definition miscounted : Dataset float :=
  ranking_dataset [(7, [0]); (8, [0; 1])] 4.

(** [n] users, numbered from 0, who all like item 0. *)
Definition crowd (n : nat) : Dataset float :=
  ranking_dataset (map (fun i => (Z.of_nat i, [0])) (seq 0 n)) (Z.of_nat n).

(** Users 7 and 8 like both items of a two-item catalog. *)
Definition like_both_x : Dataset xreal :=
  ranking_dataset [(7, [0; 1]); (8, [1; 0; 3])] 2.

(** The shift of every user's scores by [1.0]. *)
Definition by_one (u : Z) : float := 1%float.

(** A number between two scores that are nan. *)
Definition nan_around_one : list float :=
  [PrimFloat.nan; 1%float; PrimFloat.nan].

(** * Properties *)

(** ** Sequences *)

Lemma range_cons (a b : Z) : a < b -> range a b = a :: range (a + 1) b.
Proof.
  intros Hab. unfold range.
  replace (Z.to_nat (b - a)) with (S (Z.to_nat (b - (a + 1)))) by lia.
  cbn [seq map]. f_equal; [lia|].
  rewrite <- seq_shift, map_map. apply map_ext. intros n. lia.
Qed.

Lemma range_nil (a b : Z) : b <= a -> range a b = [].
Proof.
  intros Hab. unfold range. replace (Z.to_nat (b - a)) with 0%nat by lia.
  reflexivity.
Qed.

Lemma range_app (a m b : Z) :
  a <= m <= b -> range a b = range a m ++ range m b.
Proof.
  intros Hm. remember (Z.to_nat (m - a)) as n eqn:Hn.
  revert a Hm Hn. induction n as [|n IH]; intros a Hm Hn.
  - replace m with a by lia. now rewrite (range_nil a a) by lia.
  - rewrite (range_cons a b), (range_cons a m) by lia. cbn.
    f_equal. apply IH; lia.
Qed.

Lemma in_range (a b i : Z) : In i (range a b) <-> a <= i < b.
Proof.
  unfold range. rewrite in_map_iff. split.
  - intros (n & <- & Hn). apply in_seq in Hn. lia.
  - intros Hi. exists (Z.to_nat (i - a)). split; [lia|].
    apply in_seq. lia.
Qed.

Lemma length_range (a b : Z) : length (range a b) = Z.to_nat (b - a).
Proof. unfold range. now rewrite length_map, length_seq. Qed.

Lemma np_index_inside {A} (a : list A) (j : Z) :
  0 <= j < Z.of_nat (length a) ->
  exists x, np_index a j = Return x /\ nth_error a (Z.to_nat j) = Some x.
Proof.
  intros Hj. unfold np_index.
  destruct (j <? 0) eqn:Hneg; [apply Z.ltb_lt in Hneg; lia|].
  replace (0 <=? j) with true by (symmetry; apply Z.leb_le; lia).
  replace (j <? Z.of_nat (length a)) with true
    by (symmetry; apply Z.ltb_lt; lia).
  cbn [andb].
  destruct (nth_error a (Z.to_nat j)) as [x|] eqn:Hx.
  - now exists x.
  - apply nth_error_None in Hx. lia.
Qed.

Lemma np_index_outside {A} (a : list A) (j : Z) :
  Z.of_nat (length a) <= j -> np_index a j = Raise IndexError.
Proof.
  intros Hj. unfold np_index.
  destruct (j <? 0) eqn:Hneg; [apply Z.ltb_lt in Hneg; lia|].
  replace (j <? Z.of_nat (length a)) with false
    by (symmetry; apply Z.ltb_ge; lia).
  now rewrite andb_false_r.
Qed.

Lemma slice_to_all {A} (k : Z) (l : list A) :
  Z.of_nat (length l) <= k -> slice_to k l = l.
Proof.
  intros Hk. unfold slice_to.
  replace (0 <=? k) with true by (symmetry; apply Z.leb_le; lia).
  apply firstn_all2. lia.
Qed.

Lemma length_slice_to {A} (k : Z) (l : list A) :
  0 <= k -> length (slice_to k l) = Nat.min (Z.to_nat k) (length l).
Proof.
  intros Hk. unfold slice_to.
  replace (0 <=? k) with true by (symmetry; apply Z.leb_le; lia).
  apply length_firstn.
Qed.

Lemma in_slice_to {A} (k : Z) (l : list A) (x : A) :
  In x (slice_to k l) -> In x l.
Proof.
  unfold slice_to. destruct (0 <=? k); intros Hx;
    match type of Hx with In _ (firstn ?n _) =>
      rewrite <- (firstn_skipn n l); apply in_or_app; left; exact Hx
    end.
Qed.

(** ** Loops *)

Lemma for_each_app {A S} (body : S -> A -> outcome S) (l1 l2 : list A) (s : S) :
  for_each body (l1 ++ l2) s = (s' <- for_each body l1 s ;; for_each body l2 s').
Proof.
  revert s. induction l1 as [|x l1 IH]; intros s; cbn; [reflexivity|].
  destruct (body s x); cbn; [apply IH | reflexivity].
Qed.

Lemma for_each_fixed {A S} (body : S -> A -> outcome S) (l : list A) (s : S) :
  (forall x, In x l -> body s x = Return s) -> for_each body l s = Return s.
Proof.
  induction l as [|x l IH]; intros Hl; cbn; [reflexivity|].
  rewrite (Hl x) by now left. cbn. apply IH. intros y Hy. apply Hl. now right.
Qed.

Lemma for_each_ext {A S} (f g : S -> A -> outcome S) (l : list A) (s : S) :
  (forall t x, In x l -> f t x = g t x) -> for_each f l s = for_each g l s.
Proof.
  revert s. induction l as [|x l IH]; intros s Hl; cbn; [reflexivity|].
  rewrite (Hl s x) by now left.
  destruct (g s x); cbn; [|reflexivity].
  apply IH. intros t y Hy. apply Hl. now right.
Qed.

(** A loop whose body never raises is a left fold. *)
Lemma for_each_pure {A S} (body : S -> A -> outcome S) (step : S -> A -> S)
  (l : list A) (s : S) :
  (forall t x, In x l -> body t x = Return (step t x)) ->
  for_each body l s = Return (fold_left step l s).
Proof.
  revert s. induction l as [|x l IH]; intros s Hl; cbn; [reflexivity|].
  rewrite (Hl s x) by now left. cbn. apply IH.
  intros t y Hy. apply Hl. now right.
Qed.

(** ** Sorting keeps every index *)

Section SortFacts.
Context {F : Type} `{Float64 F}.

Lemma length_insert_by (x : nat * F) (l : list (nat * F)) :
  length (insert_by x l) = S (length l).
Proof.
  induction l as [|y l IH]; cbn; [reflexivity|].
  destruct (np_lt (snd y) (snd x)); cbn; [now rewrite IH | reflexivity].
Qed.

Lemma length_sort_indexed (l : list (nat * F)) :
  length (sort_indexed l) = length l.
Proof.
  unfold sort_indexed. induction l as [|x l IH]; cbn; [reflexivity|].
  now rewrite length_insert_by, IH.
Qed.

Lemma length_np_argsort (a : list F) : length (np_argsort a) = length a.
Proof.
  unfold np_argsort.
  now rewrite length_map, length_sort_indexed, length_combine, length_seq,
    Nat.min_id.
Qed.

Lemma length_top_k_of (a : list F) (k : Z) :
  0 <= k -> length (top_k_of a k) = Nat.min (Z.to_nat k) (length a).
Proof.
  intros Hk. unfold top_k_of.
  now rewrite length_slice_to, length_rev, length_np_argsort.
Qed.

End SortFacts.

(** ** Average precision *)

Section AveragePrecision.
Context {F : Type} `{Float64 F}.
Variables (model : RankModel F) (dataset : Dataset F) (u k : Z).
Let top_k := top_k_of (predict_user model u) k.

Lemma top_k_access (i : Z) :
  1 <= i <= k -> i <= Z.of_nat (length (predict_user model u)) ->
  exists x, np_index top_k (i - 1) = Return x /\ In x top_k.
Proof.
  intros Hi Hlen.
  destruct (np_index_inside top_k (i - 1)) as (x & Hx & Hnth).
  - unfold top_k. rewrite length_top_k_of by lia. lia.
  - exists x. split; [exact Hx|]. eapply nth_error_In, Hnth.
Qed.

Lemma int_truediv_int (a i : Z) :
  i <> 0 ->
  py_truediv (F:=F) (PyInt a) (PyInt i) = Return (PyFloat (fdiv (of_Z a) (of_Z i))).
Proof.
  intros Hi. unfold py_truediv. cbn.
  now replace (i =? 0) with false by (symmetry; apply Z.eqb_neq; exact Hi).
Qed.

(** With the index in bounds and the user known, a round of the loop
    completes. *)
Lemma AP_body_returns (rel : list Z) (acc : pynum F * Z) (i : Z) :
  1 <= i <= k -> i <= Z.of_nat (length (predict_user model u)) ->
  dict_get (train_user dataset) u = Return rel ->
  exists acc', AP_body top_k dataset u acc i = Return acc'.
Proof.
  intros Hi Hlen Hrel. destruct acc as [p c].
  destruct (top_k_access i Hi Hlen) as (x & Hx & _).
  unfold AP_body. fold top_k. rewrite Hx, Hrel. cbn [bind].
  destruct (contains rel x); [|eauto].
  rewrite int_truediv_int by lia. cbn [bind]. eauto.
Qed.

Lemma AP_loop_returns (rel : list Z) (a b : Z) (acc : pynum F * Z) :
  1 <= a -> b <= k + 1 -> b <= Z.of_nat (length (predict_user model u)) + 1 ->
  dict_get (train_user dataset) u = Return rel ->
  exists acc', for_each (AP_body top_k dataset u) (range a b) acc = Return acc'.
Proof.
  intros Ha Hb Hlen Hrel.
  remember (Z.to_nat (b - a)) as n eqn:Hn.
  revert a acc Ha Hn. induction n as [|n IH]; intros a acc Ha Hn.
  - rewrite range_nil by lia. cbn. eauto.
  - rewrite range_cons by lia. cbn.
    destruct (AP_body_returns rel acc a) as (acc' & ->); [lia|lia|exact Hrel|].
    cbn. apply IH; lia.
Qed.

(** The accumulated precision is never a numpy scalar, so that the final
    division is Python's own. *)
Lemma AP_body_plain (acc acc' : pynum F * Z) (i : Z) :
  plain (fst acc) -> AP_body top_k dataset u acc i = Return acc' ->
  plain (fst acc').
Proof.
  destruct acc as [p c]. unfold AP_body, plain. cbn [fst].
  destruct (np_index top_k (i - 1)) as [x|]; cbn; [|discriminate].
  destruct (dict_get (train_user dataset) u) as [rel|]; cbn; [|discriminate].
  destruct (contains rel x); [|intros Hp [= <-]; exact Hp].
  unfold py_truediv. cbn.
  destruct (i =? 0); cbn; [discriminate|].
  intros Hp [= <-]. cbn. destruct p; cbn in *; congruence.
Qed.

Lemma AP_loop_plain (l : list Z) (acc acc' : pynum F * Z) :
  plain (fst acc) -> for_each (AP_body top_k dataset u) l acc = Return acc' ->
  plain (fst acc').
Proof.
  revert acc. induction l as [|i l IH]; intros acc Hp; cbn.
  - now intros [= <-].
  - destruct (AP_body top_k dataset u acc i) as [acc1|] eqn:Hb; cbn;
      [|discriminate].
    apply IH. eapply AP_body_plain; eauto.
Qed.

Lemma AP_final_returns (p : pynum F) (c : Z) :
  plain p ->
  exists v, match py_truediv p (PyInt c) with
            | Raise ZeroDivisionError => Return (PyFloat (of_Z 0))
            | r => r
            end = Return v.
Proof.
  unfold plain, py_truediv. intros ->. cbn.
  destruct (c =? 0); eauto.
Qed.

(** A vector with at least [k] scores: the call returns. *)
Lemma AP_at_k_returns (rel : list Z) :
  1 <= k -> k <= Z.of_nat (length (predict_user model u)) ->
  dict_get (train_user dataset) u = Return rel ->
  exists v, AP_at_k model dataset u k = Return v.
Proof.
  intros Hk Hlen Hrel. unfold AP_at_k. fold top_k.
  destruct (AP_loop_returns rel 1 (k + 1) (PyInt 0, 0)) as (acc & Hacc);
    [lia|lia|lia|exact Hrel|].
  rewrite Hacc. cbn.
  assert (Hp : plain (fst acc))
    by (eapply AP_loop_plain; [|exact Hacc]; reflexivity).
  destruct acc as [p c]. now apply AP_final_returns.
Qed.

(** A vector with fewer than [k] scores: the access at rank
    [len + 1] is out of range. *)
Lemma AP_at_k_short (rel : list Z) :
  1 <= k -> Z.of_nat (length (predict_user model u)) < k ->
  dict_get (train_user dataset) u = Return rel ->
  AP_at_k model dataset u k = Raise IndexError.
Proof.
  intros Hk Hlen Hrel. unfold AP_at_k. fold top_k.
  set (n := Z.of_nat (length (predict_user model u))) in *.
  rewrite (range_app 1 (n + 1) (k + 1)), for_each_app by lia.
  destruct (AP_loop_returns rel 1 (n + 1) (PyInt 0, 0)) as (acc & ->);
    [lia|lia|lia|exact Hrel|].
  cbn. rewrite range_cons by lia. cbn.
  destruct acc as [p c]. unfold AP_body at 1.
  rewrite np_index_outside; [reflexivity|].
  unfold top_k. rewrite length_top_k_of by lia. lia.
Qed.

(** Nothing relevant among the top [k]: the loop leaves both
    accumulators at the integer zero. *)
Lemma AP_loop_no_relevant (rel : list Z) :
  1 <= k -> k <= Z.of_nat (length (predict_user model u)) ->
  dict_get (train_user dataset) u = Return rel ->
  (forall x, In x top_k -> contains rel x = false) ->
  for_each (AP_body top_k dataset u) (range 1 (k + 1)) (PyInt 0, 0)
  = Return (PyInt 0, 0).
Proof.
  intros Hk Hlen Hrel Hnone. apply for_each_fixed. intros i Hi.
  apply in_range in Hi.
  destruct (top_k_access i) as (x & Hx & Hin); [lia|lia|].
  unfold AP_body. fold top_k. rewrite Hx, Hrel. cbn.
  now rewrite (Hnone x Hin).
Qed.

End AveragePrecision.

(** ** The zero-relevant policy of [AP_at_k] *)

(** C1, as amended: for every user [u] with a relevant set, every cutoff
    [k >= 1] and every ranked score vector of at least [k] scores, if no
    item among the top [k] is in the relevant set, then [AP_at_k] returns
    exactly [0.0] and raises nothing: the division [0 / 0] of the two
    integer accumulators raises [ZeroDivisionError], which the handler
    turns into [0.0]. *)
Theorem AP_at_k_no_relevant_is_zero {F : Type} `{Float64 F}
  (model : RankModel F) (dataset : Dataset F) (u k : Z) (rel : list Z) :
  1 <= k ->
  k <= Z.of_nat (length (predict_user model u)) ->
  dict_get (train_user dataset) u = Return rel ->
  (forall x, In x (top_k_of (predict_user model u) k) ->
             contains rel x = false) ->
  AP_at_k model dataset u k = Return (PyFloat (of_Z 0)).
Proof.
  intros Hk Hlen Hrel Hnone. unfold AP_at_k.
  rewrite (AP_loop_no_relevant model dataset u k rel Hk Hlen Hrel Hnone).
  reflexivity.
Qed.

Lemma AP_at_k_no_relevant_is_zero_witness :
  AP_at_k two_item_model no_history 7 2 = Return (PyFloat (of_Z 0)).
Proof.
  apply (AP_at_k_no_relevant_is_zero two_item_model no_history 7 2 []).
  - lia.
  - vm_compute. discriminate.
  - reflexivity.
  - intros x _. reflexivity.
Defined.

(** C1 as stated fails on a score vector shorter than [k]: with one score
    and [k = 2] nothing in the top-k list is relevant, yet the access
    [top_k[1]] raises [IndexError]. *)
Lemma AP_at_k_short_vector_raises :
  1 <= 2 /\
  dict_get (train_user no_history) 7 = Return [] /\
  (forall x, In x (top_k_of (predict_user one_item_model 7) 2) ->
             contains [] x = false) /\
  AP_at_k one_item_model no_history 7 2 = Raise IndexError /\
  AP_at_k one_item_model no_history 7 2 <> Return (PyFloat (of_Z 0)).
Proof.
  repeat split; try reflexivity; try lia.
  - vm_compute. discriminate.
Qed.

(** ** Hit ratio and discounted gain of one user *)

Section PerUser.
Context {F : Type} `{Float64Log F}.
Variables (model : RankModel F) (dataset : Dataset F) (u k : Z).
Variable rel : list Z.
Hypothesis Hrel : dict_get (train_user dataset) u = Return rel.
Let top_k := top_k_of (predict_user model u) k.

Lemma HitRatio_user_value :
  k <> 0 ->
  HitRatio_user model dataset k u
  = Return (PyFloat (fdiv (of_Z (count_in rel top_k)) (of_Z k))).
Proof.
  intros Hk. unfold HitRatio_user. fold top_k.
  rewrite (for_each_pure _ (fun c x => if contains rel x then c + 1 else c)).
  - cbn [bind]. fold (count_in rel top_k). now apply int_truediv_int.
  - intros c x _. now rewrite Hrel.
Qed.

Lemma py_add_np (a : pynum F) (x : F) :
  py_add a (NpFloat x) = NpFloat (fadd (to_F a) x).
Proof.
  destruct a; reflexivity.
Qed.

Lemma np_add_any (x : F) (b : pynum F) :
  py_add (NpFloat x) b = NpFloat (fadd x (to_F b)).
Proof. reflexivity. Qed.

Lemma np_truediv (a : pynum F) (x : F) :
  py_truediv a (NpFloat x) = Return (NpFloat (fdiv (to_F a) x)).
Proof. unfold py_truediv. cbn. now rewrite orb_true_r. Qed.

Lemma IDCG_fold_np (l : list Z) (x : F) :
  exists y, fold_left (fun IDCG n => py_add IDCG (discount n)) l (NpFloat x)
            = NpFloat y.
Proof.
  revert x. induction l as [|n l IH]; intros x; cbn; [eauto|].
  apply IH.
Qed.

(** From [k = 1] on the ideal gain is a numpy scalar, so that the
    division by it raises nothing. *)
Lemma IDCG_of_np : 1 <= k -> exists x, IDCG_of (F:=F) k = NpFloat x.
Proof.
  intros Hk. unfold IDCG_of. rewrite range_cons by lia. cbn [fold_left].
  unfold discount at 2. rewrite py_add_np. apply IDCG_fold_np.
Qed.

Lemma NDCG_user_value :
  1 <= k ->
  NDCG_user model dataset k u
  = Return (NpFloat (fdiv (to_F (DCG_of rel top_k)) (to_F (IDCG_of k)))).
Proof.
  intros Hk. unfold NDCG_user. fold top_k.
  rewrite (for_each_pure _
    (fun DCG (p : Z * Z) =>
       if contains rel (snd p) then py_add DCG (discount (fst p)) else DCG)).
  - cbn [bind]. fold (DCG_of rel top_k).
    destruct (IDCG_of_np Hk) as (x & ->). apply np_truediv.
  - intros DCG [n item] _. now rewrite Hrel.
Qed.

End PerUser.

(** ** Mean average precision *)

(** A loop that adds up what [f] returns is [f] mapped over the list,
    then folded; the first exception of [f] ends both alike. *)
Lemma for_each_accumulate {A B S} (f : A -> outcome B) (g : S -> B -> S)
  (l : list A) (s : S) :
  for_each (fun acc x => y <- f x ;; Return (g acc y)) l s
  = (ys <- map_outcome f l ;; Return (fold_left g ys s)).
Proof.
  revert s. induction l as [|x l IH]; intros s; cbn; [reflexivity|].
  destruct (f x) as [y|e]; cbn; [|reflexivity].
  rewrite IH. destruct (map_outcome f l); reflexivity.
Qed.

Lemma map_outcome_length {A B} (f : A -> outcome B) (l : list A)
  (ys : list B) :
  map_outcome f l = Return ys -> length ys = length l.
Proof.
  revert ys. induction l as [|x l IH]; intros ys; cbn.
  - now intros [= <-].
  - destruct (f x) as [y|]; cbn; [|discriminate].
    destruct (map_outcome f l) as [ys'|]; cbn; [|discriminate].
    intros [= <-]. cbn. f_equal. now apply IH.
Qed.

(** C2: [MAP_at_k] is the sum of the per-user values [AP_at_k], taken
    over every user of [dataset.train_user] and each computed
    independently, divided by the total user count [dataset.n_users];
    when that count is the number of users of [train_user], it is their
    arithmetic mean.  An exception of a per-user call, or of the division,
    is the exception of the aggregate. *)
Theorem MAP_at_k_is_mean_of_AP {F : Type} `{Float64 F}
  (model : RankModel F) (dataset : Dataset F) (k : Z) :
  MAP_at_k model dataset k
  = (aps <- per_user_AP model dataset k ;;
     py_truediv (py_sum aps) (PyInt (n_users dataset)))
  /\
  (n_users dataset = Z.of_nat (length (keys (train_user dataset))) ->
   MAP_at_k model dataset k
   = (aps <- per_user_AP model dataset k ;; arithmetic_mean aps)).
Proof.
  assert (Hsum : MAP_at_k model dataset k
                 = (aps <- per_user_AP model dataset k ;;
                    py_truediv (py_sum aps) (PyInt (n_users dataset)))).
  { unfold MAP_at_k, per_user_AP.
    rewrite (for_each_accumulate (fun u => AP_at_k model dataset u k) py_add).
    destruct (map_outcome _ _); reflexivity. }
  split; [exact Hsum|].
  intros Hn. rewrite Hsum. unfold per_user_AP, arithmetic_mean.
  destruct (map_outcome _ _) as [aps|e] eqn:Haps; cbn; [|reflexivity].
  apply map_outcome_length in Haps. now rewrite Hn, Haps.
Qed.

Lemma MAP_at_k_is_mean_of_AP_witness :
  MAP_at_k two_item_model no_history 2
  = (aps <- per_user_AP two_item_model no_history 2 ;; arithmetic_mean aps).
Proof.
  apply (proj2 (MAP_at_k_is_mean_of_AP two_item_model no_history 2)).
  reflexivity.
Defined.

(** ** Root mean squared error *)

Section RMSE.
Context {F : Type} `{Float64 F}.

Lemma calls_in_order_length {St} (model : RatingModel F St)
  (pairs : list (Z * Z)) (s : St) :
  length (fst (calls_in_order model pairs s)) = length pairs.
Proof.
  revert s. induction pairs as [|[u i] pairs IH]; intros s; cbn;
    [reflexivity|].
  destruct (predict model s u i) as [p s']. specialize (IH s').
  destruct (calls_in_order model pairs s') as [ps s'']. cbn in *.
  now rewrite IH.
Qed.

(** The loop makes the calls of [calls_in_order], and the log grows by
    the pairs, in order. *)
Lemma predict_loop_logged {St} (model : RatingModel F St)
  (pairs : list (Z * Z)) (pred : list F) (s : St) (log : list (Z * Z)) :
  predict_loop (logged model) pairs pred (s, log)
  = (pred ++ fst (calls_in_order model pairs s),
     (snd (calls_in_order model pairs s), log ++ pairs)).
Proof.
  revert pred s log.
  induction pairs as [|[u i] pairs IH]; intros pred s log; cbn.
  - now rewrite !app_nil_r.
  - destruct (predict model s u i) as [p s']. rewrite IH.
    destruct (calls_in_order model pairs s') as [ps s'']. cbn.
    now rewrite <- !app_assoc.
Qed.

Lemma np_sub_parallel (a b : list F) :
  length a = length b ->
  np_sub a b = Return (map (fun p => fsub (fst p) (snd p)) (combine a b)).
Proof.
  intros Hlen. unfold np_sub.
  now replace (length a =? length b)%nat with true
    by (symmetry; apply Nat.eqb_eq; exact Hlen).
Qed.

Lemma np_mean_nonempty (a : list F) :
  a <> [] -> np_mean a = fdiv (np_sum a) (of_Z (Z.of_nat (length a))).
Proof. destruct a; [congruence | reflexivity]. Qed.

(** The part after the dispatch, on bound variables. *)
Lemma rmse_frame_logged {St} (model : RatingModel F St)
  (us its : list Z) (rs : list F) (s : St) :
  length us = length its -> length its = length rs -> us <> [] ->
  rmse_frame (logged model)
    {| user_indices := Some us; item_indices := Some its; ratings := Some rs |}
    (s, [])
  = (Return (NpFloat
               (rmse_formula (fst (calls_in_order model (combine us its) s))
                             rs)),
     (snd (calls_in_order model (combine us its) s), combine us its)).
Proof.
  intros Hui Hir Hne. unfold rmse_frame. cbn [load user_indices item_indices
    ratings]. unfold zip. rewrite predict_loop_logged. cbn [app bind].
  pose proof (calls_in_order_length model (combine us its) s) as Hlen.
  rewrite length_combine in Hlen.
  set (pred := fst (calls_in_order model (combine us its) s)) in *.
  rewrite np_sub_parallel by lia.
  cbn [bind]. f_equal. f_equal. f_equal. unfold rmse_formula, np_power2.
  rewrite map_map, np_mean_nonempty.
  - rewrite length_map, length_combine.
    f_equal. f_equal. f_equal. lia.
  - destruct us as [|u us]; [congruence|].
    destruct its as [|i its]; [discriminate|].
    destruct rs as [|r rs]; [discriminate|].
    destruct pred as [|p pred]; discriminate.
Qed.

End RMSE.

(** C4: on a non-empty sequence of (user, item, true value) triples, the
    three parallel sequences of the selected split, both RMSE functions
    call [model.predict] exactly once per triple and in sequence order:
    the predictions and the final state of the model are those of
    [calls_in_order], and the call log is the sequence of (user, item)
    pairs.  The value returned is [sqrt(mean((pred - true)^2))] over the
    predictions and the true values. *)
Theorem rmse_one_call_per_triple {F : Type} `{Float64 F} {St : Type}
  (model : RatingModel F St) (dataset : Dataset F) (sp : split)
  (baseline : bool) (s : St) :
  (forall us its rs,
     knn_split dataset sp = (us, its, rs) ->
     length us = length its -> length its = length rs -> us <> [] ->
     rmse_knn (logged model) dataset (split_name sp) (s, [])
     = (Return (NpFloat
                  (rmse_formula
                     (fst (calls_in_order model (combine us its) s)) rs)),
        (snd (calls_in_order model (combine us its) s), combine us its)))
  /\
  (forall us its rs,
     svd_split dataset sp = (us, its, rs) ->
     length us = length its -> length its = length rs -> us <> [] ->
     rmse_svd (logged model) dataset baseline (split_name sp) (s, [])
     = (Return (NpFloat
                  (rmse_formula
                     (fst (calls_in_order model (combine us its) s)) rs)),
        (snd (calls_in_order model (combine us its) s), combine us its))).
Proof.
  split; intros us its rs Hsplit Hui Hir Hne;
    destruct sp; cbn in Hsplit; injection Hsplit as <- <- <-;
    now apply rmse_frame_logged.
Qed.

Lemma rmse_one_call_per_triple_witness :
  rmse_knn (logged one_half) two_samples "train" (0%nat, [])
  = (Return (NpFloat (rmse_formula [0.5%float; 0.5%float]
                                   [1%float; 0%float])),
     (2%nat, [(1, 3); (2, 4)])).
Proof.
  apply (proj1 (rmse_one_call_per_triple one_half two_samples Train false
                  0%nat)
           [1; 2] [3; 4] [1%float; 0%float]).
  - reflexivity.
  - reflexivity.
  - reflexivity.
  - discriminate.
Defined.

(** On these two samples the value is one half. *)
Example rmse_two_samples :
  rmse_knn (logged one_half) two_samples "train" (0%nat, [])
  = (Return (NpFloat 0.5%float), (2%nat, [(1, 3); (2, 4)])).
Proof. vm_compute. reflexivity. Qed.

(** ** Binary cross-entropy *)

Section CrossEntropy.
Context {F : Type} `{Float64Log F}.
Variables (model : ProbModel F) (method : string).

(** What one sample adds to [ce]: its term if the label is valid,
    nothing otherwise. *)
Lemma bce_body_step (ce probs : list F) (sample : Z * Z * F) :
  bce_body model method (ce, probs) sample
  = (ce ++ (if valid_label (label_of sample)
            then [sample_term model method sample] else []),
     probs ++ [prob_of model method sample]).
Proof.
  destruct sample as [[u i] l].
  unfold bce_body, sample_term, cross_entropy_term, valid_label, prob_of,
    label_of. cbn [fst snd].
  destruct (predict_method model u i method) as [prob raw]. cbn [fst].
  destruct (feqb l (of_Z 1)); cbn [orb]; [reflexivity|].
  destruct (feqb l (of_Z 0)); [reflexivity|].
  now rewrite app_nil_r.
Qed.

Lemma bce_loop (samples : list (Z * Z * F)) (ce probs : list F) :
  fold_left (bce_body model method) samples (ce, probs)
  = (ce ++ map (sample_term model method)
               (filter (fun s => valid_label (label_of s)) samples),
     probs ++ map (prob_of model method) samples).
Proof.
  revert ce probs. induction samples as [|s samples IH]; intros ce probs.
  - cbn. now rewrite !app_nil_r.
  - cbn [fold_left]. rewrite bce_body_step, IH. cbn [filter map].
    destruct (valid_label (label_of s)); cbn [map];
      now rewrite <- !app_assoc.
Qed.

Lemma binary_cross_entropy_value (user item : list Z) (label : list F) :
  binary_cross_entropy model user item label method
  = (np_mean (map (sample_term model method)
                  (filter (fun s => valid_label (label_of s))
                          (zip3 user item label))),
     map (prob_of model method) (zip3 user item label)).
Proof. unfold binary_cross_entropy. now rewrite bce_loop. Qed.

Lemma filter_all {A} (p : A -> bool) (l : list A) :
  (forall x, In x l -> p x = true) -> filter p l = l.
Proof.
  induction l as [|x l IH]; intros Hl; cbn; [reflexivity|].
  rewrite (Hl x) by now left. f_equal. apply IH. intros y Hy. apply Hl.
  now right.
Qed.

Lemma filter_none {A} (p : A -> bool) (l : list A) :
  (forall x, In x l -> p x = false) -> filter p l = [].
Proof.
  induction l as [|x l IH]; intros Hl; cbn; [reflexivity|].
  rewrite (Hl x) by now left. apply IH. intros y Hy. apply Hl. now right.
Qed.

End CrossEntropy.

Lemma length_zip3 {A B C} (a : list A) (b : list B) (c : list C) :
  length a = length b -> length b = length c ->
  length (zip3 a b c) = length c.
Proof.
  intros Hab Hbc. unfold zip3. rewrite !length_combine. lia.
Qed.

Lemma in_zip3_label {A B C} (a : list A) (b : list B) (c : list C)
  (s : A * B * C) : In s (zip3 a b c) -> In (snd s) c.
Proof.
  destruct s as [ab l]. unfold zip3. intros Hs.
  eapply in_combine_r, Hs.
Qed.

(** C5: on non-empty parallel sequences whose labels are all [1.0] or
    [0.0], [binary_cross_entropy] returns the pair of the mean, over all
    samples, of the per-sample terms and of the predicted probabilities
    in input order; the term of a sample is [-ln(p)] under label [1.0]
    and [-ln(1 - p)] under label [0.0], [p] being the probability the
    model predicts for it. *)
Theorem binary_cross_entropy_mean {F : Type} `{Float64Log F}
  (model : ProbModel F) (method : string)
  (user item : list Z) (label : list F) :
  length user = length item -> length item = length label -> label <> [] ->
  (forall l, In l label ->
             feqb l (of_Z 1) = true \/ feqb l (of_Z 0) = true) ->
  let samples := zip3 user item label in
  binary_cross_entropy model user item label method
  = (fdiv (np_sum (map (sample_term model method) samples))
          (of_Z (Z.of_nat (length samples))),
     map (prob_of model method) samples)
  /\ length samples = length label
  /\ (forall s, In s samples -> feqb (label_of s) (of_Z 1) = true ->
        sample_term model method s = fneg (flog (prob_of model method s)))
  /\ (forall s, In s samples -> feqb (label_of s) (of_Z 1) = false ->
        feqb (label_of s) (of_Z 0) = true ->
        sample_term model method s
        = fneg (flog (fsub (of_Z 1) (prob_of model method s)))).
Proof.
  intros Hui Hil Hne Hvalid samples.
  assert (Hlen : length samples = length label)
    by now apply length_zip3.
  repeat split.
  - rewrite binary_cross_entropy_value. fold samples.
    rewrite filter_all.
    + rewrite np_mean_nonempty; [now rewrite length_map|].
      intros Hnil. apply (f_equal (@length F)) in Hnil.
      rewrite length_map, Hlen in Hnil. destruct label; [congruence|].
      discriminate.
    + intros s Hs. apply in_zip3_label in Hs. unfold valid_label, label_of.
      destruct (Hvalid _ Hs) as [-> | ->]; [reflexivity|apply orb_true_r].
  - exact Hlen.
  - intros s _ H1. unfold sample_term, cross_entropy_term. now rewrite H1.
  - intros s _ H1 _. unfold sample_term, cross_entropy_term. now rewrite H1.
Qed.

Lemma xeqb_refl (r : R) : xeqb (Finite r) (Finite r) = true.
Proof. cbn. destruct (Req_dec_T r r); congruence. Qed.

Lemma xeqb_neq (r s : R) : r <> s -> xeqb (Finite r) (Finite s) = false.
Proof. intros Hrs. cbn. destruct (Req_dec_T r s); congruence. Qed.

Lemma binary_cross_entropy_mean_witness :
  fst (binary_cross_entropy one_half_x [1; 2] [3; 4]
         [Finite 1%R; Finite 0%R] "mf")
  = fdiv (np_sum (map (sample_term one_half_x "mf")
                      (zip3 [1; 2] [3; 4] [Finite 1%R; Finite 0%R])))
         (of_Z 2).
Proof.
  refine (f_equal fst (proj1 (binary_cross_entropy_mean one_half_x "mf"
            [1; 2] [3; 4] [Finite 1%R; Finite 0%R] _ _ _ _))).
  - reflexivity.
  - reflexivity.
  - discriminate.
  - intros l [<- | [<- | []]].
    + left. apply xeqb_refl.
    + right. apply xeqb_refl.
Defined.

(** C10: a sample whose label is neither [1.0] nor [0.0] adds nothing
    to [ce] and raises nothing, while its probability is still appended
    to [probs]: the mean returned is over the samples with a valid label
    only, next to the probabilities of all samples; with no valid label
    at all it is the mean of the empty sequence, nan. *)
Theorem binary_cross_entropy_skips_invalid {F : Type} `{Float64Log F}
  (model : ProbModel F) (method : string)
  (user item : list Z) (label : list F) :
  let samples := zip3 user item label in
  let valid := filter (fun s => valid_label (label_of s)) samples in
  binary_cross_entropy model user item label method
  = (np_mean (map (sample_term model method) valid),
     map (prob_of model method) samples)
  /\ length (snd (binary_cross_entropy model user item label method))
     = length samples
  /\ ((forall s, In s samples -> valid_label (label_of s) = false) ->
      fst (binary_cross_entropy model user item label method) = np_mean []
      /\ np_mean (F:=F) [] = nan).
Proof.
  intros samples valid. rewrite binary_cross_entropy_value.
  fold samples. fold valid. repeat split.
  - cbn [snd]. apply length_map.
  - cbn [fst]. unfold valid. now rewrite filter_none.
Qed.

Lemma binary_cross_entropy_skips_invalid_witness :
  fst (binary_cross_entropy one_half_x [1] [3] [Finite 2%R] "mf")
  = np_mean [].
Proof.
  refine (proj1 (proj2 (proj2 (binary_cross_entropy_skips_invalid
            one_half_x "mf" [1] [3] [Finite 2%R])) _)).
  intros s [<- | []]. unfold valid_label, label_of. cbn [snd of_Z
    Float64_xreal feqb].
  rewrite !xeqb_neq; [reflexivity | lra | lra].
Defined.

(** ** A mode that is neither "train" nor "test" *)

Lemma select_other {F : Type} (dataset : Dataset F) (mode : string) :
  mode <> "train"%string -> mode <> "test"%string ->
  select_knn dataset mode = unbound /\ select_svd dataset mode = unbound.
Proof.
  intros Htrain Htest. unfold select_knn, select_svd.
  apply String.eqb_neq in Htrain. apply String.eqb_neq in Htest.
  now rewrite Htrain, Htest.
Qed.

(** C7, as amended: for a mode outside {"train", "test"} the dispatch of
    [rmse_knn], [rmse_svd] and [rmse_tf] completes without raising and
    binds none of its three variables; the call then raises
    [UnboundLocalError] at the first read of [user_indices], before any
    prediction is asked of the model. *)
Theorem rmse_unsupported_mode {F : Type} `{Float64 F} {St : Type}
  (model : RatingModel F St) (engine : TfModel F) (dataset : Dataset F)
  (baseline : bool) (mode : string) (s : St) :
  mode <> "train"%string -> mode <> "test"%string ->
  select_knn dataset mode = unbound
  /\ select_svd dataset mode = unbound
  /\ rmse_knn model dataset mode s
     = (Raise (UnboundLocalError "user_indices"), s)
  /\ rmse_svd model dataset baseline mode s
     = (Raise (UnboundLocalError "user_indices"), s)
  /\ rmse_tf engine dataset mode = Raise (UnboundLocalError "user_indices").
Proof.
  intros Htrain Htest.
  destruct (select_other dataset mode Htrain Htest) as [Hknn Hsvd].
  unfold rmse_knn, rmse_svd, rmse_tf. rewrite Hknn, Hsvd.
  repeat split; reflexivity.
Qed.

Lemma rmse_unsupported_mode_witness :
  rmse_knn one_half two_samples "valid" 0%nat
  = (Raise (UnboundLocalError "user_indices"), 0%nat).
Proof.
  refine (proj1 (proj2 (proj2 (rmse_unsupported_mode one_half
            {| run_metrics := fun _ _ _ => 0%float |} two_samples false
            "valid" 0%nat _ _)))); discriminate.
Defined.

(** C7 as stated fails: on the mode "valid" the dispatch itself raises
    nothing, it falls through and leaves the frame unbound, and the
    exception of the call is the one of reading an unbound variable. *)
Lemma rmse_mode_falls_through :
  "valid"%string <> "train"%string /\ "valid"%string <> "test"%string
  /\ select_knn two_samples "valid" = unbound
  /\ select_svd two_samples "valid" = unbound
  /\ rmse_knn (logged one_half) two_samples "valid" (0%nat, [])
     = (Raise (UnboundLocalError "user_indices"), (0%nat, []))
  /\ rmse_svd (logged one_half) two_samples false "valid" (0%nat, [])
     = (Raise (UnboundLocalError "user_indices"), (0%nat, [])).
Proof. repeat split; try discriminate; reflexivity. Qed.

(** ** Empty input *)

(** C6, as amended: over zero samples [rmse_knn], [rmse_svd] and
    [binary_cross_entropy] raise nothing and return the square root of
    nan, respectively nan, the numpy mean of an empty array; over zero
    users [HitRatio_at_k] returns nan likewise, while [MAP_at_k] and
    [NDCG_at_k], with a user count of zero, raise [ZeroDivisionError] at
    the division of the integer [0] by the integer [0]. *)
Theorem metrics_on_empty_input {F : Type} `{Float64Log F} {St : Type}
  (model : RatingModel F St) (prob_model : ProbModel F)
  (rank_model : RankModel F) (dataset : Dataset F) (sp : split)
  (baseline : bool) (method : string) (k : Z) (s : St) :
  (knn_split dataset sp = ([], [], []) ->
   rmse_knn model dataset (split_name sp) s
   = (Return (NpFloat (fsqrt nan)), s))
  /\ (svd_split dataset sp = ([], [], []) ->
      rmse_svd model dataset baseline (split_name sp) s
      = (Return (NpFloat (fsqrt nan)), s))
  /\ binary_cross_entropy prob_model [] [] [] method = (nan, [])
  /\ (train_user dataset = [] ->
      HitRatio_at_k rank_model dataset k = Return (NpFloat nan))
  /\ (train_user dataset = [] -> n_users dataset = 0 ->
      MAP_at_k rank_model dataset k = Raise ZeroDivisionError
      /\ NDCG_at_k rank_model dataset k = Raise ZeroDivisionError).
Proof.
  split; [|split; [|split; [|split]]].
  - destruct sp; cbn; intros [= Hu Hi Hr]; unfold rmse_knn, select_knn;
      cbn; rewrite Hu, Hi, Hr; reflexivity.
  - destruct sp; cbn; intros [= Hu Hi Hr]; unfold rmse_svd, select_svd;
      cbn; rewrite Hu, Hi, Hr; reflexivity.
  - reflexivity.
  - intros Hnone. unfold HitRatio_at_k. now rewrite Hnone.
  - intros Hnone Hzero. unfold MAP_at_k, NDCG_at_k.
    rewrite Hnone, Hzero. split; reflexivity.
Qed.

Lemma metrics_on_empty_input_witness :
  MAP_at_k one_item_model_x empty_dataset 1 = Raise ZeroDivisionError.
Proof.
  refine (proj1 (proj2 (proj2 (proj2 (proj2 (metrics_on_empty_input
            {| predict := fun (s : unit) _ _ => (Finite 0%R, s) |}
            one_half_x one_item_model_x
            empty_dataset Train false "mf" 1 tt)))) _ _)); reflexivity.
Defined.

(** C6 as stated fails: over the empty training split [rmse_knn] and
    [rmse_svd] return nan, and so does [HitRatio_at_k] over zero users;
    nothing is raised. *)
Lemma rmse_on_empty_split_is_nan :
  knn_split (F:=float) empty_dataset Train = ([], [], [])
  /\ rmse_knn (logged one_half) empty_dataset "train" (0%nat, [])
     = (Return (NpFloat PrimFloat.nan), (0%nat, []))
  /\ rmse_svd (logged one_half) empty_dataset false "train" (0%nat, [])
     = (Return (NpFloat PrimFloat.nan), (0%nat, []))
  /\ HitRatio_at_k one_item_model empty_dataset 1
     = Return (NpFloat PrimFloat.nan)
  /\ ~ raises (fst (rmse_knn (logged one_half) empty_dataset "train"
                     (0%nat, []))).
Proof.
  repeat split; try (vm_compute; reflexivity).
  intros [e He]. vm_compute in He. discriminate.
Qed.

(** ** Sorting sees the scores through their comparisons only *)

Section OrderPreserving.
Context {F : Type} `{Float64 F}.
Variable g : F -> F.

Lemma in_insert_by (x y : nat * F) (l : list (nat * F)) :
  In y (insert_by x l) -> y = x \/ In y l.
Proof.
  induction l as [|z l IH]; cbn.
  - intros [<- | []]. now left.
  - destruct (np_lt (snd z) (snd x)); cbn.
    + intros [<- | Hy]; [right; now left|].
      destruct (IH Hy) as [-> | Hin]; [now left | right; now right].
    + intros [<- | Hy]; [now left | now right].
Qed.

Lemma in_sort_indexed (y : nat * F) (l : list (nat * F)) :
  In y (sort_indexed l) -> In y l.
Proof.
  unfold sort_indexed. induction l as [|x l IH]; cbn; [tauto|].
  intros Hy. apply in_insert_by in Hy. destruct Hy as [-> | Hy]; auto.
Qed.

Lemma insert_by_lift (x : nat * F) (l : list (nat * F)) :
  (forall y, In y l -> np_lt (g (snd y)) (g (snd x)) = np_lt (snd y) (snd x)) ->
  insert_by (lift_score g x) (map (lift_score g) l)
  = map (lift_score g) (insert_by x l).
Proof.
  induction l as [|y l IH]; intros Hl; cbn; [reflexivity|].
  rewrite (Hl y) by now left.
  destruct (np_lt (snd y) (snd x)); cbn; [|reflexivity].
  f_equal. apply IH. intros z Hz. apply Hl. now right.
Qed.

Lemma sort_indexed_lift (l : list (nat * F)) :
  (forall x y, In x l -> In y l ->
               np_lt (g (snd x)) (g (snd y)) = np_lt (snd x) (snd y)) ->
  sort_indexed (map (lift_score g) l) = map (lift_score g) (sort_indexed l).
Proof.
  unfold sort_indexed. induction l as [|x l IH]; intros Hl; cbn;
    [reflexivity|].
  rewrite IH by (intros a b Ha Hb; apply Hl; now right).
  apply insert_by_lift. intros y Hy. apply Hl; [right|now left].
  now apply in_sort_indexed.
Qed.

Lemma combine_lift (ns : list nat) (a : list F) :
  combine ns (map g a) = map (lift_score g) (combine ns a).
Proof.
  revert a. induction ns as [|n ns IH]; intros [|x a]; cbn; try reflexivity.
  now rewrite IH.
Qed.

(** A map that keeps every comparison between the scores of [a] keeps
    the order numpy sorts them in. *)
Lemma np_argsort_order_preserving (a : list F) :
  (forall x y, In x a -> In y a -> np_lt (g x) (g y) = np_lt x y) ->
  np_argsort (map g a) = np_argsort a.
Proof.
  intros Ha. unfold np_argsort.
  rewrite length_map, combine_lift, sort_indexed_lift.
  - rewrite map_map. reflexivity.
  - intros x y Hx Hy. destruct x as [i x], y as [j y].
    apply in_combine_r in Hx, Hy. cbn. now apply Ha.
Qed.

Lemma top_k_of_order_preserving (a : list F) (k : Z) :
  (forall x y, In x a -> In y a -> np_lt (g x) (g y) = np_lt x y) ->
  top_k_of (map g a) k = top_k_of a k.
Proof.
  intros Ha. unfold top_k_of. now rewrite np_argsort_order_preserving.
Qed.

End OrderPreserving.

(** Over the exact carrier, adding a finite constant keeps every
    comparison. *)
Lemma xreal_shift_keeps_order (c : R) (x y : xreal) :
  np_lt (fadd x (Finite c)) (fadd y (Finite c)) = np_lt x y.
Proof.
  destruct x as [a|], y as [b|]; cbn; try reflexivity.
  unfold np_lt. cbn.
  destruct (Rlt_dec (a + c) (b + c)), (Rlt_dec a b); try reflexivity;
    exfalso; lra.
Qed.

(** ** Additive shift of a user's scores *)

Section Shift.
Context {F : Type} `{Float64Log F}.
Variables (model : RankModel F) (dataset : Dataset F) (c : Z -> F) (k : Z).

Hypothesis Hkept : order_kept c model.

Lemma shifted_top_k (u : Z) :
  top_k_of (predict_user (shifted c model) u) k
  = top_k_of (predict_user model u) k.
Proof.
  cbn [shifted predict_user].
  apply (top_k_of_order_preserving (fun x => fadd x (c u))).
  intros x y. apply Hkept.
Qed.

Lemma shifted_AP (u : Z) :
  AP_at_k (shifted c model) dataset u k = AP_at_k model dataset u k.
Proof. unfold AP_at_k. now rewrite shifted_top_k. Qed.

Lemma shifted_MAP :
  MAP_at_k (shifted c model) dataset k = MAP_at_k model dataset k.
Proof.
  unfold MAP_at_k. f_equal. apply for_each_ext. intros acc u _.
  now rewrite shifted_AP.
Qed.

Lemma shifted_HitRatio :
  HitRatio_at_k (shifted c model) dataset k = HitRatio_at_k model dataset k.
Proof.
  unfold HitRatio_at_k. f_equal. apply for_each_ext. intros acc u _.
  unfold HitRatio_user. now rewrite shifted_top_k.
Qed.

Lemma shifted_NDCG :
  NDCG_at_k (shifted c model) dataset k = NDCG_at_k model dataset k.
Proof.
  unfold NDCG_at_k. f_equal. apply for_each_ext. intros acc u _.
  unfold NDCG_user. now rewrite shifted_top_k.
Qed.

End Shift.
(** C8, as amended: for every cutoff [k] and every per-user constant
    [c], if adding [c] keeps every comparison, in the order numpy sorts
    by, between two scores of a user, then the shift leaves the top-k
    list of every user unchanged and therefore leaves [AP_at_k],
    [MAP_at_k], [HitRatio_at_k] and [NDCG_at_k] unchanged.  The
    arithmetic is any: binary64 with whatever logarithm, or exact. *)
Theorem ranking_metrics_shift_invariant {F : Type} `{Float64Log F}
  (model : RankModel F) (dataset : Dataset F) (c : Z -> F) (k : Z) :
  order_kept c model ->
  (forall u, top_k_of (predict_user (shifted c model) u) k
             = top_k_of (predict_user model u) k)
  /\ (forall u, AP_at_k (shifted c model) dataset u k
                = AP_at_k model dataset u k)
  /\ MAP_at_k (shifted c model) dataset k = MAP_at_k model dataset k
  /\ HitRatio_at_k (shifted c model) dataset k = HitRatio_at_k model dataset k
  /\ NDCG_at_k (shifted c model) dataset k = NDCG_at_k model dataset k.
Proof.
  intros Hkept. repeat split.
  - intros u. now apply shifted_top_k.
  - intros u. now apply shifted_AP.
  - now apply shifted_MAP.
  - now apply shifted_HitRatio.
  - now apply shifted_NDCG.
Qed.

(** In exact arithmetic every finite constant keeps the order. *)
Lemma order_kept_exact (model : RankModel xreal) (c : Z -> R) :
  order_kept (fun u => Finite (c u)) model.
Proof. intros u x y _ _. apply xreal_shift_keeps_order. Qed.

(** The scores [2.0, 1.0] of [first_is_best] shifted by [1.0], in
    binary64: every comparison is kept, and so are the lists and the
    metrics at [k = 1] for the users 7 and 8, who like item 0. *)
Lemma ranking_metrics_shift_invariant_witness :
  (forall u, top_k_of (predict_user (shifted by_one first_is_best) u) 1
             = top_k_of (predict_user first_is_best u) 1)
  /\ (forall u, AP_at_k (shifted by_one first_is_best) both_like_first u 1
                = AP_at_k first_is_best both_like_first u 1)
  /\ MAP_at_k (shifted by_one first_is_best) both_like_first 1
     = MAP_at_k first_is_best both_like_first 1
  /\ HitRatio_at_k (shifted by_one first_is_best) both_like_first 1
     = HitRatio_at_k first_is_best both_like_first 1
  /\ NDCG_at_k (H0 := libm log_exact log2_exact)
       (shifted by_one first_is_best) both_like_first 1
     = NDCG_at_k (H0 := libm log_exact log2_exact)
         first_is_best both_like_first 1.
Proof.
  apply (ranking_metrics_shift_invariant (H0 := libm log_exact log2_exact)
           first_is_best both_like_first by_one 1).
  intros u x y [<- | [<- | []]] [<- | [<- | []]]; reflexivity.
Defined.

(** What the shift by [1.0] does on that input: the scores become
    [3.0, 2.0], item 0 stays first and the metrics stay [1.0]. *)
Example shift_by_one :
  predict_user (shifted by_one first_is_best) 7 = [3%float; 2%float]
  /\ top_k_of (predict_user (shifted by_one first_is_best) 7) 2 = [0; 1]
  /\ top_k_of (predict_user first_is_best 7) 2 = [0; 1]
  /\ MAP_at_k (shifted by_one first_is_best) both_like_first 1
     = Return (PyFloat 1%float)
  /\ HitRatio_at_k (shifted by_one first_is_best) both_like_first 1
     = Return (NpFloat 1%float)
  /\ NDCG_at_k (H0 := libm log_exact log2_exact)
       (shifted by_one first_is_best) both_like_first 1
     = Return (NpFloat 1%float).
Proof. repeat split; vm_compute; reflexivity. Qed.

(** Over the exact carrier no constant changes anything: the hypothesis
    of the shift invariance holds of every model. *)
Lemma shifted_top_k_exact (model : RankModel xreal) (c : Z -> R) (u k : Z) :
  top_k_of (predict_user (shifted (fun v => Finite (c v)) model) u) k
  = top_k_of (predict_user model u) k.
Proof. apply shifted_top_k, order_kept_exact. Qed.

(** C8 as stated fails in binary64: adding [1e17] rounds the scores
    [2.0] and [1.0] to the same value.  The top-1 list of user 7 moves
    from item 0 to item 1 and the four metrics at [k = 1] change.  The
    vectors [2, 1] and [1, 2] have different top-1 lists and shift to the
    same vector, so that one of the two changes however ties are
    broken. *)
Lemma shift_by_huge_changes_ranking :
  predict_user (shifted by_huge first_is_best) 7 = [huge; huge]
  /\ top_k_of (predict_user first_is_best 7) 1 = [0]
  /\ top_k_of (predict_user (shifted by_huge first_is_best) 7) 1 = [1]
  /\ AP_at_k first_is_best likes_first 7 1 = Return (PyFloat 1%float)
  /\ AP_at_k (shifted by_huge first_is_best) likes_first 7 1
     = Return (PyFloat 0%float)
  /\ MAP_at_k first_is_best likes_first 1 = Return (PyFloat 1%float)
  /\ MAP_at_k (shifted by_huge first_is_best) likes_first 1
     = Return (PyFloat 0%float)
  /\ HitRatio_at_k first_is_best likes_first 1 = Return (NpFloat 1%float)
  /\ HitRatio_at_k (shifted by_huge first_is_best) likes_first 1
     = Return (NpFloat 0%float)
  /\ predict_user (shifted by_huge second_is_best) 7
     = predict_user (shifted by_huge first_is_best) 7
  /\ top_k_of (predict_user second_is_best 7) 1
     <> top_k_of (predict_user first_is_best 7) 1.
Proof.
  repeat split; try (vm_compute; reflexivity).
  vm_compute. discriminate.
Qed.

(** ** The best case of NDCG *)

Lemma dict_get_keys {V} (d : list (Z * V)) (u : Z) :
  In u (keys d) -> exists v, dict_get d u = Return v.
Proof.
  induction d as [|[k v] d IH]; cbn; [tauto|].
  intros [-> | Hu].
  - rewrite Z.eqb_refl. eauto.
  - destruct (k =? u); eauto.
Qed.

Section BestCase.
Context {F : Type} `{Float64Log F}.
Variable rel : list Z.

Lemma DCG_fold_all_relevant (ns items : list Z) (acc : pynum F) :
  length ns = length items ->
  (forall x, In x items -> contains rel x = true) ->
  fold_left (fun DCG (p : Z * Z) =>
               if contains rel (snd p) then py_add DCG (discount (fst p))
               else DCG)
            (combine ns items) acc
  = fold_left (fun IDCG n => py_add IDCG (discount n)) ns acc.
Proof.
  revert items acc. induction ns as [|n ns IH]; intros [|x items] acc Hlen Hall;
    try discriminate; cbn; [reflexivity|].
  rewrite (Hall x) by now left.
  apply IH; [now injection Hlen | intros y Hy; apply Hall; now right].
Qed.

(** With [k] positions, all relevant, the gain is the ideal gain: the
    same terms added in the same order. *)
Lemma DCG_all_relevant (top_k : list Z) (k : Z) :
  Z.of_nat (length top_k) = k ->
  (forall x, In x top_k -> contains rel x = true) ->
  DCG_of rel top_k = IDCG_of (F:=F) k.
Proof.
  intros Hlen Hall. unfold DCG_of, IDCG_of, enumerate. rewrite Hlen.
  apply DCG_fold_all_relevant; [|exact Hall].
  rewrite length_range. lia.
Qed.

(** What "every position [0..k-1] of the top-k list is relevant" gives:
    the list has [k] entries and each is relevant. *)
Lemma all_positions_relevant (a : list F) (k : Z) :
  1 <= k ->
  (forall n, 0 <= n < k ->
     exists item, np_index (top_k_of a k) n = Return item
                  /\ contains rel item = true) ->
  Z.of_nat (length (top_k_of a k)) = k
  /\ forall x, In x (top_k_of a k) -> contains rel x = true.
Proof.
  intros Hk Hpos.
  assert (Hlen : Z.of_nat (length (top_k_of a k)) = k).
  { destruct (Z_lt_le_dec (k - 1) (Z.of_nat (length (top_k_of a k))))
      as [Hlt | Hge].
    - pose proof (length_top_k_of a k ltac:(lia)). lia.
    - destruct (Hpos (k - 1)) as (item & Hitem & _); [lia|].
      rewrite np_index_outside in Hitem by exact Hge. discriminate. }
  split; [exact Hlen|].
  intros x Hx. apply In_nth_error in Hx. destruct Hx as (n & Hn).
  assert (Hlt : (n < length (top_k_of a k))%nat)
    by (apply nth_error_Some; congruence).
  destruct (Hpos (Z.of_nat n)) as (item & Hitem & Hrel); [lia|].
  destruct (np_index_inside (top_k_of a k) (Z.of_nat n)) as (y & Hy & Hnth);
    [lia|].
  rewrite Nat2Z.id in Hnth. congruence.
Qed.

End BestCase.

(** *** Over the exact carrier *)

Lemma ln_pos (x : R) : (1 < x)%R -> (0 < ln x)%R.
Proof. intros Hx. rewrite <- ln_1. apply ln_increasing; lra. Qed.

(** Every discount is a positive real. *)
Lemma discount_positive (n : Z) :
  0 <= n ->
  exists d, discount (F:=xreal) n = NpFloat (Finite d) /\ (0 < d)%R.
Proof.
  intros Hn.
  assert (Hx : (1 < IZR (n + 2))%R) by (apply IZR_lt; lia).
  assert (Hl : (0 < ln (IZR (n + 2)) / ln 2)%R).
  { apply Rdiv_lt_0_compat; apply ln_pos; lra. }
  exists (1 / (ln (IZR (n + 2)) / ln 2))%R. split.
  - unfold discount. cbn.
    destruct (Rlt_dec 0 (IZR (n + 2))) as [_|Hneg]; [|exfalso; lra].
    cbn. destruct (Req_dec_T (ln (IZR (n + 2)) / ln 2) 0) as [Heq|_];
      [exfalso; lra | reflexivity].
  - apply Rdiv_lt_0_compat; lra.
Qed.

Lemma IDCG_fold_positive (l : list Z) (r : R) :
  (forall n, In n l -> 0 <= n) -> (0 < r)%R ->
  exists r',
    fold_left (fun IDCG n => py_add IDCG (discount n)) l (NpFloat (Finite r))
    = NpFloat (Finite r') /\ (0 < r')%R.
Proof.
  revert r. induction l as [|n l IH]; intros r Hl Hr; cbn [fold_left].
  - eauto.
  - destruct (discount_positive n) as (d & -> & Hd); [apply Hl; now left|].
    cbn. apply IH; [intros m Hm; apply Hl; now right | lra].
Qed.

(** From [k = 1] on the ideal gain is a positive real. *)
Lemma IDCG_positive (k : Z) :
  1 <= k ->
  exists r, IDCG_of (F:=xreal) k = NpFloat (Finite r) /\ (0 < r)%R.
Proof.
  intros Hk. unfold IDCG_of. rewrite range_cons by lia. cbn [fold_left].
  destruct (discount_positive 0) as (d & -> & Hd); [lia|]. cbn.
  apply IDCG_fold_positive; [|lra].
  intros n Hn. apply in_range in Hn. lia.
Qed.

Lemma xdiv_self (r : R) : (r <> 0)%R -> xdiv (Finite r) (Finite r) = Finite 1.
Proof.
  intros Hr. cbn. destruct (Req_dec_T r 0); [contradiction|].
  f_equal. now field.
Qed.

(** *** On any carrier where the ideal gain divided by itself is one *)

Section BestCaseAny.
Context {F : Type} `{Float64Log F}.
Variables (model : RankModel F) (dataset : Dataset F) (k : Z).
Hypothesis Hk : 1 <= k.
Hypothesis Hbest : every_position_relevant model dataset k.
Hypothesis Hself : fdiv (to_F (IDCG_of k)) (to_F (IDCG_of k)) = of_Z 1.

Lemma NDCG_user_best (u : Z) (rel : list Z) :
  In u (keys (train_user dataset)) ->
  dict_get (train_user dataset) u = Return rel ->
  DCG_of rel (top_k_of (predict_user model u) k) = IDCG_of k
  /\ NDCG_user model dataset k u = Return (NpFloat (of_Z 1)).
Proof.
  intros Hu Hrel.
  destruct (all_positions_relevant rel (predict_user model u) k Hk
              (Hbest u rel Hu Hrel)) as [Hlen Hall].
  assert (HDCG : DCG_of rel (top_k_of (predict_user model u) k) = IDCG_of k)
    by now apply DCG_all_relevant.
  split; [exact HDCG|].
  rewrite (NDCG_user_value model dataset u k rel Hrel Hk), HDCG.
  now rewrite Hself.
Qed.

Lemma NDCG_loop_best :
  for_each (fun NDCG u => r <- NDCG_user model dataset k u ;;
                          Return (py_add NDCG r))
           (keys (train_user dataset)) (PyInt 0)
  = Return (fold_left (fun acc _ => py_add acc (NpFloat (of_Z 1)))
                      (keys (train_user dataset)) (PyInt 0)).
Proof.
  apply for_each_pure. intros acc u Hu.
  destruct (dict_get_keys _ _ Hu) as (rel & Hrel).
  destruct (NDCG_user_best u rel Hu Hrel) as [_ ->]. reflexivity.
Qed.

(** One [1.0] per user, added from the left. *)
Lemma ones_fold {A} (l : list A) (a : F) :
  fold_left (fun acc (_ : A) => py_add acc (NpFloat (of_Z 1))) l (NpFloat a)
  = NpFloat (fold_left fadd (repeat (of_Z 1) (length l)) a).
Proof.
  revert a. induction l as [|x l IH]; intros a; [reflexivity|].
  cbn [fold_left length repeat]. rewrite <- IH. reflexivity.
Qed.

(** In the best case [NDCG_at_k] returns the count of the users, made by
    adding [1.0] to [0] once per user, divided by [n_users]. *)
Lemma NDCG_best_count :
  train_user dataset <> [] ->
  NDCG_at_k model dataset k
  = Return (NpFloat
              (fdiv (fold_left fadd
                       (repeat (of_Z 1) (length (train_user dataset)))
                       (of_Z 0))
                    (of_Z (n_users dataset)))).
Proof.
  intros Hne. unfold NDCG_at_k. rewrite NDCG_loop_best. cbn [bind].
  unfold keys. destruct (train_user dataset) as [|[u rel] users];
    [congruence|].
  cbn [map fold_left length repeat].
  change (py_add (PyInt 0) (NpFloat (of_Z 1)))
    with (NpFloat (fadd (of_Z 0) (of_Z 1))).
  rewrite ones_fold, length_map. reflexivity.
Qed.

End BestCaseAny.

(** *** Binary64: a double divided by itself, and counting in doubles *)

Lemma div_eucl_exact (a b : Z) :
  0 < b -> Z.div_eucl (a * b) b = (a, 0).
Proof.
  intros Hb. pose proof (Z.div_mul a b ltac:(lia)) as Hq.
  pose proof (Z.mod_mul a b ltac:(lia)) as Hr.
  unfold Z.div, Z.modulo in Hq, Hr.
  destruct (Z.div_eucl (a * b) b) as [q r]. now subst.
Qed.

Lemma SFdiv_self (s : bool) (m : positive) (e : Z) :
  SFdiv prec emax (S754_finite s m e) (S754_finite s m e)
  = S754_finite false 4503599627370496 (-52).
Proof.
  unfold SFdiv, SFdiv_core_binary.
  replace (Zdigits2 (Z.pos m) + e - (Zdigits2 (Z.pos m) + e)) with 0 by lia.
  replace (e - e) with 0 by lia.
  change (Z.min (fexp prec emax 0) 0) with (-53).
  change (0 - -53) with 53. cbv iota.
  rewrite Z.shiftl_mul_pow2 by lia.
  rewrite (Z.mul_comm (Z.pos m)), div_eucl_exact by lia.
  assert (Hloc : new_location (Z.pos m) 0 = loc_Exact).
  { unfold new_location, new_location_even, new_location_odd.
    now destruct (Z.even (Z.pos m)). }
  rewrite Hloc. destruct s; vm_compute; reflexivity.
Qed.

(** A finite non-zero double divided by itself is [1.0]: the quotient
    of the mantissas is exact. *)
Lemma float_div_self (x : float) (s : bool) (m : positive) (e : Z) :
  Prim2SF x = S754_finite s m e -> PrimFloat.div x x = 1%float.
Proof.
  intros Hx. apply Prim2SF_inj. rewrite div_spec, Hx.
  unfold SF64div. rewrite SFdiv_self. vm_compute. reflexivity.
Qed.

Lemma digits_shl (t : nat) (m : positive) :
  Z.pos (digits2_pos (Nat.iter t xO m)) = Z.pos (digits2_pos m) + Z.of_nat t.
Proof.
  induction t as [|t IH]; [cbn; lia|].
  cbn [Nat.iter nat_rect digits2_pos]. rewrite Pos2Z.inj_succ.
  unfold Nat.iter in IH. lia.
Qed.

Lemma value_shl (t : nat) (m : positive) :
  Z.pos (Nat.iter t xO m) = Z.pos m * 2 ^ Z.of_nat t.
Proof.
  induction t as [|t IH]; [cbn; lia|].
  cbn [Nat.iter nat_rect]. rewrite Pos2Z.inj_xO. unfold Nat.iter in IH.
  rewrite IH, Nat2Z.inj_succ, Z.pow_succ_r by lia. lia.
Qed.

Lemma pos_iter_nat {A} (f : A -> A) (x : A) (d : positive) :
  Pos.iter f x d = Nat.iter (Pos.to_nat d) f x.
Proof. apply Pos2Nat.inj_iter. Qed.

Lemma iter_pos_nat {A} (f : A -> A) (p : positive) (x : A) :
  iter_pos f p x = Nat.iter (Pos.to_nat p) f x.
Proof.
  revert x. induction p as [p IH|p IH|]; intros x; cbn [iter_pos].
  - rewrite !IH, Pos2Nat.inj_xI.
    change (f x) with (Nat.iter 1 f x). rewrite <- !Nat.iter_add.
    f_equal. lia.
  - rewrite !IH, Pos2Nat.inj_xO. rewrite <- Nat.iter_add. f_equal. lia.
  - reflexivity.
Qed.

Lemma shr_iter_exact (t : nat) (m : positive) :
  Nat.iter t shr_1
    {| shr_m := Z.pos (Nat.iter t xO m); shr_r := false; shr_s := false |}
  = {| shr_m := Z.pos m; shr_r := false; shr_s := false |}.
Proof.
  induction t as [|t IH]; [reflexivity|].
  rewrite Nat.iter_succ_r. cbn [Nat.iter nat_rect shr_1 orb]. exact IH.
Qed.

(** A canonical mantissa with nothing to round is kept. *)
Lemma round_canonical (s : bool) (m : positive) (e : Z) :
  fexp prec emax (Z.pos (digits2_pos m) + e) = e -> e <= emax - prec ->
  binary_round_aux prec emax s (Z.pos m) e loc_Exact = S754_finite s m e.
Proof.
  intros Hcan Hmax. unfold binary_round_aux, shr_fexp.
  cbn [Zdigits2 shr_record_of_loc]. rewrite Hcan, Z.sub_diag.
  cbn [shr shr_m loc_of_shr_record round_nearest_even Zdigits2
       shr_record_of_loc].
  rewrite Hcan, Z.sub_diag. cbn [shr shr_m].
  now replace (e <=? emax - prec) with true
    by (symmetry; apply Z.leb_le; exact Hmax).
Qed.

(** Trailing zero bits are shifted out exactly. *)
Lemma round_shifted (s : bool) (m : positive) (e : Z) (t : nat) :
  fexp prec emax (Z.pos (digits2_pos m) + (e + Z.of_nat t)) = e + Z.of_nat t ->
  e + Z.of_nat t <= emax - prec ->
  binary_round_aux prec emax s (Z.pos (Nat.iter t xO m)) e loc_Exact
  = S754_finite s m (e + Z.of_nat t).
Proof.
  intros Hcan Hmax. destruct t as [|t].
  - cbn [Nat.iter nat_rect]. replace (e + Z.of_nat 0) with e in * by lia.
    now apply round_canonical.
  - unfold binary_round_aux, shr_fexp. cbn [Zdigits2 shr_record_of_loc].
    rewrite digits_shl.
    replace (Z.pos (digits2_pos m) + Z.of_nat (S t) + e)
      with (Z.pos (digits2_pos m) + (e + Z.of_nat (S t))) by lia.
    rewrite Hcan.
    replace (e + Z.of_nat (S t) - e) with (Z.pos (Pos.of_succ_nat t)) by lia.
    cbn [shr]. rewrite iter_pos_nat, SuccNat2Pos.id_succ, shr_iter_exact.
    cbn [shr_m loc_of_shr_record round_nearest_even Zdigits2
         shr_record_of_loc].
    replace (e + Z.pos (Pos.of_succ_nat t)) with (e + Z.of_nat (S t)) by lia.
    rewrite Hcan, Z.sub_diag. cbn [shr shr_m].
    now replace (e + Z.of_nat (S t) <=? emax - prec) with true
      by (symmetry; apply Z.leb_le; exact Hmax).
Qed.

Lemma digits_bounds (v : positive) :
  2 ^ (Z.pos (digits2_pos v) - 1) <= Z.pos v < 2 ^ Z.pos (digits2_pos v).
Proof.
  induction v as [v IH|v IH|]; cbn [digits2_pos]; [| |cbn; lia];
    rewrite Pos2Z.inj_succ;
    replace (Z.succ (Z.pos (digits2_pos v)) - 1) with (Z.pos (digits2_pos v))
      by lia;
    rewrite Z.pow_succ_r by lia;
    assert (Hpow : 2 ^ Z.pos (digits2_pos v)
                   = 2 * 2 ^ (Z.pos (digits2_pos v) - 1))
      by (rewrite <- Z.pow_succ_r by lia; f_equal; lia).
  - change (Z.pos v~1) with (2 * Z.pos v + 1). lia.
  - change (Z.pos v~0) with (2 * Z.pos v). lia.
Qed.

Lemma digits_small (v : positive) :
  Z.pos v < 2 ^ 53 -> 1 <= Z.pos (digits2_pos v) <= 53.
Proof.
  intros Hv. split; [lia|].
  destruct (Z_le_gt_dec (Z.pos (digits2_pos v)) 53) as [Hle | Hgt];
    [exact Hle|].
  pose proof (digits_bounds v) as [Hlo _].
  assert (2 ^ 53 <= 2 ^ (Z.pos (digits2_pos v) - 1))
    by (apply Z.pow_le_mono_r; lia).
  lia.
Qed.

Lemma fexp_digits (d : Z) : 1 <= d -> fexp prec emax d = d - 53.
Proof. intros Hd. unfold fexp, emin, prec, emax. lia. Qed.

(** An integer below [2^53] is converted without rounding. *)
Lemma normalize_small (v : positive) :
  Z.pos v < 2 ^ 53 ->
  binary_normalize prec emax (Z.pos v) 0 false = double_of_pos v.
Proof.
  intros Hv. pose proof (digits_small v Hv) as Hd.
  unfold binary_normalize, binary_round, double_of_pos, shl_align.
  rewrite Z.add_0_r, fexp_digits, Z.sub_0_r by lia.
  set (d := digits2_pos v) in *.
  destruct (Z.pos d - 53) as [|p|p] eqn:Hp; [|lia|].
  - replace (53 - Pos.to_nat d)%nat with 0%nat by lia. cbn [Nat.iter nat_rect].
    apply round_canonical; [|unfold emax, prec; lia].
    fold d. rewrite Z.add_0_r, fexp_digits by lia. lia.
  - rewrite pos_iter_nat.
    replace (Pos.to_nat p) with (53 - Pos.to_nat d)%nat by lia.
    rewrite <- Hp. apply round_canonical; [|unfold emax, prec; lia].
    rewrite digits_shl. fold d. rewrite fexp_digits by lia. lia.
Qed.

(** Below [2^53], adding [1.0] to the double of [v] gives the double of
    [v + 1]. *)
Lemma SFadd_one (v : positive) :
  Z.pos v + 1 < 2 ^ 53 ->
  SFadd prec emax (double_of_pos v) (S754_finite false 4503599627370496 (-52))
  = double_of_pos (v + 1).
Proof.
  intros Hv.
  pose proof (digits_small v ltac:(lia)) as Hd.
  pose proof (digits_small (v + 1) ltac:(lia)) as Hd'.
  unfold SFadd, double_of_pos at 1. cbn [cond_Zopp].
  set (d := digits2_pos v) in *.
  replace (Z.min (Z.pos d - 53) (-52)) with (-52) by lia.
  assert (Hx : fst (shl_align (Nat.iter (53 - Pos.to_nat d) xO v)
                              (Z.pos d - 53) (-52))
               = Nat.iter 52 xO v).
  { unfold shl_align. destruct (-52 - (Z.pos d - 53)) as [|p|p] eqn:Hp;
      [|lia|]; cbn [fst].
    - f_equal. lia.
    - rewrite pos_iter_nat, <- Nat.iter_add. f_equal. lia. }
  rewrite Hx. change (fst (shl_align 4503599627370496 (-52) (-52)))
    with 4503599627370496%positive.
  replace (Z.pos (Nat.iter 52 xO v) + 4503599627370496)
    with (Z.pos (Nat.iter 52 xO (v + 1)%positive))
    by (rewrite !value_shl; change (2 ^ Z.of_nat 52) with 4503599627370496;
        lia).
  unfold binary_normalize, binary_round, shl_align.
  rewrite digits_shl.
  set (d' := digits2_pos (v + 1)) in *.
  replace (Z.pos d' + Z.of_nat 52 + -52) with (Z.pos d') by lia.
  rewrite fexp_digits by lia.
  destruct (Z.pos d' - 53 - -52) as [|p|p] eqn:Hp; [| |lia].
  - assert (Hd1 : (53 - Pos.to_nat d')%nat = 52%nat) by lia.
    rewrite round_canonical.
    + unfold double_of_pos. fold d'. rewrite Hd1. f_equal. lia.
    + rewrite digits_shl. fold d'. rewrite fexp_digits by lia. lia.
    + unfold emax, prec. lia.
  - replace (Nat.iter 52 xO (v + 1)%positive)
      with (Nat.iter (Pos.to_nat p) xO
              (Nat.iter (53 - Pos.to_nat d') xO (v + 1)%positive))
      by (rewrite <- Nat.iter_add; f_equal; lia).
    rewrite round_shifted.
    + unfold double_of_pos. fold d'. f_equal. lia.
    + rewrite digits_shl. fold d'. rewrite fexp_digits by lia. lia.
    + unfold emax, prec. lia.
Qed.

Lemma float_of_Z_spec (z : Z) :
  0 <= z < 2 ^ 63 ->
  Prim2SF (float_of_Z z) = binary_normalize prec emax z 0 false.
Proof.
  intros Hz. unfold float_of_Z.
  replace (z <? 0) with false by (symmetry; apply Z.ltb_ge; lia).
  rewrite of_uint63_spec, Uint63.of_Z_spec. f_equal.
  apply Z.mod_small. exact Hz.
Qed.

Lemma fold_repeat_succ {A B} (f : A -> B -> A) (b : B) (n : nat) (a : A) :
  fold_left f (repeat b (S n)) a = f (fold_left f (repeat b n) a) b.
Proof.
  revert a. induction n as [|n IH]; intros a; [reflexivity|].
  cbn [repeat fold_left] in *. apply IH.
Qed.

(** Adding [1.0] to zero [n] times gives the double of [n], up to
    [2^53]: no addition rounds. *)
Lemma float_count (n : nat) :
  Z.of_nat n <= 2 ^ 53 ->
  Prim2SF (fold_left PrimFloat.add (repeat 1%float n) 0%float)
  = binary_normalize prec emax (Z.of_nat n) 0 false.
Proof.
  induction n as [|n IH]; intros Hn; [reflexivity|].
  rewrite fold_repeat_succ, add_spec, IH by lia.
  change (Prim2SF 1) with (S754_finite false 4503599627370496 (-52)).
  unfold SF64add.
  destruct n as [|n]; [reflexivity|].
  destruct (Z.eq_dec (Z.of_nat (S (S n))) (2 ^ 53)) as [Htop | Hlow].
  - replace (Z.of_nat (S n)) with 9007199254740991 by lia.
    rewrite Htop. vm_compute. reflexivity.
  - replace (Z.of_nat (S n)) with (Z.pos (Pos.of_succ_nat n)) by lia.
    replace (Z.of_nat (S (S n))) with (Z.pos (Pos.of_succ_nat n + 1)) by lia.
    rewrite !normalize_small by lia. apply SFadd_one. lia.
Qed.

Lemma float_count_of_Z (n : nat) :
  Z.of_nat n <= 2 ^ 53 ->
  fold_left PrimFloat.add (repeat 1%float n) 0%float
  = float_of_Z (Z.of_nat n).
Proof.
  intros Hn. apply Prim2SF_inj.
  rewrite float_count, float_of_Z_spec by lia. reflexivity.
Qed.

Lemma float_of_Z_regular (z : Z) :
  1 <= z <= 2 ^ 53 ->
  exists s m e, Prim2SF (float_of_Z z) = S754_finite s m e.
Proof.
  intros Hz. rewrite float_of_Z_spec by lia.
  destruct (Z.eq_dec z (2 ^ 53)) as [-> | Hlow].
  - vm_compute. eauto.
  - destruct z as [|v|v]; try lia. rewrite normalize_small by lia.
    unfold double_of_pos. eauto.
Qed.

Lemma regular_float_finite (x : float) :
  regular_float x = true -> exists s m e, Prim2SF x = S754_finite s m e.
Proof.
  unfold regular_float. destruct (Prim2SF x); try discriminate. eauto.
Qed.

(** The best case in binary64, whatever [np.log2] returns, as long as the
    ideal gain is a finite non-zero double. *)
Lemma NDCG_best_case_binary64 (log log2 : float -> float)
  (model : RankModel float) (dataset : Dataset float) (k : Z) :
  1 <= k ->
  train_user dataset <> [] ->
  n_users dataset = Z.of_nat (length (train_user dataset)) ->
  n_users dataset <= 2 ^ 53 ->
  regular_float (to_F (IDCG_of (H0 := libm log log2) k)) = true ->
  every_position_relevant model dataset k ->
  (forall u rel,
     In u (keys (train_user dataset)) ->
     dict_get (train_user dataset) u = Return rel ->
     DCG_of (H0 := libm log log2) rel (top_k_of (predict_user model u) k)
     = IDCG_of (H0 := libm log log2) k
     /\ NDCG_user (H0 := libm log log2) model dataset k u
        = Return (NpFloat (of_Z 1)))
  /\ NDCG_at_k (H0 := libm log log2) model dataset k
     = Return (NpFloat (of_Z 1)).
Proof.
  intros Hk Hne Hn Hmax Hreg Hbest.
  assert (Hself : fdiv (to_F (IDCG_of (H0 := libm log log2) k))
                       (to_F (IDCG_of (H0 := libm log log2) k)) = of_Z 1).
  { destruct (regular_float_finite _ Hreg) as (s & m & e & Hx).
    exact (float_div_self _ s m e Hx). }
  split.
  - intros u rel. now apply NDCG_user_best.
  - rewrite (NDCG_best_count (H0 := libm log log2) model dataset k Hk Hbest
               Hself Hne).
    rewrite Hn.
    change (fold_left fadd (repeat (of_Z 1) (length (train_user dataset)))
              (of_Z 0))
      with (fold_left PrimFloat.add
              (repeat 1%float (length (train_user dataset))) 0%float).
    rewrite float_count_of_Z by lia.
    destruct (float_of_Z_regular (Z.of_nat (length (train_user dataset))))
      as (s & m & e & Hx).
    { destruct (train_user dataset); [congruence | cbn [length] in *; lia]. }
    do 2 f_equal. exact (float_div_self _ s m e Hx).
Qed.

(** *** Exact arithmetic *)

Lemma xsum_ones (n : nat) (r : R) :
  fold_left (fadd (F:=xreal)) (repeat (Finite 1) n) (Finite r)
  = Finite (r + INR n).
Proof.
  revert r. induction n as [|n IH]; intros r.
  - cbn. f_equal. lra.
  - cbn [repeat fold_left]. cbn [fadd Float64_xreal xlift2].
    rewrite IH, S_INR. f_equal. lra.
Qed.

Lemma NDCG_best_case_exact
  (model : RankModel xreal) (dataset : Dataset xreal) (k : Z) :
  1 <= k ->
  train_user dataset <> [] ->
  n_users dataset = Z.of_nat (length (train_user dataset)) ->
  every_position_relevant model dataset k ->
  (forall u rel,
     In u (keys (train_user dataset)) ->
     dict_get (train_user dataset) u = Return rel ->
     DCG_of (F:=xreal) rel (top_k_of (predict_user model u) k) = IDCG_of k
     /\ NDCG_user model dataset k u = Return (NpFloat (of_Z 1)))
  /\ NDCG_at_k model dataset k = Return (NpFloat (of_Z 1)).
Proof.
  intros Hk Hne Hn Hbest.
  assert (Hself : fdiv (to_F (IDCG_of (F:=xreal) k)) (to_F (IDCG_of k))
                  = of_Z 1).
  { destruct (IDCG_positive k Hk) as (r & -> & Hr). cbn [to_F].
    change (fdiv (Finite r) (Finite r)) with (xdiv (Finite r) (Finite r)).
    rewrite xdiv_self by lra. reflexivity. }
  split.
  - intros u rel. now apply NDCG_user_best.
  - rewrite (NDCG_best_count model dataset k Hk Hbest Hself Hne), Hn.
    cbn [of_Z Float64_xreal]. rewrite xsum_ones.
    replace (0 + INR (length (train_user dataset)))%R
      with (IZR (Z.of_nat (length (train_user dataset))))
      by (rewrite <- INR_IZR_INZ; lra).
    change (fdiv ?a ?b) with (xdiv a b). rewrite xdiv_self; [reflexivity|].
    apply not_0_IZR. destruct (train_user dataset); [congruence|].
    cbn [length]. lia.
Qed.

(** C3, as amended: for every dataset with at least one user, whose user
    count [n_users] is the number of users of [train_user], and every
    [k >= 1], if for every user every position [0..k-1] of the top-k list
    is in the user's relevant set, then the gain of every user is the ideal
    gain, the per-user value is [1.0], and [NDCG_at_k] returns exactly
    [1.0].  This holds of the doubles the program computes with, for
    whatever [np.log2] returns, as long as the ideal gain is a finite
    non-zero double and there are no more than [2^53] users: the gain
    and the ideal gain add the same terms in the same order, a double
    divided by itself is [1.0], and counting the users in doubles is
    exact.  It holds in exact arithmetic as well. *)
Theorem NDCG_at_k_best_case :
  (forall (log log2 : float -> float)
          (model : RankModel float) (dataset : Dataset float) (k : Z),
     1 <= k ->
     train_user dataset <> [] ->
     n_users dataset = Z.of_nat (length (train_user dataset)) ->
     n_users dataset <= 2 ^ 53 ->
     regular_float (to_F (IDCG_of (H0 := libm log log2) k)) = true ->
     every_position_relevant model dataset k ->
     (forall u rel,
        In u (keys (train_user dataset)) ->
        dict_get (train_user dataset) u = Return rel ->
        DCG_of (H0 := libm log log2) rel (top_k_of (predict_user model u) k)
        = IDCG_of (H0 := libm log log2) k
        /\ NDCG_user (H0 := libm log log2) model dataset k u
           = Return (NpFloat (of_Z 1)))
     /\ NDCG_at_k (H0 := libm log log2) model dataset k
        = Return (NpFloat (of_Z 1)))
  /\
  (forall (model : RankModel xreal) (dataset : Dataset xreal) (k : Z),
     1 <= k ->
     train_user dataset <> [] ->
     n_users dataset = Z.of_nat (length (train_user dataset)) ->
     every_position_relevant model dataset k ->
     (forall u rel,
        In u (keys (train_user dataset)) ->
        dict_get (train_user dataset) u = Return rel ->
        DCG_of (F:=xreal) rel (top_k_of (predict_user model u) k) = IDCG_of k
        /\ NDCG_user model dataset k u = Return (NpFloat (of_Z 1)))
     /\ NDCG_at_k model dataset k = Return (NpFloat (of_Z 1))).
Proof.
  split.
  - intros log log2 model dataset k Hk Hne Hn Hmax Hreg Hbest.
    now apply NDCG_best_case_binary64.
  - intros model dataset k Hk Hne Hn Hbest.
    now apply NDCG_best_case_exact.
Qed.

(** Two users whose first-ranked item is relevant, in binary64 at
    [k = 1]: the ideal gain is [1 / log2(2) = 1.0]. *)
Lemma NDCG_at_k_best_case_witness :
  NDCG_at_k (H0 := libm log_exact log2_exact) two_item_model both_like_first 1
  = Return (NpFloat (of_Z 1)).
Proof.
  refine (proj2 (proj1 NDCG_at_k_best_case log_exact log2_exact
                   two_item_model both_like_first 1 _ _ _ _ _ _)).
  - lia.
  - discriminate.
  - reflexivity.
  - cbn. lia.
  - vm_compute. reflexivity.
  - intros u rel [<- | [<- | []]] [= <-] n Hn; assert (n = 0) as -> by lia;
      exists 0; split; reflexivity.
Defined.

(** C3 as stated fails on the dataset without users: the premise holds
    of every user, there being none, and the division of the integer
    [0] by the user count [0] raises [ZeroDivisionError]. *)
Lemma NDCG_at_k_without_users :
  1 <= 1
  /\ (forall u rel,
        In u (keys (train_user (F:=xreal) empty_dataset)) ->
        dict_get (train_user (F:=xreal) empty_dataset) u = Return rel ->
        forall n, 0 <= n < 1 ->
          exists item,
            np_index (top_k_of (predict_user one_item_model_x u) 1) n
            = Return item
            /\ contains rel item = true)
  /\ NDCG_at_k one_item_model_x empty_dataset 1 = Raise ZeroDivisionError
  /\ NDCG_at_k one_item_model_x empty_dataset 1 <> Return (NpFloat (of_Z 1)).
Proof.
  repeat split; try lia; try reflexivity.
  - intros u rel [].
  - discriminate.
Qed.

(** ** The metrics on small inputs *)

(** Items 0 and 2 relevant among [0, 1, 2]: precision 1/1 at rank 1 and
    2/3 at rank 3, averaged over the two hits. *)
Example AP_first_and_last :
  top_k_of (predict_user three_items 7) 3 = [0; 1; 2]
  /\ AP_at_k three_items likes_first_and_last 7 3
     = Return (PyFloat ((1 + 2 / 3) / 2)%float).
Proof. split; vm_compute; reflexivity. Qed.

(** Every item of every top-3 list relevant: hit ratio 1.0, MAP 1.0. *)
Example HitRatio_all_relevant :
  HitRatio_at_k three_items likes_all_three 3 = Return (NpFloat 1%float)
  /\ MAP_at_k three_items likes_all_three 3 = Return (PyFloat 1%float).
Proof. split; vm_compute; reflexivity. Qed.

(** A cutoff beyond the catalog: the hit ratio still divides by [k]. *)
Example HitRatio_short_vector :
  HitRatio_at_k three_items likes_all_three 4 = Return (NpFloat 0.75%float).
Proof. vm_compute. reflexivity. Qed.

(** Predictions 0.9 and 0.1 under labels 1.0 and 0.0: both terms are
    [-ln(0.9)], and so is their mean. *)
Example cross_entropy_symmetric :
  binary_cross_entropy confident_x [1; 2] [3; 4] [Finite 1%R; Finite 0%R] "mf"
  = (Finite (- ln (9 / 10))%R, [Finite (9 / 10)%R; Finite (1 / 10)%R]).
Proof.
  rewrite binary_cross_entropy_value. cbn [zip3 combine filter map].
  unfold valid_label, label_of, sample_term, cross_entropy_term, prob_of,
    label_of. cbn [fst snd confident_x predict_method Z.eqb Pos.eqb feqb
    of_Z Float64_xreal].
  rewrite !xeqb_refl, (xeqb_neq 0 1) by lra. cbn [orb filter map fst snd].
  rewrite !xeqb_refl, (xeqb_neq 0 1) by lra.
  cbn [fst snd predict_method confident_x Z.eqb Pos.eqb map].
  f_equal. unfold np_mean, np_sum. cbn.
  destruct (Rlt_dec 0 (9 / 10)) as [_|Hn]; [|exfalso; lra].
  destruct (Rlt_dec 0 (1 - 1 / 10)) as [_|Hn]; [|exfalso; lra].
  cbn [xneg xlift2 xdiv].
  destruct (Req_dec_T 2 0) as [Hz|_]; [exfalso; lra|].
  f_equal. replace (1 - 1 / 10)%R with (9 / 10)%R by lra. lra.
Qed.

(** * Further properties of the metrics *)

(** ** Which exceptions the primitives raise *)

Lemma np_index_raises {A} (a : list A) (j : Z) (e : exn) :
  np_index a j = Raise e -> e = IndexError.
Proof.
  unfold np_index.
  destruct (_ && _); [destruct (nth_error _ _)|]; congruence.
Qed.

Lemma dict_get_raises {V} (d : list (Z * V)) (u : Z) (e : exn) :
  dict_get d u = Raise e -> e = KeyError.
Proof.
  induction d as [|[k v] d IH]; cbn; [congruence|].
  destruct (k =? u); [discriminate | exact IH].
Qed.

Lemma dict_get_missing {V} (d : list (Z * V)) (u : Z) :
  ~ In u (keys d) -> dict_get d u = Raise KeyError.
Proof.
  induction d as [|[k v] d IH]; cbn; [reflexivity|].
  intros Hu. destruct (Z.eqb_spec k u) as [-> | _]; [tauto|].
  apply IH. tauto.
Qed.

Lemma for_each_raises {A S} (P : exn -> Prop) (body : S -> A -> outcome S)
  (l : list A) (s : S) (e : exn) :
  (forall t x e', In x l -> body t x = Raise e' -> P e') ->
  for_each body l s = Raise e -> P e.
Proof.
  revert s. induction l as [|x l IH]; intros s Hl; cbn; [discriminate|].
  destruct (body s x) as [s'|e'] eqn:Hb; cbn.
  - apply IH. intros t y e'' Hy. apply Hl. now right.
  - intros [= <-]. eapply Hl; [now left | exact Hb].
Qed.

(** ** What [AP_at_k] can raise *)

Section APErrors.
Context {F : Type} `{Float64 F}.
Variables (model : RankModel F) (dataset : Dataset F) (u k : Z).

Lemma AP_body_raises (top_k : list Z) (acc : pynum F * Z) (i : Z) (e : exn) :
  i <> 0 ->
  AP_body top_k dataset u acc i = Raise e -> e = IndexError \/ e = KeyError.
Proof.
  intros Hi. destruct acc as [p c]. unfold AP_body.
  destruct (np_index top_k (i - 1)) as [x|e1] eqn:Hx; cbn [bind].
  - destruct (dict_get (train_user dataset) u) as [rel|e2] eqn:Hrel;
      cbn [bind].
    + destruct (contains rel x); [|discriminate].
      rewrite int_truediv_int by exact Hi. discriminate.
    + intros [= <-]. right. eapply dict_get_raises, Hrel.
  - intros [= <-]. left. eapply np_index_raises, Hx.
Qed.

(** The division by the relevant-count never escapes: the only
    exceptions of [AP_at_k] are the [IndexError] of a short score vector
    and the [KeyError] of an unknown user. *)
Theorem AP_at_k_raises_only (e : exn) :
  AP_at_k model dataset u k = Raise e -> e = IndexError \/ e = KeyError.
Proof.
  unfold AP_at_k.
  destruct (for_each _ _ _) as [[p c]|e'] eqn:Hloop; cbn [bind].
  - assert (Hp : plain p).
    { change p with (fst (p, c)). eapply AP_loop_plain; [|exact Hloop].
      reflexivity. }
    destruct (AP_final_returns p c Hp) as (v & ->). discriminate.
  - intros [= <-]. revert Hloop.
    apply (for_each_raises (fun e => e = IndexError \/ e = KeyError)).
    intros t i e0 Hi. apply in_range in Hi. apply AP_body_raises. lia.
Qed.

(** A user missing from [train_user]: [KeyError], unless the score
    vector is empty, in which case the index is read first and
    [IndexError] is raised. *)
Theorem AP_at_k_unknown_user :
  1 <= k -> ~ In u (keys (train_user dataset)) ->
  (predict_user model u <> [] -> AP_at_k model dataset u k = Raise KeyError)
  /\ (predict_user model u = [] -> AP_at_k model dataset u k = Raise IndexError).
Proof.
  intros Hk Hu. apply dict_get_missing in Hu. unfold AP_at_k.
  rewrite range_cons by lia. cbn [for_each].
  set (top_k := top_k_of (predict_user model u) k).
  split; intros Hlen.
  - assert (Hb : AP_body top_k dataset u (PyInt 0, 0) 1 = Raise KeyError).
    { unfold AP_body. change (1 - 1) with 0.
      destruct (np_index_inside top_k 0) as (x & Hx & _).
      - unfold top_k. rewrite length_top_k_of by lia.
        destruct (predict_user model u); [congruence|]. cbn [length]. lia.
      - rewrite Hx. cbn [bind]. now rewrite Hu. }
    now rewrite Hb.
  - assert (Hb : AP_body top_k dataset u (PyInt 0, 0) 1 = Raise IndexError).
    { unfold AP_body. change (1 - 1) with 0.
      rewrite np_index_outside; [reflexivity|].
      unfold top_k. rewrite length_top_k_of, Hlen by lia. cbn [length]. lia. }
    now rewrite Hb.
Qed.

(** A cutoff of zero or below: the walk is empty and the result is
    [0.0], whatever the user and the score vector. *)
Theorem AP_at_k_nonpositive_cutoff :
  k <= 0 -> AP_at_k model dataset u k = Return (PyFloat (of_Z 0)).
Proof.
  intros Hk. unfold AP_at_k. rewrite range_nil by lia. reflexivity.
Qed.

(** What [AP_at_k] returns is a Python [float]. *)
Lemma AP_at_k_plain (v : pynum F) :
  AP_at_k model dataset u k = Return v -> plain v.
Proof.
  unfold AP_at_k.
  destruct (for_each _ _ _) as [[p c]|e'] eqn:Hloop; cbn [bind];
    [|discriminate].
  assert (Hp : plain p).
  { change p with (fst (p, c)). eapply AP_loop_plain; [|exact Hloop].
    reflexivity. }
  unfold py_truediv. rewrite Hp. cbn.
  destruct (c =? 0); intros [= <-]; reflexivity.
Qed.

End APErrors.

Lemma AP_at_k_raises_only_witness :
  IndexError = IndexError \/ IndexError = KeyError.
Proof.
  apply (AP_at_k_raises_only one_item_model no_history 7 2).
  vm_compute. reflexivity.
Defined.

Lemma AP_at_k_unknown_user_witness :
  AP_at_k one_item_model empty_dataset 7 1 = Raise KeyError.
Proof.
  refine (proj1 (AP_at_k_unknown_user one_item_model empty_dataset 7 1 _ _) _).
  - lia.
  - intros [].
  - discriminate.
Defined.

Lemma AP_at_k_nonpositive_cutoff_witness :
  AP_at_k one_item_model empty_dataset 7 0 = Return (PyFloat (of_Z 0)).
Proof.
  apply (AP_at_k_nonpositive_cutoff one_item_model empty_dataset 7 0). lia.
Defined.

(** ** The aggregates as a map followed by a reduction *)

Lemma fold_left_snoc {A} (ys acc : list A) :
  fold_left (fun acc y => acc ++ [y]) ys acc = acc ++ ys.
Proof.
  revert acc. induction ys as [|y ys IH]; intros acc; cbn.
  - now rewrite app_nil_r.
  - now rewrite IH, <- app_assoc.
Qed.

(** A function that returns on every element maps like [map]. *)
Lemma map_outcome_pure {A B} (f : A -> outcome B) (g : A -> B) (l : list A) :
  (forall x, In x l -> f x = Return (g x)) ->
  map_outcome f l = Return (map g l).
Proof.
  induction l as [|x l IH]; intros Hl; cbn; [reflexivity|].
  rewrite (Hl x) by now left. cbn.
  rewrite IH by (intros y Hy; apply Hl; now right). reflexivity.
Qed.

Lemma map_outcome_all {A B} (P : B -> Prop) (f : A -> outcome B)
  (l : list A) (ys : list B) :
  (forall x y, In x l -> f x = Return y -> P y) ->
  map_outcome f l = Return ys -> Forall P ys.
Proof.
  revert ys. induction l as [|x l IH]; intros ys Hl; cbn.
  - intros [= <-]. constructor.
  - destruct (f x) as [y|] eqn:Hy; cbn; [|discriminate].
    destruct (map_outcome f l) as [ys'|]; cbn; [|discriminate].
    intros [= <-]. constructor.
    + eapply Hl; [now left | exact Hy].
    + apply IH; [|reflexivity]. intros z w Hz. apply Hl. now right.
Qed.

Lemma relevant_of_key {F} (dataset : Dataset F) (u : Z) :
  In u (keys (train_user dataset)) ->
  dict_get (train_user dataset) u = Return (relevant_of dataset u).
Proof.
  intros Hu. unfold relevant_of.
  destruct (dict_get_keys _ _ Hu) as (rel & ->). reflexivity.
Qed.

Section Aggregates.
Context {F : Type} `{Float64Log F}.
Variables (model : RankModel F) (dataset : Dataset F) (k : Z).

Lemma MAP_at_k_unfold :
  MAP_at_k model dataset k
  = (aps <- map_outcome (fun u => AP_at_k model dataset u k)
                        (keys (train_user dataset)) ;;
     py_truediv (fold_left py_add aps (PyInt 0)) (PyInt (n_users dataset))).
Proof.
  unfold MAP_at_k.
  rewrite (for_each_accumulate (fun u => AP_at_k model dataset u k) py_add).
  destruct (map_outcome _ _); reflexivity.
Qed.

Lemma py_add_plain (a b : pynum F) : plain a -> plain b -> plain (py_add a b).
Proof. unfold plain. destruct a, b; cbn; intros; congruence. Qed.

Lemma py_sum_plain (l : list (pynum F)) (acc : pynum F) :
  plain acc -> Forall plain l -> plain (fold_left py_add l acc).
Proof.
  revert acc. induction l as [|x l IH]; intros acc Hacc Hl; cbn;
    [exact Hacc|].
  inversion Hl; subst. apply IH; [now apply py_add_plain | assumption].
Qed.

Lemma plain_truediv_zero (a : pynum F) :
  plain a -> py_truediv a (PyInt 0) = Raise ZeroDivisionError.
Proof. unfold plain, py_truediv. now intros ->. Qed.

(** With a user count of zero [MAP_at_k] cannot return: if every
    per-user call returns, the sum is a Python number and its division
    by the integer zero raises. *)
Theorem MAP_at_k_zero_user_count :
  n_users dataset = 0 ->
  raises (MAP_at_k model dataset k)
  /\ (forall aps,
        map_outcome (fun u => AP_at_k model dataset u k)
                    (keys (train_user dataset)) = Return aps ->
        MAP_at_k model dataset k = Raise ZeroDivisionError).
Proof.
  intros Hn.
  assert (Hret : forall aps,
            map_outcome (fun u => AP_at_k model dataset u k)
                        (keys (train_user dataset)) = Return aps ->
            MAP_at_k model dataset k = Raise ZeroDivisionError).
  { intros aps Haps. rewrite MAP_at_k_unfold, Haps, Hn. cbn [bind].
    apply plain_truediv_zero, py_sum_plain; [reflexivity|].
    eapply map_outcome_all; [|exact Haps].
    intros u v _. apply AP_at_k_plain. }
  split; [|exact Hret].
  destruct (map_outcome (fun u => AP_at_k model dataset u k)
                        (keys (train_user dataset))) as [aps|e] eqn:Haps.
  - exists ZeroDivisionError. now apply (Hret aps).
  - exists e. rewrite MAP_at_k_unfold, Haps. reflexivity.
Qed.

Lemma HitRatio_user_key (u : Z) :
  k <> 0 -> In u (keys (train_user dataset)) ->
  HitRatio_user model dataset k u = Return (PyFloat (hit_rate model dataset k u)).
Proof.
  intros Hk Hu. unfold hit_rate.
  apply HitRatio_user_value; [now apply relevant_of_key | exact Hk].
Qed.

Lemma HitRatio_at_k_map :
  k <> 0 ->
  HitRatio_at_k model dataset k
  = Return (NpFloat (np_mean (map (hit_rate model dataset k)
                                  (keys (train_user dataset))))).
Proof.
  intros Hk. unfold HitRatio_at_k.
  rewrite (for_each_accumulate (HitRatio_user model dataset k)
             (fun acc h => acc ++ [h])).
  rewrite (map_outcome_pure _ (fun u => PyFloat (hit_rate model dataset k u)))
    by (intros u Hu; now apply HitRatio_user_key).
  cbn [bind]. rewrite fold_left_snoc. cbn [app].
  now rewrite map_map.
Qed.

(** For [k <> 0] [HitRatio_at_k] never raises, whatever the model and
    the dataset: it returns the numpy mean of the hit rates of the users,
    the hits among the top-k list over [k]; over no user, nan. *)
Theorem HitRatio_at_k_closed_form :
  k <> 0 ->
  HitRatio_at_k model dataset k
  = Return (NpFloat (np_mean (map (hit_rate model dataset k)
                                  (keys (train_user dataset)))))
  /\ (train_user dataset = [] ->
      HitRatio_at_k model dataset k = Return (NpFloat nan)).
Proof.
  intros Hk. split; [now apply HitRatio_at_k_map|].
  intros Hnone. rewrite HitRatio_at_k_map by exact Hk. now rewrite Hnone.
Qed.

(** For [k >= 1] [NDCG_at_k] adds, for every user, the ratio of the
    gain to the ideal gain, a numpy scalar. *)
Lemma NDCG_user_key (u : Z) :
  1 <= k -> In u (keys (train_user dataset)) ->
  NDCG_user model dataset k u = Return (NpFloat (gain_ratio model dataset k u)).
Proof.
  intros Hk Hu. unfold gain_ratio.
  apply NDCG_user_value; [now apply relevant_of_key | exact Hk].
Qed.

Lemma NDCG_at_k_unfold :
  1 <= k ->
  NDCG_at_k model dataset k
  = py_truediv
      (fold_left py_add
         (map (fun u => NpFloat (gain_ratio model dataset k u))
              (keys (train_user dataset)))
         (PyInt 0))
      (PyInt (n_users dataset)).
Proof.
  intros Hk. unfold NDCG_at_k.
  rewrite (for_each_accumulate (NDCG_user model dataset k) py_add).
  rewrite (map_outcome_pure _ (fun u => NpFloat (gain_ratio model dataset k u)))
    by (intros u Hu; now apply NDCG_user_key).
  reflexivity.
Qed.

Lemma np_sum_is_np {A} (g : A -> F) (l : list A) (x : F) :
  exists y,
    fold_left py_add (map (fun z => NpFloat (g z)) l) (NpFloat x) = NpFloat y.
Proof.
  revert x. induction l as [|z l IH]; intros x; cbn; [eauto|]. apply IH.
Qed.

Lemma py_truediv_np_l (y : F) (b : pynum F) :
  py_truediv (NpFloat y) b = Return (NpFloat (fdiv y (to_F b))).
Proof. reflexivity. Qed.

(** With at least one user and [k >= 1], [NDCG_at_k] never raises,
    whatever the user count: the sum is a numpy scalar, whose division
    by zero is inf or nan and a warning. *)
Theorem NDCG_at_k_never_raises :
  1 <= k -> train_user dataset <> [] ->
  exists x, NDCG_at_k model dataset k = Return (NpFloat x).
Proof.
  intros Hk Hne. rewrite NDCG_at_k_unfold by exact Hk.
  unfold keys. destruct (train_user dataset) as [|[u rel] users];
    [congruence|].
  cbn [map fold_left fst]. rewrite py_add_np.
  destruct (np_sum_is_np (gain_ratio model dataset k) (map fst users)
              (fadd (to_F (PyInt 0)) (gain_ratio model dataset k u)))
    as (y & ->).
  rewrite py_truediv_np_l. eauto.
Qed.

(** A cutoff of zero with at least one user: both [HitRatio_at_k] and
    [NDCG_at_k] divide the integer [0] by the integer [0]. *)
Theorem cutoff_zero_raises :
  train_user dataset <> [] ->
  HitRatio_at_k model dataset 0 = Raise ZeroDivisionError
  /\ NDCG_at_k model dataset 0 = Raise ZeroDivisionError.
Proof.
  intros Hne. unfold HitRatio_at_k, NDCG_at_k, keys.
  destruct (train_user dataset) as [|[u rel] users]; [congruence|].
  cbn [map for_each fst]. split.
  - assert (Hu : HitRatio_user model dataset 0 u = Raise ZeroDivisionError).
    { unfold HitRatio_user. reflexivity. }
    now rewrite Hu.
  - assert (Hu : NDCG_user model dataset 0 u = Raise ZeroDivisionError).
    { unfold NDCG_user. reflexivity. }
    now rewrite Hu.
Qed.

End Aggregates.

Lemma MAP_at_k_zero_user_count_witness :
  MAP_at_k one_item_model uncounted 1 = Raise ZeroDivisionError.
Proof.
  refine (proj2 (MAP_at_k_zero_user_count one_item_model uncounted 1 _)
            [PyFloat 1%float] _).
  - reflexivity.
  - vm_compute. reflexivity.
Defined.

Lemma HitRatio_at_k_closed_form_witness :
  HitRatio_at_k one_item_model uncounted 2
  = Return (NpFloat (np_mean (map (hit_rate one_item_model uncounted 2)
                                  (keys (train_user uncounted))))).
Proof.
  refine (proj1 (HitRatio_at_k_closed_form one_item_model uncounted 2 _)).
  discriminate.
Defined.

Lemma NDCG_at_k_never_raises_witness :
  exists x, NDCG_at_k one_item_model_x uncounted_x 1 = Return (NpFloat x).
Proof.
  apply (NDCG_at_k_never_raises one_item_model_x uncounted_x 1).
  - lia.
  - discriminate.
Defined.

Lemma cutoff_zero_raises_witness :
  NDCG_at_k one_item_model_x uncounted_x 0 = Raise ZeroDivisionError.
Proof.
  refine (proj2 (cutoff_zero_raises one_item_model_x uncounted_x _)).
  discriminate.
Defined.

(** ** The top-k list *)

Section TopK.
Context {F : Type} `{Float64 F}.

Lemma insert_by_perm (x : nat * F) (l : list (nat * F)) :
  Permutation (insert_by x l) (x :: l).
Proof.
  induction l as [|y l IH]; cbn; [reflexivity|].
  destruct (np_lt (snd y) (snd x)); [|reflexivity].
  rewrite IH. apply perm_swap.
Qed.

Lemma sort_indexed_perm (l : list (nat * F)) :
  Permutation (sort_indexed l) l.
Proof.
  unfold sort_indexed. induction l as [|x l IH]; cbn; [reflexivity|].
  rewrite insert_by_perm. now constructor.
Qed.

Lemma fst_combine_seq (a : list F) (start : nat) :
  map fst (combine (seq start (length a)) a) = seq start (length a).
Proof.
  revert start. induction a as [|x a IH]; intros start; cbn; [reflexivity|].
  now rewrite IH.
Qed.

(** [np.argsort] returns every index of the array exactly once. *)
Lemma np_argsort_perm (a : list F) :
  Permutation (np_argsort a) (map Z.of_nat (seq 0 (length a))).
Proof.
  unfold np_argsort. rewrite <- (map_map fst Z.of_nat).
  apply Permutation_map. rewrite <- (fst_combine_seq a 0) at 2.
  apply Permutation_map, sort_indexed_perm.
Qed.

Lemma in_np_argsort (a : list F) (x : Z) :
  In x (np_argsort a) <-> 0 <= x < Z.of_nat (length a).
Proof.
  split.
  - intros Hx. apply (Permutation_in _ (np_argsort_perm a)) in Hx.
    apply in_map_iff in Hx. destruct Hx as (n & <- & Hn).
    apply in_seq in Hn. lia.
  - intros Hx. apply (Permutation_in _ (Permutation_sym (np_argsort_perm a))).
    apply in_map_iff. exists (Z.to_nat x). split; [lia|].
    apply in_seq. lia.
Qed.

Lemma NoDup_np_argsort (a : list F) : NoDup (np_argsort a).
Proof.
  eapply Permutation_NoDup; [apply Permutation_sym, np_argsort_perm|].
  apply Finite.Injective_map_NoDup; [|apply seq_NoDup].
  intros m n. apply Nat2Z.inj.
Qed.

Lemma NoDup_firstn {A} (n : nat) (l : list A) : NoDup l -> NoDup (firstn n l).
Proof.
  intros Hl. rewrite <- (firstn_skipn n l) in Hl.
  eapply NoDup_app_remove_r, Hl.
Qed.

Lemma slice_to_firstn {A} (k : Z) (l : list A) :
  exists n, slice_to k l = firstn n l.
Proof. unfold slice_to. destruct (0 <=? k); eauto. Qed.

(** The top-k list names no item twice and no item outside the catalog;
    with a cutoff of at least the catalog size it names every item. *)
Theorem top_k_distinct_items (a : list F) (k : Z) :
  NoDup (top_k_of a k)
  /\ (forall x, In x (top_k_of a k) -> 0 <= x < Z.of_nat (length a))
  /\ (Z.of_nat (length a) <= k ->
      forall x, 0 <= x < Z.of_nat (length a) -> In x (top_k_of a k)).
Proof.
  unfold top_k_of. split; [|split].
  - destruct (slice_to_firstn k (rev (np_argsort a))) as (n & ->).
    apply NoDup_firstn, NoDup_rev, NoDup_np_argsort.
  - intros x Hx. apply in_slice_to, in_rev in Hx. now apply in_np_argsort.
  - intros Hk x Hx.
    rewrite slice_to_all by (rewrite length_rev, length_np_argsort; lia).
    apply -> in_rev. now apply in_np_argsort.
Qed.

(** *** Descending order, for a carrier whose sort order is a strict weak
    order *)

Hypothesis np_lt_asym : forall x y : F, np_lt x y = true -> np_lt y x = false.
Hypothesis np_lt_negtrans :
  forall x y z : F, np_lt x y = false -> np_lt y z = false -> np_lt x z = false.

Lemma insert_by_sorted (x : nat * F) (l : list (nat * F)) :
  StronglySorted ascending l -> StronglySorted ascending (insert_by x l).
Proof.
  induction l as [|y l IH]; intros Hl; cbn.
  - repeat constructor.
  - inversion Hl as [|y' l' Hsorted Hall]; subst.
    destruct (np_lt (snd y) (snd x)) eqn:Hyx.
    + constructor; [now apply IH|].
      apply Forall_forall. intros z Hz. apply in_insert_by in Hz.
      destruct Hz as [-> | Hz].
      * unfold ascending. now apply np_lt_asym.
      * eapply Forall_forall in Hall; eauto.
    + constructor; [exact Hl|]. constructor; [exact Hyx|].
      apply Forall_forall. intros z Hz.
      eapply Forall_forall in Hall; [|exact Hz].
      unfold ascending in *. eapply np_lt_negtrans; eauto.
Qed.

Lemma sort_indexed_sorted (l : list (nat * F)) :
  StronglySorted ascending (sort_indexed l).
Proof.
  unfold sort_indexed. induction l as [|x l IH]; cbn; [constructor|].
  now apply insert_by_sorted.
Qed.

Lemma StronglySorted_app {A} (R : A -> A -> Prop) (l1 l2 : list A) :
  StronglySorted R l1 -> StronglySorted R l2 ->
  (forall x y, In x l1 -> In y l2 -> R x y) ->
  StronglySorted R (l1 ++ l2).
Proof.
  induction l1 as [|x l1 IH]; intros H1 H2 H12; cbn; [exact H2|].
  inversion H1 as [|x' l' Hs Hall]; subst. constructor.
  - apply IH; [exact Hs | exact H2 | intros; apply H12; [now right|assumption]].
  - apply Forall_app. split; [exact Hall|].
    apply Forall_forall. intros y Hy. apply H12; [now left | exact Hy].
Qed.

Lemma StronglySorted_rev {A} (R : A -> A -> Prop) (l : list A) :
  StronglySorted R l -> StronglySorted (fun x y => R y x) (rev l).
Proof.
  induction 1 as [|x l Hs IH Hall]; cbn; [constructor|].
  apply StronglySorted_app; [exact IH | repeat constructor|].
  intros y z Hy [<- | []]. apply in_rev in Hy.
  eapply Forall_forall in Hall; eauto.
Qed.

Lemma StronglySorted_firstn {A} (R : A -> A -> Prop) (n : nat) (l : list A) :
  StronglySorted R l -> StronglySorted R (firstn n l).
Proof.
  intros Hl. revert n. induction Hl as [|x l Hs IH Hall]; intros [|n]; cbn;
    try constructor.
  - apply IH.
  - apply Forall_forall. intros y Hy.
    eapply Forall_forall in Hall; [exact Hall|].
    rewrite <- (firstn_skipn n l). apply in_or_app. now left.
Qed.

Lemma StronglySorted_nth {A} (R : A -> A -> Prop) (l : list A)
  (i j : nat) (x y : A) :
  StronglySorted R l -> (i < j)%nat ->
  nth_error l i = Some x -> nth_error l j = Some y -> R x y.
Proof.
  intros Hl. revert i j. induction Hl as [|z l Hs IH Hall]; intros i j Hij.
  - destruct i; discriminate.
  - destruct j as [|j]; [lia|]. destruct i as [|i]; cbn.
    + intros [= <-] Hy. eapply Forall_forall in Hall; [exact Hall|].
      eapply nth_error_In, Hy.
    + apply IH. lia.
Qed.

Lemma nth_error_map_inv {A B} (f : A -> B) (l : list A) (i : nat) (y : B) :
  nth_error (map f l) i = Some y ->
  exists x, nth_error l i = Some x /\ f x = y.
Proof.
  revert i. induction l as [|x l IH]; intros [|i]; cbn; try discriminate.
  - intros [= <-]. eauto.
  - apply IH.
Qed.

Lemma in_combine_seq (a : list F) (start : nat) (p : nat * F) :
  In p (combine (seq start (length a)) a) ->
  nth_error a (fst p - start) = Some (snd p) /\ (start <= fst p)%nat.
Proof.
  revert start. induction a as [|x a IH]; intros start; cbn; [tauto|].
  intros [<- | Hp].
  - cbn. rewrite Nat.sub_diag. split; [reflexivity | lia].
  - destruct (IH (S start) Hp) as [Hnth Hle]. split; [|lia].
    replace (fst p - start)%nat with (S (fst p - S start)) by lia.
    exact Hnth.
Qed.

(** Of two positions of the top-k list, the earlier holds an item that
    is not scored below the later one. *)
Lemma top_k_descending (a : list F) (k : Z) (i j : nat) (x y : Z)
  (sx sy : F) :
  (i < j)%nat ->
  nth_error (top_k_of a k) i = Some x ->
  nth_error (top_k_of a k) j = Some y ->
  nth_error a (Z.to_nat x) = Some sx ->
  nth_error a (Z.to_nat y) = Some sy ->
  np_lt sx sy = false.
Proof.
  intros Hij Hx Hy Hsx Hsy. unfold top_k_of, np_argsort in Hx, Hy.
  set (sorted := sort_indexed (combine (seq 0 (length a)) a)) in *.
  destruct (slice_to_firstn k (rev (map (fun p => Z.of_nat (fst p)) sorted)))
    as (n & Hn).
  rewrite Hn, <- map_rev, firstn_map in Hx, Hy.
  apply nth_error_map_inv in Hx, Hy.
  destruct Hx as (p & Hp & <-), Hy as (q & Hq & <-).
  assert (Hdesc : StronglySorted (fun p q => ascending q p)
                                 (firstn n (rev sorted))).
  { apply StronglySorted_firstn, StronglySorted_rev, sort_indexed_sorted. }
  pose proof (StronglySorted_nth _ _ _ _ _ _ Hdesc Hij Hp Hq) as Hpq.
  assert (Hin : forall r, nth_error (firstn n (rev sorted)) i = Some r \/
                          nth_error (firstn n (rev sorted)) j = Some r ->
                          nth_error a (fst r) = Some (snd r)).
  { intros r Hr.
    assert (In r sorted) as Hr'.
    { apply in_rev. rewrite <- (firstn_skipn n (rev sorted)).
      apply in_or_app. left. destruct Hr as [Hr | Hr];
        eapply nth_error_In, Hr. }
    apply (Permutation_in _ (sort_indexed_perm _)) in Hr'.
    apply in_combine_seq in Hr'. now rewrite Nat.sub_0_r in Hr'. }
  rewrite Nat2Z.id in Hsx, Hsy.
  rewrite (Hin p (or_introl Hp)) in Hsx. rewrite (Hin q (or_intror Hq)) in Hsy.
  injection Hsx as <-. injection Hsy as <-. exact Hpq.
Qed.

End TopK.

(** The sort order of the exact carrier is a strict weak order, with the
    undefined element above every real. *)
Lemma xreal_np_lt_asym (x y : xreal) : np_lt x y = true -> np_lt y x = false.
Proof.
  destruct x as [a|], y as [b|]; unfold np_lt; cbn; try congruence.
  destruct (Rlt_dec a b), (Rlt_dec b a); try reflexivity; try discriminate.
  exfalso; lra.
Qed.

Lemma xreal_np_lt_negtrans (x y z : xreal) :
  np_lt x y = false -> np_lt y z = false -> np_lt x z = false.
Proof.
  destruct x as [a|], y as [b|], z as [c|]; unfold np_lt; cbn;
    try congruence.
  destruct (Rlt_dec a b), (Rlt_dec b c), (Rlt_dec a c);
    try reflexivity; try discriminate.
  exfalso; lra.
Qed.

(** In exact arithmetic the top-k list is in descending score order: of
    two of its positions, the earlier holds an item that is not scored
    below the later one. *)
Theorem top_k_descending_exact (a : list xreal) (k : Z) (i j : nat)
  (x y : Z) (sx sy : xreal) :
  (i < j)%nat ->
  nth_error (top_k_of a k) i = Some x ->
  nth_error (top_k_of a k) j = Some y ->
  nth_error a (Z.to_nat x) = Some sx ->
  nth_error a (Z.to_nat y) = Some sy ->
  np_lt sx sy = false.
Proof.
  apply top_k_descending.
  - apply xreal_np_lt_asym.
  - apply xreal_np_lt_negtrans.
Qed.

Lemma top_k_second_is_best : top_k_of second_is_best_x 2 = [1; 0].
Proof.
  unfold top_k_of, np_argsort, second_is_best_x, sort_indexed. cbn.
  unfold np_lt. cbn.
  destruct (Rlt_dec 2 1) as [Hlt|_]; [exfalso; lra | reflexivity].
Qed.

Lemma top_k_descending_exact_witness :
  np_lt (Finite 2%R) (Finite 1%R) = false.
Proof.
  apply (top_k_descending_exact second_is_best_x 2 0 1 1 0).
  - lia.
  - now rewrite top_k_second_is_best.
  - now rewrite top_k_second_is_best.
  - reflexivity.
  - reflexivity.
Defined.

(** ** RMSE on sequences that are not parallel *)

Section RMSEShapes.
Context {F : Type} `{Float64 F} {St : Type}.
Variable model : RatingModel F St.

Lemma predict_loop_calls (pairs : list (Z * Z)) (pred : list F) (s : St) :
  predict_loop model pairs pred s
  = (pred ++ fst (calls_in_order model pairs s),
     snd (calls_in_order model pairs s)).
Proof.
  revert pred s. induction pairs as [|[u i] pairs IH]; intros pred s; cbn.
  - now rewrite app_nil_r.
  - destruct (predict model s u i) as [p s']. rewrite IH.
    destruct (calls_in_order model pairs s') as [ps s'']. cbn.
    now rewrite <- app_assoc.
Qed.

(** With its three variables bound, [rmse] asks every prediction of the
    zipped pairs and only then subtracts. *)
Lemma rmse_frame_bound (us its : list Z) (rs : list F) (s : St) :
  rmse_frame model
    {| user_indices := Some us; item_indices := Some its; ratings := Some rs |}
    s
  = (diff <- np_sub (fst (calls_in_order model (combine us its) s)) rs ;;
     Return (NpFloat (fsqrt (np_mean (np_power2 diff)))),
     snd (calls_in_order model (combine us its) s)).
Proof.
  unfold rmse_frame. cbn [load user_indices item_indices ratings].
  unfold zip. rewrite predict_loop_calls. reflexivity.
Qed.

Lemma np_sub_mismatch (a b : list F) :
  length a <> length b -> length a <> 1%nat -> length b <> 1%nat ->
  np_sub a b = Raise ValueError.
Proof.
  intros Hab Ha Hb. unfold np_sub.
  replace (length a =? length b)%nat with false
    by (symmetry; apply Nat.eqb_neq; exact Hab).
  destruct a as [|x [|x' a]], b as [|y [|y' b]]; cbn in *;
    try reflexivity; congruence.
Qed.

Lemma np_sub_scalar (a : list F) (y : F) :
  np_sub a [y] = Return (map (fun x => fsub x y) a).
Proof.
  unfold np_sub. destruct (length a =? length [y])%nat eqn:Hlen.
  - apply Nat.eqb_eq in Hlen. destruct a as [|x [|x' a]]; try discriminate.
    reflexivity.
  - destruct a as [|x [|x' a]]; reflexivity.
Qed.

(** Users and items are zipped, so the predictions are as many as the
    shorter of the two; if the true values are not as many, and neither
    count is one, all predictions are still asked of the model and the
    subtraction then raises [ValueError]. *)
Theorem rmse_shape_mismatch (dataset : Dataset F) (sp : split)
  (baseline : bool) (s : St) :
  (forall us its rs,
     knn_split dataset sp = (us, its, rs) ->
     Nat.min (length us) (length its) <> length rs ->
     Nat.min (length us) (length its) <> 1%nat -> length rs <> 1%nat ->
     rmse_knn model dataset (split_name sp) s
     = (Raise ValueError, snd (calls_in_order model (combine us its) s)))
  /\
  (forall us its rs,
     svd_split dataset sp = (us, its, rs) ->
     Nat.min (length us) (length its) <> length rs ->
     Nat.min (length us) (length its) <> 1%nat -> length rs <> 1%nat ->
     rmse_svd model dataset baseline (split_name sp) s
     = (Raise ValueError, snd (calls_in_order model (combine us its) s))).
Proof.
  split; intros us its rs Hsplit Hlen Hone Hrs;
    destruct sp; cbn in Hsplit; injection Hsplit as <- <- <-;
    (unfold rmse_knn, rmse_svd, select_knn, select_svd; cbn [split_name];
     cbn [String.eqb Ascii.eqb Bool.eqb];
     rewrite rmse_frame_bound, np_sub_mismatch;
     [reflexivity
     | now rewrite calls_in_order_length, length_combine
     | now rewrite calls_in_order_length, length_combine
     | exact Hrs]).
Qed.

(** A single true value is broadcast: every prediction is compared with
    it, and nothing is raised. *)
Theorem rmse_single_rating (dataset : Dataset F) (sp : split)
  (baseline : bool) (s : St) :
  (forall us its r,
     knn_split dataset sp = (us, its, [r]) ->
     rmse_knn model dataset (split_name sp) s
     = (Return (NpFloat (fsqrt (np_mean
                  (map (fun p => fmul (fsub p r) (fsub p r))
                       (fst (calls_in_order model (combine us its) s)))))),
        snd (calls_in_order model (combine us its) s)))
  /\
  (forall us its r,
     svd_split dataset sp = (us, its, [r]) ->
     rmse_svd model dataset baseline (split_name sp) s
     = (Return (NpFloat (fsqrt (np_mean
                  (map (fun p => fmul (fsub p r) (fsub p r))
                       (fst (calls_in_order model (combine us its) s)))))),
        snd (calls_in_order model (combine us its) s))).
Proof.
  split; intros us its r Hsplit;
    destruct sp; cbn in Hsplit; injection Hsplit as <- <- Hr;
    (unfold rmse_knn, rmse_svd, select_knn, select_svd; cbn [split_name];
     cbn [String.eqb Ascii.eqb Bool.eqb];
     rewrite rmse_frame_bound, Hr, np_sub_scalar; cbn [bind];
     unfold np_power2; now rewrite map_map).
Qed.

End RMSEShapes.

Lemma rmse_shape_mismatch_witness :
  rmse_knn one_half three_ratings "train" 0%nat = (Raise ValueError, 2%nat).
Proof.
  apply (proj1 (rmse_shape_mismatch one_half three_ratings Train false 0%nat)
           [1; 2] [3; 4] [1%float; 0%float; 1%float]).
  - reflexivity.
  - discriminate.
  - discriminate.
  - discriminate.
Defined.

Lemma rmse_single_rating_witness :
  rmse_knn one_half three_ratings "test" 0%nat
  = (Return (NpFloat 0.5%float), 2%nat).
Proof.
  refine (eq_trans
            (proj1 (rmse_single_rating one_half three_ratings Test false
                      0%nat) [1; 2] [3; 4] 1%float _) _).
  - reflexivity.
  - vm_compute. reflexivity.
Defined.

(** ** Exact arithmetic: sums and means of bounded values *)

Lemma xsum_within (lo hi : R) (l : list xreal) (r0 : R) :
  Forall (within lo hi) l ->
  exists r,
    fold_left fadd l (Finite r0) = Finite r
    /\ (r0 + lo * INR (length l) <= r <= r0 + hi * INR (length l))%R.
Proof.
  revert r0. induction l as [|x l IH]; intros r0 Hl.
  - exists r0. cbn. split; [reflexivity | lra].
  - inversion Hl as [|x' l' (a & -> & Ha) Hall]; subst.
    cbn [fold_left].
    change (fadd (Finite r0) (Finite a)) with (Finite (r0 + a)).
    destruct (IH (r0 + a)%R Hall) as (r & -> & Hr).
    exists r. split; [reflexivity|].
    change (length (Finite a :: l)) with (S (length l)). rewrite S_INR. lra.
Qed.

(** The numpy mean of values within two bounds lies within them. *)
Lemma xmean_within (lo hi : R) (l : list xreal) :
  l <> [] -> Forall (within lo hi) l -> within lo hi (np_mean l).
Proof.
  intros Hne Hl. rewrite np_mean_nonempty by exact Hne. unfold np_sum.
  destruct (xsum_within lo hi l (IZR 0) Hl) as (r & Hsum & Hr).
  change (of_Z 0) with (Finite (IZR 0)). rewrite Hsum.
  assert (Hn : (0 < INR (length l))%R).
  { apply lt_0_INR. destruct l; [congruence | cbn; lia]. }
  change (of_Z (Z.of_nat (length l))) with (Finite (IZR (Z.of_nat (length l)))).
  rewrite <- INR_IZR_INZ. cbn [fdiv Float64_xreal xdiv].
  destruct (Req_dec_T (INR (length l)) 0) as [Hz|_]; [exfalso; lra|].
  exists (r / INR (length l))%R. split; [reflexivity|].
  split.
  - apply Rmult_le_reg_r with (INR (length l)); [exact Hn|].
    unfold Rdiv. rewrite Rmult_assoc, Rinv_l by lra. lra.
  - apply Rmult_le_reg_r with (INR (length l)); [exact Hn|].
    unfold Rdiv. rewrite Rmult_assoc, Rinv_l by lra. lra.
Qed.

Lemma within_point (c : R) (x : xreal) : within c c x -> x = Finite c.
Proof. intros (r & -> & Hr). f_equal. lra. Qed.

(** ** RMSE of perfect predictions *)

Section RMSEPerfect.
Context {St : Type}.
Variable model : RatingModel xreal St.

Lemma rmse_frame_perfect (us its : list Z) (rs : list xreal) (s : St) :
  rs <> [] -> Forall finite rs ->
  fst (calls_in_order model (combine us its) s) = rs ->
  rmse_frame model
    {| user_indices := Some us; item_indices := Some its; ratings := Some rs |}
    s
  = (Return (NpFloat (Finite 0)), snd (calls_in_order model (combine us its) s)).
Proof.
  intros Hne Hfin Hpred. rewrite rmse_frame_bound, Hpred.
  rewrite np_sub_parallel by reflexivity. cbn [bind]. f_equal. f_equal. f_equal.
  unfold np_power2. rewrite map_map.
  assert (Hzero : Forall (within 0 0)
            (map (fun p : xreal * xreal =>
                    fmul (fsub (fst p) (snd p)) (fsub (fst p) (snd p)))
                 (combine rs rs))).
  { clear Hne Hpred. induction Hfin as [|x l (r & ->) _ IH]; cbn [combine map];
      constructor; [|exact IH].
    exists ((r - r) * (r - r))%R. split; [reflexivity | lra]. }
  apply xmean_within in Hzero.
  - apply within_point in Hzero. rewrite Hzero. cbn.
    destruct (Rle_dec 0 0) as [_|Hn]; [|exfalso; lra].
    now rewrite sqrt_0.
  - destruct rs; [congruence | discriminate].
Qed.

(** When every prediction equals the true value, a real number, the
    RMSE is exactly zero. *)
Theorem rmse_perfect_predictions (dataset : Dataset xreal) (sp : split)
  (baseline : bool) (s : St) :
  (forall us its rs,
     knn_split dataset sp = (us, its, rs) ->
     rs <> [] -> Forall finite rs ->
     fst (calls_in_order model (combine us its) s) = rs ->
     rmse_knn model dataset (split_name sp) s
     = (Return (NpFloat (Finite 0)),
        snd (calls_in_order model (combine us its) s)))
  /\
  (forall us its rs,
     svd_split dataset sp = (us, its, rs) ->
     rs <> [] -> Forall finite rs ->
     fst (calls_in_order model (combine us its) s) = rs ->
     rmse_svd model dataset baseline (split_name sp) s
     = (Return (NpFloat (Finite 0)),
        snd (calls_in_order model (combine us its) s))).
Proof.
  split; intros us its rs Hsplit Hne Hfin Hpred;
    destruct sp; cbn in Hsplit; injection Hsplit as <- <- <-;
    now apply rmse_frame_perfect.
Qed.

End RMSEPerfect.

Lemma rmse_perfect_predictions_witness :
  rmse_knn echo_x echoed_x "train" tt = (Return (NpFloat (Finite 0)), tt).
Proof.
  apply (proj1 (rmse_perfect_predictions echo_x echoed_x Train false tt)
           [1; 2] [0; 0] [Finite 1%R; Finite 2%R]).
  - reflexivity.
  - discriminate.
  - repeat constructor; eexists; reflexivity.
  - reflexivity.
Defined.

(** ** Hit ratio in exact arithmetic *)

Lemma count_in_fold_bounds (rel l : list Z) (c : Z) :
  c <= fold_left (fun c x => if contains rel x then c + 1 else c) l c
    <= c + Z.of_nat (length l).
Proof.
  revert c. induction l as [|x l IH]; intros c; cbn [fold_left length].
  - lia.
  - destruct (contains rel x).
    + specialize (IH (c + 1)). lia.
    + specialize (IH c). lia.
Qed.

Lemma count_in_bounds (rel l : list Z) :
  0 <= count_in rel l <= Z.of_nat (length l).
Proof. unfold count_in. pose proof (count_in_fold_bounds rel l 0). lia. Qed.

Lemma count_in_fold_all (rel l : list Z) (c : Z) :
  (forall x, In x l -> contains rel x = true) ->
  fold_left (fun c x => if contains rel x then c + 1 else c) l c
  = c + Z.of_nat (length l).
Proof.
  revert c. induction l as [|x l IH]; intros c Hl; cbn [fold_left length].
  - lia.
  - rewrite (Hl x) by now left.
    rewrite IH by (intros y Hy; apply Hl; now right). lia.
Qed.

Lemma count_in_all (rel l : list Z) :
  (forall x, In x l -> contains rel x = true) ->
  count_in rel l = Z.of_nat (length l).
Proof. intros Hl. unfold count_in. now rewrite count_in_fold_all. Qed.

(** A quotient of integers [0 <= c <= k], [k >= 1], over the exact
    carrier. *)
Lemma xdiv_int_unit (c k : Z) :
  0 <= c <= k -> 1 <= k ->
  within 0 1 (fdiv (of_Z c) (of_Z k)).
Proof.
  intros Hc Hk. cbn.
  assert (Hk' : (0 < IZR k)%R) by (apply IZR_lt; lia).
  assert (Hc0 : (0 <= IZR c)%R) by (apply IZR_le; lia).
  assert (Hck : (IZR c <= IZR k)%R) by (apply IZR_le; lia).
  destruct (Req_dec_T (IZR k) 0) as [Hz|_]; [exfalso; lra|].
  exists (IZR c / IZR k)%R. split; [reflexivity|]. split.
  - apply Rmult_le_reg_r with (IZR k); [exact Hk'|].
    unfold Rdiv. rewrite Rmult_assoc, Rinv_l by lra. lra.
  - apply Rmult_le_reg_r with (IZR k); [exact Hk'|].
    unfold Rdiv. rewrite Rmult_assoc, Rinv_l by lra. lra.
Qed.

Section HitRatioExact.
Variables (model : RankModel xreal) (dataset : Dataset xreal) (k : Z).
Hypothesis Hk : 1 <= k.
Hypothesis Husers : train_user dataset <> [].

Lemma hit_rate_unit (u : Z) : within 0 1 (hit_rate model dataset k u).
Proof.
  unfold hit_rate. apply xdiv_int_unit; [|exact Hk].
  pose proof (count_in_bounds (relevant_of dataset u)
                (top_k_of (predict_user model u) k)) as Hc.
  pose proof (length_top_k_of (predict_user model u) k ltac:(lia)). lia.
Qed.

(** The hit ratio is a real number between 0 and 1. *)
Theorem HitRatio_at_k_unit_interval :
  exists h, HitRatio_at_k model dataset k = Return (NpFloat (Finite h))
            /\ (0 <= h <= 1)%R.
Proof.
  rewrite HitRatio_at_k_map by lia.
  destruct (xmean_within 0 1 (map (hit_rate model dataset k)
                                  (keys (train_user dataset))))
    as (h & Hh & Hbounds).
  - unfold keys. destruct (train_user dataset); [congruence | discriminate].
  - apply Forall_forall. intros x Hx. apply in_map_iff in Hx.
    destruct Hx as (u & <- & _). apply hit_rate_unit.
  - exists h. now rewrite Hh.
Qed.

(** Every user has [k] items in the top-k list and all are relevant:
    the hit ratio is exactly 1. *)
Theorem HitRatio_at_k_best_case :
  (forall u rel,
     In u (keys (train_user dataset)) ->
     dict_get (train_user dataset) u = Return rel ->
     k <= Z.of_nat (length (predict_user model u))
     /\ forall x, In x (top_k_of (predict_user model u) k) ->
                  contains rel x = true) ->
  HitRatio_at_k model dataset k = Return (NpFloat (Finite 1)).
Proof.
  intros Hbest. rewrite HitRatio_at_k_map by lia.
  f_equal. f_equal. apply within_point, xmean_within.
  - unfold keys. destruct (train_user dataset); [congruence | discriminate].
  - apply Forall_forall. intros x Hx. apply in_map_iff in Hx.
    destruct Hx as (u & <- & Hu).
    destruct (Hbest u (relevant_of dataset u) Hu (relevant_of_key _ _ Hu))
      as [Hlen Hall].
    unfold hit_rate. rewrite count_in_all by exact Hall.
    rewrite length_top_k_of by lia.
    replace (Z.of_nat (Nat.min (Z.to_nat k) (length (predict_user model u))))
      with k by lia.
    change (fdiv (of_Z k) (of_Z k)) with (xdiv (Finite (IZR k)) (Finite (IZR k))).
    rewrite xdiv_self.
    + exists 1%R. split; [reflexivity | lra].
    + apply not_0_IZR. lia.
Qed.

End HitRatioExact.

Lemma HitRatio_at_k_unit_interval_witness :
  exists h, HitRatio_at_k one_item_model_x uncounted_x 2
            = Return (NpFloat (Finite h)) /\ (0 <= h <= 1)%R.
Proof.
  apply (HitRatio_at_k_unit_interval one_item_model_x uncounted_x 2).
  - lia.
  - discriminate.
Defined.

Lemma HitRatio_at_k_best_case_witness :
  HitRatio_at_k one_item_model_x likes_only_item 1
  = Return (NpFloat (Finite 1)).
Proof.
  apply (HitRatio_at_k_best_case one_item_model_x likes_only_item 1).
  - lia.
  - discriminate.
  - intros u rel [<- | []] [= <-]. split; [cbn; lia|].
    intros x [<- | []]. reflexivity.
Defined.

(** ** Average precision in exact arithmetic *)

(** A loop over [range(a, b)] that keeps an invariant and never raises. *)
Lemma for_each_range_inv {S} (body : S -> Z -> outcome S)
  (I : Z -> S -> Prop) (a b : Z) (s : S) :
  a <= b -> I a s ->
  (forall i t, a <= i < b -> I i t ->
               exists t', body t i = Return t' /\ I (i + 1) t') ->
  exists t, for_each body (range a b) s = Return t /\ I b t.
Proof.
  intros Hab. remember (Z.to_nat (b - a)) as n eqn:Hn.
  revert a s Hab Hn. induction n as [|n IH]; intros a s Hab Hn Hs Hstep.
  - rewrite range_nil by lia. replace b with a by lia. cbn. eauto.
  - rewrite range_cons by lia. cbn [for_each].
    destruct (Hstep a s ltac:(lia) Hs) as (t' & -> & Ht'). cbn [bind].
    apply IH; [lia | lia | exact Ht'|].
    intros i t Hi. apply Hstep. lia.
Qed.

Lemma plain_add_float {F : Type} `{Float64 F} (p : pynum F) (q : F) :
  plain p -> py_add p (PyFloat q) = PyFloat (fadd (to_F p) q).
Proof. destruct p; cbn; intros Hp; [reflexivity | reflexivity | discriminate]. Qed.

Lemma plain_truediv_int {F : Type} `{Float64 F} (p : pynum F) (c : Z) :
  plain p -> c <> 0 ->
  py_truediv p (PyInt c) = Return (PyFloat (fdiv (to_F p) (of_Z c))).
Proof.
  unfold plain, py_truediv. intros -> Hc. cbn.
  now replace (c =? 0) with false by (symmetry; apply Z.eqb_neq; exact Hc).
Qed.

Lemma xdiv_unit (r c : R) :
  (0 <= r <= c)%R -> (0 < c)%R -> within 0 1 (xdiv (Finite r) (Finite c)).
Proof.
  intros Hr Hc. cbn. destruct (Req_dec_T c 0) as [Hz|_]; [exfalso; lra|].
  exists (r / c)%R. split; [reflexivity|]. split.
  - apply Rmult_le_reg_r with c; [exact Hc|].
    unfold Rdiv. rewrite Rmult_assoc, Rinv_l by lra. lra.
  - apply Rmult_le_reg_r with c; [exact Hc|].
    unfold Rdiv. rewrite Rmult_assoc, Rinv_l by lra. lra.
Qed.

Section APExact.
Variables (model : RankModel xreal) (dataset : Dataset xreal) (u k : Z).
Variable rel : list Z.
Hypothesis Hrel : dict_get (train_user dataset) u = Return rel.
Let top_k := top_k_of (predict_user model u) k.

(** The running sum of precisions is a real between zero and the
    relevant-count. *)
Lemma AP_loop_bounded :
  1 <= k -> k <= Z.of_nat (length (predict_user model u)) ->
  exists p c,
    for_each (AP_body top_k dataset u) (range 1 (k + 1)) (PyInt 0, 0)
    = Return (p, c)
    /\ plain p /\ 0 <= c
    /\ exists r, to_F p = Finite r /\ (0 <= r <= IZR c)%R.
Proof.
  intros Hk Hlen.
  destruct (for_each_range_inv (AP_body top_k dataset u)
              (fun _ t => plain (fst t) /\ 0 <= snd t
                          /\ exists r, to_F (fst t) = Finite r
                                       /\ (0 <= r <= IZR (snd t))%R)
              1 (k + 1) (PyInt 0, 0)) as ([p c] & Hloop & Hinv).
  - lia.
  - cbn. repeat split; try lia. exists 0%R. split; [reflexivity | lra].
  - intros i [p c] Hi (Hp & Hc & r & Hr & Hbounds). cbn [fst snd] in *.
    destruct (top_k_access model u k i) as (x & Hx & _); [lia | lia|].
    fold top_k in Hx.
    unfold AP_body. rewrite Hx, Hrel. cbn [bind].
    destruct (contains rel x).
    + rewrite int_truediv_int by lia. cbn [bind].
      eexists. split; [reflexivity|]. cbn [fst snd].
      rewrite plain_add_float by exact Hp.
      destruct (xdiv_int_unit (count_in rel (slice_to i top_k)) i)
        as (q & Hq & Hqb).
      * pose proof (count_in_bounds rel (slice_to i top_k)).
        pose proof (length_slice_to i top_k ltac:(lia)). lia.
      * lia.
      * rewrite Hq, Hr. repeat split; [lia|].
        exists (r + q)%R. split; [reflexivity|]. rewrite plus_IZR. lra.
    + eexists. split; [reflexivity|]. cbn [fst snd]. eauto 10.
  - exists p, c. split; [exact Hloop | exact Hinv].
Qed.

Lemma AP_at_k_bounded :
  k <= Z.of_nat (length (predict_user model u)) ->
  unit_float_result (AP_at_k model dataset u k).
Proof.
  unfold unit_float_result.
  intros Hlen. destruct (Z_lt_le_dec k 1) as [Hsmall | Hk].
  - unfold AP_at_k. rewrite range_nil by lia.
    exists 0%R. split; [reflexivity | lra].
  - destruct (AP_loop_bounded Hk Hlen)
      as (p & c & Hloop & Hp & Hc & r & Hr & Hb).
    unfold AP_at_k. fold top_k. rewrite Hloop. cbn [bind].
    destruct (Z.eq_dec c 0) as [-> | Hc0].
    + rewrite plain_truediv_zero by exact Hp.
      exists 0%R. split; [reflexivity | lra].
    + rewrite plain_truediv_int by assumption. rewrite Hr.
      destruct (xdiv_unit r (IZR c)) as (a & Ha & Hab);
        [exact Hb | apply IZR_lt; lia|].
      change (fdiv (Finite r) (of_Z c)) with (xdiv (Finite r) (Finite (IZR c))).
      rewrite Ha. eauto.
Qed.

(** For a known user and a vector of at least [k] scores, [AP_at_k]
    returns a real number between 0 and 1. *)
Theorem AP_at_k_unit_interval :
  k <= Z.of_nat (length (predict_user model u)) ->
  exists a, AP_at_k model dataset u k = Return (PyFloat (Finite a))
            /\ (0 <= a <= 1)%R.
Proof. intros Hlen. exact (AP_at_k_bounded Hlen). Qed.

(** Every position of the top-k list relevant: the average precision is
    exactly 1. *)
Theorem AP_at_k_best_case :
  1 <= k ->
  (forall n, 0 <= n < k ->
     exists item, np_index top_k n = Return item
                  /\ contains rel item = true) ->
  AP_at_k model dataset u k = Return (PyFloat (Finite 1)).
Proof.
  intros Hk Hpos.
  destruct (all_positions_relevant rel (predict_user model u) k Hk Hpos)
    as [Hlen Hall]. fold top_k in Hlen, Hall.
  destruct (for_each_range_inv (AP_body top_k dataset u)
              (fun i t => plain (fst t) /\ snd t = i - 1
                          /\ to_F (fst t) = Finite (IZR (i - 1)))
              1 (k + 1) (PyInt 0, 0)) as ([p c] & Hloop & Hp & Hc & Hr).
  - lia.
  - cbn. repeat split.
  - intros i [p c] Hi (Hp & Hc & Hr). cbn [fst snd] in *.
    destruct (Hpos (i - 1)) as (x & Hx & Hxrel); [lia|].
    unfold AP_body. rewrite Hx, Hrel. cbn [bind]. rewrite Hxrel.
    rewrite int_truediv_int by lia. cbn [bind].
    eexists. split; [reflexivity|]. cbn [fst snd].
    rewrite plain_add_float by exact Hp. repeat split; [lia|].
    cbn [to_F]. rewrite Hr.
    rewrite count_in_all
      by (intros y Hy; apply Hall; eapply in_slice_to, Hy).
    rewrite length_slice_to by lia.
    replace (Z.of_nat (Nat.min (Z.to_nat i) (length top_k))) with i by lia.
    change (fdiv (of_Z i) (of_Z i)) with (xdiv (Finite (IZR i)) (Finite (IZR i))).
    rewrite xdiv_self by (apply not_0_IZR; lia).
    change (fadd (Finite (IZR (i - 1))) (Finite 1))
      with (Finite (IZR (i - 1) + 1)).
    f_equal. replace (i + 1 - 1) with (i - 1 + 1) by lia.
    now rewrite plus_IZR.
  - cbn [fst snd] in *. unfold AP_at_k. fold top_k. rewrite Hloop.
    cbn [bind]. rewrite plain_truediv_int by (try assumption; lia).
    rewrite Hr, Hc. replace (k + 1 - 1) with k by lia.
    change (fdiv (Finite (IZR k)) (of_Z k))
      with (xdiv (Finite (IZR k)) (Finite (IZR k))).
    now rewrite xdiv_self by (apply not_0_IZR; lia).
Qed.

End APExact.

Lemma AP_at_k_unit_interval_witness :
  exists a, AP_at_k one_item_model_x likes_only_item 7 1
            = Return (PyFloat (Finite a)) /\ (0 <= a <= 1)%R.
Proof.
  apply (AP_at_k_unit_interval one_item_model_x likes_only_item 7 1 [0]).
  - reflexivity.
  - cbn. lia.
Defined.

Lemma AP_at_k_best_case_witness :
  AP_at_k one_item_model_x likes_only_item 7 1 = Return (PyFloat (Finite 1)).
Proof.
  apply (AP_at_k_best_case one_item_model_x likes_only_item 7 1 [0]).
  - reflexivity.
  - lia.
  - intros n Hn. assert (n = 0) as -> by lia.
    exists 0. split; reflexivity.
Defined.

(** ** NDCG as a sum over the user count, and its range *)

Section NDCGMean.
Context {F : Type} `{Float64Log F}.
Variables (model : RankModel F) (dataset : Dataset F) (k : Z).

Lemma np_fold_sum {A} (g : A -> F) (l : list A) (x : F) :
  fold_left py_add (map (fun z => NpFloat (g z)) l) (NpFloat x)
  = NpFloat (fold_left fadd (map g l) x).
Proof.
  revert x. induction l as [|z l IH]; intros x; cbn; [reflexivity|]. apply IH.
Qed.

(** The loop of [NDCG_at_k] adds the per-user ratios from the left,
    starting from the integer [0]; the sum, a numpy scalar from the first
    user on, is divided by the user count. *)
Lemma NDCG_at_k_sum :
  1 <= k -> train_user dataset <> [] ->
  NDCG_at_k model dataset k
  = Return (NpFloat
              (fdiv (fold_left fadd
                       (map (gain_ratio model dataset k)
                            (keys (train_user dataset)))
                       (of_Z 0))
                    (of_Z (n_users dataset)))).
Proof.
  intros Hk Hne. rewrite NDCG_at_k_unfold by exact Hk.
  unfold keys in *. destruct (train_user dataset) as [|[u rel] users];
    [congruence|].
  cbn [map fold_left fst]. rewrite py_add_np, np_fold_sum.
  rewrite py_truediv_np_l. reflexivity.
Qed.

(** For [k >= 1] and at least one user, whatever the user count: the
    value of [NDCG_at_k] is the sum of the per-user ratios of gain to
    ideal gain, added one by one from the left to [0] as [+=] does, over
    [n_users].  The denominator is [n_users], not the number of ratios
    added. *)
Theorem NDCG_at_k_left_sum :
  1 <= k -> train_user dataset <> [] ->
  NDCG_at_k model dataset k
  = Return (NpFloat
              (fdiv (fold_left fadd
                       (map (gain_ratio model dataset k)
                            (keys (train_user dataset)))
                       (of_Z 0))
                    (of_Z (n_users dataset)))).
Proof. intros Hk Hne. exact (NDCG_at_k_sum Hk Hne). Qed.

End NDCGMean.

(** In exact arithmetic, where the order of the additions is immaterial,
    and with a user count that is the number of users, this is the mean
    of the per-user ratios. *)
Lemma NDCG_at_k_mean
  (model : RankModel xreal) (dataset : Dataset xreal) (k : Z) :
  1 <= k -> train_user dataset <> [] ->
  n_users dataset = Z.of_nat (length (keys (train_user dataset))) ->
  NDCG_at_k model dataset k
  = Return (NpFloat (np_mean (map (gain_ratio model dataset k)
                                  (keys (train_user dataset))))).
Proof.
  intros Hk Hne Hn. rewrite NDCG_at_k_sum, Hn by assumption.
  unfold keys in *. destruct (train_user dataset) as [|[u rel] users];
    [congruence|].
  cbn [map np_mean np_sum length]. now rewrite !length_map.
Qed.

Lemma combine_app_l {A B} (l1 l2 : list A) (l : list B) :
  length l1 = length l -> combine (l1 ++ l2) l = combine l1 l.
Proof.
  revert l. induction l1 as [|x l1 IH]; intros [|y l] Hlen; try discriminate.
  - now destruct l2.
  - cbn. f_equal. apply IH. now injection Hlen.
Qed.

Section NDCGExact.
Variable rel : list Z.

Lemma discount_exact (n : Z) :
  0 <= n ->
  discount (F:=xreal) n = NpFloat (Finite (discount_real n))
  /\ (0 < discount_real n)%R.
Proof.
  intros Hn. unfold discount_real.
  assert (Hx : (1 < IZR (n + 2))%R) by (apply IZR_lt; lia).
  assert (Hl : (0 < ln (IZR (n + 2)) / ln 2)%R).
  { apply Rdiv_lt_0_compat; apply ln_pos; lra. }
  split.
  - unfold discount. cbn.
    destruct (Rlt_dec 0 (IZR (n + 2))) as [_|Hneg]; [|exfalso; lra].
    cbn. destruct (Req_dec_T (ln (IZR (n + 2)) / ln 2) 0) as [Heq|_];
      [exfalso; lra | reflexivity].
  - apply Rdiv_lt_0_compat; lra.
Qed.

Lemma add_discount (acc : pynum xreal) (a : R) (n : Z) :
  to_F acc = Finite a -> 0 <= n ->
  py_add acc (discount n) = NpFloat (Finite (a + discount_real n)).
Proof.
  intros Ha Hn. destruct (discount_exact n Hn) as [-> _].
  rewrite py_add_np, Ha. reflexivity.
Qed.

Lemma IDCG_fold_grows (ns : list Z) (acc : pynum xreal) (i : R) :
  (forall n, In n ns -> 0 <= n) -> to_F acc = Finite i ->
  exists i',
    to_F (fold_left (fun IDCG n => py_add IDCG (discount n)) ns acc) = Finite i'
    /\ (i <= i')%R.
Proof.
  revert acc i. induction ns as [|n ns IH]; intros acc i Hns Hacc;
    cbn [fold_left].
  - exists i. split; [exact Hacc | lra].
  - assert (Hn : 0 <= n) by (apply Hns; now left).
    rewrite (add_discount acc i n Hacc Hn).
    destruct (discount_exact n Hn) as [_ Hd].
    destruct (IH (NpFloat (Finite (i + discount_real n)))
                 (i + discount_real n)%R) as (i' & Hi' & Hle).
    + intros m Hm. apply Hns. now right.
    + reflexivity.
    + exists i'. split; [exact Hi' | lra].
Qed.

(** Position by position, the gain stays below the ideal gain. *)
Lemma DCG_below_IDCG (ns items : list Z) (accD accI : pynum xreal) (d i : R) :
  (forall n, In n ns -> 0 <= n) ->
  to_F accD = Finite d -> to_F accI = Finite i -> (0 <= d <= i)%R ->
  exists d' i',
    to_F (fold_left (fun DCG (p : Z * Z) =>
                       if contains rel (snd p)
                       then py_add DCG (discount (fst p)) else DCG)
                    (combine ns items) accD) = Finite d'
    /\ to_F (fold_left (fun IDCG n => py_add IDCG (discount n)) ns accI)
       = Finite i'
    /\ (0 <= d' <= i')%R.
Proof.
  revert items accD accI d i.
  induction ns as [|n ns IH]; intros items accD accI d i Hns HD HI Hdi.
  - exists d, i. cbn. auto.
  - destruct items as [|x items].
    + destruct (IDCG_fold_grows (n :: ns) accI i Hns HI) as (i' & Hi' & Hle).
      exists d, i'. cbn [combine fold_left] in *. repeat split; auto; lra.
    + cbn [combine fold_left fst snd].
      assert (Hn : 0 <= n) by (apply Hns; now left).
      assert (Hns' : forall m, In m ns -> 0 <= m)
        by (intros m Hm; apply Hns; now right).
      destruct (discount_exact n Hn) as [_ Hd].
      rewrite (add_discount accI i n HI Hn).
      destruct (contains rel x).
      * rewrite (add_discount accD d n HD Hn).
        apply (IH items _ _ (d + discount_real n)%R (i + discount_real n)%R);
          auto; lra.
      * apply (IH items _ _ d (i + discount_real n)%R); auto; lra.
Qed.

End NDCGExact.

Section NDCGRange.
Variables (model : RankModel xreal) (dataset : Dataset xreal) (k : Z).
Hypothesis Hk : 1 <= k.

(** The ratio of gain to ideal gain of a user lies between 0 and 1,
    whatever the length of the score vector. *)
Lemma gain_ratio_unit (u : Z) : within 0 1 (gain_ratio model dataset k u).
Proof.
  unfold gain_ratio.
  set (top_k := top_k_of (predict_user model u) k).
  set (rel := relevant_of dataset u).
  assert (Hlen : Z.of_nat (length top_k) <= k).
  { unfold top_k. rewrite length_top_k_of by lia. lia. }
  assert (Henum : enumerate top_k = combine (range 0 k) top_k).
  { unfold enumerate.
    rewrite (range_app 0 (Z.of_nat (length top_k)) k) by lia.
    rewrite combine_app_l; [reflexivity|]. rewrite length_range. lia. }
  destruct (DCG_below_IDCG rel (range 0 k) top_k (PyInt 0) (PyInt 0) 0 0)
    as (d & i & Hd & Hi & Hdi).
  - intros n Hn. apply in_range in Hn. lia.
  - reflexivity.
  - reflexivity.
  - lra.
  - unfold DCG_of. rewrite Henum, Hd.
    destruct (IDCG_positive k Hk) as (r & Hr & Hpos).
    unfold IDCG_of in Hr |- *. rewrite Hr in Hi |- *. cbn [to_F] in Hi |- *.
    injection Hi as <-.
    change (fdiv (Finite d) (Finite r)) with (xdiv (Finite d) (Finite r)).
    apply xdiv_unit; lra.
Qed.

(** With at least one user and a user count that is the number of
    users, [NDCG_at_k] returns a real number between 0 and 1. *)
Theorem NDCG_at_k_unit_interval :
  train_user dataset <> [] ->
  n_users dataset = Z.of_nat (length (keys (train_user dataset))) ->
  exists v, NDCG_at_k model dataset k = Return (NpFloat (Finite v))
            /\ (0 <= v <= 1)%R.
Proof.
  intros Hne Hn. rewrite NDCG_at_k_mean by assumption.
  destruct (xmean_within 0 1 (map (gain_ratio model dataset k)
                                  (keys (train_user dataset))))
    as (v & Hv & Hb).
  - unfold keys. destruct (train_user dataset); [congruence | discriminate].
  - apply Forall_forall. intros x Hx. apply in_map_iff in Hx.
    destruct Hx as (u & <- & _). apply gain_ratio_unit.
  - exists v. now rewrite Hv.
Qed.

End NDCGRange.

Lemma NDCG_at_k_left_sum_witness :
  NDCG_at_k (H0 := libm log_exact log2_exact) two_item_model both_like_first 1
  = Return (NpFloat
              (fdiv (fold_left fadd
                       (map (gain_ratio (H0 := libm log_exact log2_exact)
                               two_item_model both_like_first 1)
                            (keys (train_user both_like_first)))
                       (of_Z 0))
                    (of_Z (n_users both_like_first)))).
Proof.
  apply (NDCG_at_k_left_sum (H0 := libm log_exact log2_exact)
           two_item_model both_like_first 1).
  - lia.
  - discriminate.
Defined.

Lemma NDCG_at_k_unit_interval_witness :
  exists v, NDCG_at_k one_item_model_x likes_only_item 2
            = Return (NpFloat (Finite v)) /\ (0 <= v <= 1)%R.
Proof.
  apply (NDCG_at_k_unit_interval one_item_model_x likes_only_item 2).
  - lia.
  - discriminate.
  - reflexivity.
Defined.

(** ** Mean average precision in exact arithmetic *)

Lemma map_outcome_exists {A B} (P : B -> Prop) (f : A -> outcome B)
  (l : list A) :
  (forall x, In x l -> exists y, f x = Return y /\ P y) ->
  exists ys, map_outcome f l = Return ys /\ Forall P ys
             /\ length ys = length l.
Proof.
  induction l as [|x l IH]; intros Hl; cbn.
  - exists []. repeat split. constructor.
  - destruct (Hl x (or_introl eq_refl)) as (y & -> & Hy).
    destruct IH as (ys & -> & Hys & Hlen);
      [intros z Hz; apply Hl; now right|].
    exists (y :: ys). cbn. repeat split; [now constructor | now rewrite Hlen].
Qed.

Lemma py_sum_unit_floats (ys : list (pynum xreal)) (acc : pynum xreal) (r0 : R) :
  plain acc -> to_F acc = Finite r0 -> Forall unit_float ys ->
  plain (fold_left py_add ys acc)
  /\ exists r, to_F (fold_left py_add ys acc) = Finite r
               /\ (r0 <= r <= r0 + INR (length ys))%R.
Proof.
  revert acc r0. induction ys as [|y ys IH]; intros acc r0 Hp Hacc Hys.
  - cbn. split; [exact Hp|]. exists r0. split; [exact Hacc | lra].
  - inversion Hys as [|y' ys' (a & -> & Ha) Hall]; subst.
    cbn [fold_left]. rewrite plain_add_float by exact Hp. rewrite Hacc.
    change (fadd (Finite r0) (Finite a)) with (Finite (r0 + a)).
    destruct (IH (PyFloat (Finite (r0 + a))) (r0 + a)%R) as (Hplain & r & Hr & Hb);
      [reflexivity | reflexivity | exact Hall|].
    split; [exact Hplain|]. exists r. split; [exact Hr|].
    change (length (PyFloat (Finite a) :: ys)) with (S (length ys)).
    rewrite S_INR. lra.
Qed.

(** With at least one user, a user count that is the number of users
    and score vectors of at least [k] scores, [MAP_at_k] returns a real
    number between 0 and 1. *)
Theorem MAP_at_k_unit_interval
  (model : RankModel xreal) (dataset : Dataset xreal) (k : Z) :
  train_user dataset <> [] ->
  n_users dataset = Z.of_nat (length (keys (train_user dataset))) ->
  (forall u, In u (keys (train_user dataset)) ->
             k <= Z.of_nat (length (predict_user model u))) ->
  exists m, MAP_at_k model dataset k = Return (PyFloat (Finite m))
            /\ (0 <= m <= 1)%R.
Proof.
  intros Hne Hn Hlen. rewrite MAP_at_k_unfold.
  destruct (map_outcome_exists unit_float
              (fun u => AP_at_k model dataset u k)
              (keys (train_user dataset))) as (aps & -> & Haps & Hcount).
  { intros u Hu.
    destruct (AP_at_k_bounded model dataset u k
                (relevant_of dataset u) (relevant_of_key _ _ Hu) (Hlen u Hu))
      as (a & -> & Ha).
    eexists. split; [reflexivity|]. now exists a. }
  cbn [bind].
  destruct (py_sum_unit_floats aps (PyInt 0) 0 eq_refl eq_refl Haps)
    as (Hplain & r & Hr & Hb).
  assert (Hpos : (0 < INR (length aps))%R).
  { apply lt_0_INR. rewrite Hcount. unfold keys. rewrite length_map.
    destruct (train_user dataset); [congruence | cbn; lia]. }
  rewrite plain_truediv_int.
  - rewrite Hr, Hn, <- Hcount.
    change (fdiv (Finite r) (of_Z (Z.of_nat (length aps))))
      with (xdiv (Finite r) (Finite (IZR (Z.of_nat (length aps))))).
    rewrite <- INR_IZR_INZ.
    destruct (xdiv_unit r (INR (length aps))) as (m & -> & Hm);
      [lra | exact Hpos|].
    now exists m.
  - exact Hplain.
  - rewrite Hn, <- Hcount. intros Hz.
    apply (f_equal IZR) in Hz. rewrite <- INR_IZR_INZ in Hz. lra.
Qed.

Lemma MAP_at_k_unit_interval_witness :
  exists m, MAP_at_k one_item_model_x likes_only_item 1
            = Return (PyFloat (Finite m)) /\ (0 <= m <= 1)%R.
Proof.
  apply (MAP_at_k_unit_interval one_item_model_x likes_only_item 1).
  - discriminate.
  - reflexivity.
  - intros u [<- | []]. cbn. lia.
Defined.

(** ** Cross-entropy: truncation and sign *)

Lemma firstn_min_l {A} (l : list A) (n : nat) :
  (length l <= n)%nat -> firstn n l = l.
Proof. apply firstn_all2. Qed.

(** The three sequences are zipped: what lies beyond the shortest of
    them is ignored without an error, and the probabilities returned are
    as many as the shortest. *)
Theorem binary_cross_entropy_truncates {F : Type} `{Float64Log F}
  (model : ProbModel F) (method : string)
  (user item : list Z) (label : list F) :
  let n := Nat.min (Nat.min (length user) (length item)) (length label) in
  binary_cross_entropy model user item label method
  = binary_cross_entropy model (firstn n user) (firstn n item)
      (firstn n label) method
  /\ length (snd (binary_cross_entropy model user item label method)) = n.
Proof.
  intros n.
  assert (Hzip : zip3 (firstn n user) (firstn n item) (firstn n label)
                 = zip3 user item label).
  { unfold zip3. rewrite <- !combine_firstn.
    apply firstn_all2. rewrite !length_combine. subst n. lia. }
  split.
  - rewrite !binary_cross_entropy_value. now rewrite Hzip.
  - rewrite binary_cross_entropy_value. cbn [snd]. unfold zip3.
    now rewrite length_map, !length_combine.
Qed.

Lemma xsum_nonneg (l : list xreal) (r0 : R) :
  Forall nonneg l ->
  exists r, fold_left fadd l (Finite r0) = Finite r /\ (r0 <= r)%R.
Proof.
  revert r0. induction l as [|x l IH]; intros r0 Hl.
  - exists r0. cbn. split; [reflexivity | lra].
  - inversion Hl as [|x' l' (a & -> & Ha) Hall]; subst. cbn [fold_left].
    change (fadd (Finite r0) (Finite a)) with (Finite (r0 + a)).
    destruct (IH (r0 + a)%R Hall) as (r & -> & Hr).
    exists r. split; [reflexivity | lra].
Qed.

Lemma xmean_nonneg (l : list xreal) :
  l <> [] -> Forall nonneg l -> nonneg (np_mean l).
Proof.
  intros Hne Hl. rewrite np_mean_nonempty by exact Hne. unfold np_sum.
  destruct (xsum_nonneg l (IZR 0) Hl) as (r & Hsum & Hr).
  change (of_Z 0) with (Finite (IZR 0)). rewrite Hsum.
  assert (Hn : (0 < INR (length l))%R).
  { apply lt_0_INR. destruct l; [congruence | cbn; lia]. }
  change (of_Z (Z.of_nat (length l))) with (Finite (IZR (Z.of_nat (length l)))).
  rewrite <- INR_IZR_INZ. cbn [fdiv Float64_xreal xdiv].
  destruct (Req_dec_T (INR (length l)) 0) as [Hz|_]; [exfalso; lra|].
  exists (r / INR (length l))%R. split; [reflexivity|].
  apply Rmult_le_reg_r with (INR (length l)); [exact Hn|].
  unfold Rdiv. rewrite Rmult_assoc, Rinv_l by lra. lra.
Qed.

Lemma neg_ln_nonneg (q : R) :
  (0 < q < 1)%R -> nonneg (fneg (flog (Finite q))).
Proof.
  intros Hq. cbn. destruct (Rlt_dec 0 q) as [_|Hn]; [|exfalso; lra].
  exists (- ln q)%R. split; [reflexivity|].
  assert (ln q < ln 1)%R by (apply ln_increasing; lra).
  rewrite ln_1 in *. lra.
Qed.

Lemma cross_entropy_term_nonneg (l : xreal) (p : R) :
  (0 < p < 1)%R -> nonneg (cross_entropy_term l (Finite p)).
Proof.
  intros Hp. unfold cross_entropy_term. destruct (feqb l (of_Z 1)).
  - now apply neg_ln_nonneg.
  - change (fsub (of_Z 1) (Finite p)) with (Finite (1 - p)).
    apply neg_ln_nonneg. lra.
Qed.

(** With every probability strictly between 0 and 1 and at least one
    valid label, the mean cross-entropy is a non-negative real. *)
Theorem binary_cross_entropy_nonneg
  (model : ProbModel xreal) (method : string)
  (user item : list Z) (label : list xreal) :
  (exists s, In s (zip3 user item label)
             /\ valid_label (label_of s) = true) ->
  (forall s, In s (zip3 user item label) ->
             strictly_inside (prob_of model method s)) ->
  exists m, fst (binary_cross_entropy model user item label method) = Finite m
            /\ (0 <= m)%R.
Proof.
  intros (s0 & Hs0 & Hvalid) Hprob.
  rewrite binary_cross_entropy_value. cbn [fst]. apply xmean_nonneg.
  - intros Hnil. apply map_eq_nil in Hnil.
    assert (Hin : In s0 (filter (fun s => valid_label (label_of s))
                                (zip3 user item label)))
      by (apply filter_In; now split).
    rewrite Hnil in Hin. exact Hin.
  - apply Forall_forall. intros x Hx. apply in_map_iff in Hx.
    destruct Hx as (s & <- & Hs). apply filter_In in Hs.
    destruct Hs as [Hs _]. destruct (Hprob s Hs) as (p & Hp & Hbounds).
    unfold sample_term. rewrite Hp. now apply cross_entropy_term_nonneg.
Qed.

Lemma binary_cross_entropy_nonneg_witness :
  exists m,
    fst (binary_cross_entropy one_half_x [1; 2] [3; 4]
           [Finite 1%R; Finite 0%R] "mf") = Finite m /\ (0 <= m)%R.
Proof.
  apply (binary_cross_entropy_nonneg one_half_x "mf" [1; 2] [3; 4]
           [Finite 1%R; Finite 0%R]).
  - exists (1, 3, Finite 1%R). split; [now left|].
    unfold valid_label, label_of. cbn [snd feqb of_Z Float64_xreal].
    now rewrite xeqb_refl.
  - intros s _. exists (1 / 2)%R. split; [reflexivity | lra].
Defined.

(** ** The top-k list over binary64 *)

Lemma SF_np_lt_key (sx sy : spec_float) :
  SFltb sx sy || (negb (SFeqb sy sy) && negb (negb (SFeqb sx sx))) = true
  <-> key_lt (sort_key sx) (sort_key sy).
Proof.
  unfold key_lt, SFltb, SFeqb.
  destruct sx as [[|]|[|]| |[|] mx ex], sy as [[|]|[|]| |[|] my ey];
    cbn [SFcompare sort_key fst snd negb andb orb];
    rewrite ?Z.compare_refl;
    change (Pos.compare_cont Eq ?a ?b) with (Pos.compare a b);
    rewrite ?Pos.compare_refl;
    cbn [negb andb orb];
    try (split; [discriminate | lia]);
    try (split; [lia | reflexivity]);
    try (split; [reflexivity | lia]).
  all: destruct (Z.compare_spec ex ey); cbn [CompOpp negb andb orb];
    try (split; [discriminate | lia]);
    try (split; [intros _; lia | reflexivity]).
  all: destruct (Pos.compare_spec mx my); cbn [CompOpp negb andb orb];
    try (split; [discriminate | lia]);
    try (split; [intros _; lia | reflexivity]).
Qed.

Lemma float_np_lt_key (x y : float) :
  np_lt x y = true <-> key_lt (sort_key (Prim2SF x)) (sort_key (Prim2SF y)).
Proof.
  unfold np_lt. cbn [fltb fisnan Float64_binary64]. unfold PrimFloat.is_nan.
  rewrite ltb_spec, !eqb_spec. apply SF_np_lt_key.
Qed.

Lemma float_np_lt_false (x y : float) :
  np_lt x y = false <-> ~ key_lt (sort_key (Prim2SF x)) (sort_key (Prim2SF y)).
Proof.
  rewrite <- float_np_lt_key. destruct (np_lt x y); split; congruence.
Qed.

(** The order numpy sorts binary64 by is a strict weak order. *)
Lemma float_np_lt_asym (x y : float) : np_lt x y = true -> np_lt y x = false.
Proof.
  rewrite float_np_lt_key, float_np_lt_false. unfold key_lt.
  destruct (sort_key (Prim2SF x)) as [[a1 a2] a3].
  destruct (sort_key (Prim2SF y)) as [[b1 b2] b3]. cbn [fst snd]. lia.
Qed.

Lemma float_np_lt_negtrans (x y z : float) :
  np_lt x y = false -> np_lt y z = false -> np_lt x z = false.
Proof.
  rewrite !float_np_lt_false. unfold key_lt.
  destruct (sort_key (Prim2SF x)) as [[a1 a2] a3].
  destruct (sort_key (Prim2SF y)) as [[b1 b2] b3].
  destruct (sort_key (Prim2SF z)) as [[c1 c2] c3]. cbn [fst snd]. lia.
Qed.

(** In binary64, infinities and nan included, the top-k list is in
    descending score order with nan first: of two of its positions, the
    earlier holds an item that numpy does not sort below the later
    one. *)
Theorem top_k_descending_binary64 (a : list float) (k : Z) (i j : nat)
  (x y : Z) (sx sy : float) :
  (i < j)%nat ->
  nth_error (top_k_of a k) i = Some x ->
  nth_error (top_k_of a k) j = Some y ->
  nth_error a (Z.to_nat x) = Some sx ->
  nth_error a (Z.to_nat y) = Some sy ->
  np_lt sx sy = false.
Proof.
  apply top_k_descending.
  - apply float_np_lt_asym.
  - apply float_np_lt_negtrans.
Qed.

Lemma top_k_descending_binary64_witness :
  np_lt PrimFloat.nan 2%float = false.
Proof.
  apply (top_k_descending_binary64 with_nan 3 0 1 1 2).
  - lia.
  - vm_compute. reflexivity.
  - vm_compute. reflexivity.
  - reflexivity.
  - reflexivity.
Defined.

(** On these four scores: nan, then 2.0, 0.5 and minus infinity. *)
Example top_k_with_nan : top_k_of with_nan 4 = [1; 2; 0; 3].
Proof. vm_compute. reflexivity. Qed.

(** A score that is nan is never ranked after a score that is a number:
    the items scored nan come first in the top-k list. *)
Theorem nan_scores_rank_first (a : list float) (k : Z) (i j : nat)
  (x y : Z) (sx sy : float) :
  (i < j)%nat ->
  nth_error (top_k_of a k) i = Some x ->
  nth_error (top_k_of a k) j = Some y ->
  nth_error a (Z.to_nat x) = Some sx ->
  nth_error a (Z.to_nat y) = Some sy ->
  PrimFloat.is_nan sy = true -> PrimFloat.is_nan sx = true.
Proof.
  intros Hij Hx Hy Hsx Hsy Hnan.
  pose proof (top_k_descending float_np_lt_asym float_np_lt_negtrans
                a k i j x y sx sy Hij Hx Hy Hsx Hsy) as Hdesc.
  unfold np_lt in Hdesc. cbn [fltb fisnan Float64_binary64] in Hdesc.
  rewrite Hnan in Hdesc. apply orb_false_elim in Hdesc.
  destruct Hdesc as [_ Hdesc]. cbn [andb] in Hdesc.
  now destruct (PrimFloat.is_nan sx).
Qed.

(** A number between two nan: both nan come before it. *)
Example top_k_nan_around_one : top_k_of nan_around_one 3 = [2; 0; 1].
Proof. vm_compute. reflexivity. Qed.

Lemma nan_scores_rank_first_witness :
  PrimFloat.is_nan PrimFloat.nan = true.
Proof.
  apply (nan_scores_rank_first nan_around_one 3 0 1 2 0
           PrimFloat.nan PrimFloat.nan).
  - lia.
  - vm_compute. reflexivity.
  - vm_compute. reflexivity.
  - reflexivity.
  - reflexivity.
  - reflexivity.
Defined.

(** ** One short score vector fails the whole of MAP *)

Lemma map_outcome_raises {A B} (f : A -> outcome B) (l : list A) (e : exn) :
  (forall x, In x l -> (exists y, f x = Return y) \/ f x = Raise e) ->
  (exists x, In x l /\ f x = Raise e) ->
  map_outcome f l = Raise e.
Proof.
  induction l as [|x l IH]; intros Hall (x0 & Hin & Hx0); [destruct Hin|].
  cbn. destruct (Hall x (or_introl eq_refl)) as [(y & Hy) | Hy];
    rewrite Hy; [|reflexivity].
  cbn. rewrite IH; [reflexivity | |].
  - intros z Hz. apply Hall. now right.
  - destruct Hin as [<- | Hin]; [congruence|]. eauto.
Qed.

(** For [k >= 1], if the score vector of some user of the dataset has
    fewer than [k] scores, [MAP_at_k] raises [IndexError], whatever the
    other users. *)
Theorem MAP_at_k_short_vector {F : Type} `{Float64 F}
  (model : RankModel F) (dataset : Dataset F) (k : Z) :
  1 <= k ->
  (exists u, In u (keys (train_user dataset))
             /\ Z.of_nat (length (predict_user model u)) < k) ->
  MAP_at_k model dataset k = Raise IndexError.
Proof.
  intros Hk (u0 & Hu0 & Hshort). rewrite MAP_at_k_unfold.
  rewrite (map_outcome_raises _ _ IndexError); [reflexivity | |].
  - intros u Hu. pose proof (relevant_of_key dataset u Hu) as Hrel.
    destruct (Z_lt_le_dec (Z.of_nat (length (predict_user model u))) k)
      as [Hlt | Hge].
    + right. eapply AP_at_k_short; eauto.
    + left. eapply AP_at_k_returns; eauto.
  - exists u0. split; [exact Hu0|].
    eapply AP_at_k_short; [exact Hk | exact Hshort|].
    now apply relevant_of_key.
Qed.

Lemma MAP_at_k_short_vector_witness :
  MAP_at_k short_for_user_8 two_users 2 = Raise IndexError.
Proof.
  apply (MAP_at_k_short_vector short_for_user_8 two_users 2).
  - lia.
  - exists 8. split; [right; now left | cbn; lia].
Defined.

Lemma top_k_distinct_items_witness : In 0 (top_k_of with_nan 4).
Proof.
  refine (proj2 (proj2 (top_k_distinct_items with_nan 4)) _ 0 _).
  - cbn. lia.
  - cbn. lia.
Defined.

(** ** Index bounds *)

Lemma dict_get_known {V} (d : list (Z * V)) (u : Z) (v : V) :
  dict_get d u = Return v -> In u (keys d).
Proof.
  induction d as [|[k w] d IH]; cbn; [discriminate|].
  destruct (Z.eqb_spec k u) as [-> | _]; [now left|].
  intros Hd. right. now apply IH.
Qed.

(** C9: for a user [u] of the dataset and [k >= 1]: with at least [k]
    scores, every access [top_k[i-1]], [i = 1..k], of [AP_at_k] is in
    bounds and the call returns; with fewer than [k] scores [AP_at_k]
    raises [IndexError], whereas [HitRatio_at_k] and [NDCG_at_k] return:
    their loops for [u] run over the [len < k] positions there are, the
    hit count, at most [len], still divided by [k] and the gain by the
    ideal gain of all [k] positions, and these per-user values are what
    the two aggregates average. *)
Theorem top_k_bounds {F : Type} `{Float64Log F}
  (model : RankModel F) (dataset : Dataset F) (u k : Z) (rel : list Z) :
  1 <= k ->
  dict_get (train_user dataset) u = Return rel ->
  let ranklist := predict_user model u in
  let top_k := top_k_of ranklist k in
  (k <= Z.of_nat (length ranklist) ->
     (forall i, 1 <= i <= k -> exists x, np_index top_k (i - 1) = Return x)
     /\ exists v, AP_at_k model dataset u k = Return v)
  /\
  (Z.of_nat (length ranklist) < k ->
     AP_at_k model dataset u k = Raise IndexError
     /\ length top_k = length ranklist
     /\ HitRatio_user model dataset k u
        = Return (PyFloat (fdiv (of_Z (count_in rel top_k)) (of_Z k)))
     /\ NDCG_user model dataset k u
        = Return (NpFloat (fdiv (to_F (DCG_of rel top_k)) (to_F (IDCG_of k))))
     /\ Z.of_nat (length (range 0 k)) = k
     /\ length (enumerate top_k) = length ranklist
     /\ 0 <= count_in rel top_k <= Z.of_nat (length ranklist)
     /\ In u (keys (train_user dataset))
     /\ HitRatio_at_k model dataset k
        = Return (NpFloat (np_mean (map (hit_rate model dataset k)
                                        (keys (train_user dataset)))))
     /\ hit_rate model dataset k u
        = fdiv (of_Z (count_in rel top_k)) (of_Z k)
     /\ NDCG_at_k model dataset k
        = Return (NpFloat
                    (fdiv (fold_left fadd
                             (map (gain_ratio model dataset k)
                                  (keys (train_user dataset)))
                             (of_Z 0))
                          (of_Z (n_users dataset))))
     /\ gain_ratio model dataset k u
        = fdiv (to_F (DCG_of rel top_k)) (to_F (IDCG_of k))).
Proof.
  intros Hk Hrel ranklist top_k. subst ranklist top_k.
  assert (Hu : In u (keys (train_user dataset)))
    by (eapply dict_get_known; exact Hrel).
  assert (Hrel' : relevant_of dataset u = rel)
    by (unfold relevant_of; now rewrite Hrel).
  split.
  - intros Hlen. split.
    + intros i Hi.
      destruct (top_k_access model u k i Hi) as (x & Hx & _); [lia|].
      now exists x.
    + now apply AP_at_k_returns with (rel := rel).
  - intros Hlen.
    assert (Htop : length (top_k_of (predict_user model u) k)
                   = length (predict_user model u))
      by (rewrite length_top_k_of by lia; lia).
    split; [now apply AP_at_k_short with (rel := rel)|].
    split; [exact Htop|].
    split; [apply HitRatio_user_value; [exact Hrel | lia]|].
    split; [now apply NDCG_user_value|].
    split; [rewrite length_range; lia|].
    split.
    { unfold enumerate. rewrite length_combine, length_range, Htop. lia. }
    split.
    { pose proof (count_in_bounds rel (top_k_of (predict_user model u) k)).
      lia. }
    split; [exact Hu|].
    split; [apply HitRatio_at_k_map; lia|].
    split; [unfold hit_rate; now rewrite Hrel'|].
    split.
    { apply NDCG_at_k_sum; [exact Hk|].
      intros Hnil. rewrite Hnil in Hu. destruct Hu. }
    unfold gain_ratio. now rewrite Hrel'.
Qed.

(** User 7, who likes both items of a two-item catalog, at [k = 3]. *)
Lemma top_k_bounds_witness :
  AP_at_k (constant_ranker second_is_best_x) like_both_x 7 3
  = Raise IndexError
  /\ HitRatio_user (constant_ranker second_is_best_x) like_both_x 3 7
     = Return (PyFloat (fdiv (of_Z (count_in [0; 1]
                                      (top_k_of second_is_best_x 3)))
                             (of_Z 3)))
  /\ HitRatio_at_k (constant_ranker second_is_best_x) like_both_x 3
     = Return (NpFloat
                 (np_mean (map (hit_rate (constant_ranker second_is_best_x)
                                  like_both_x 3)
                               (keys (train_user like_both_x)))))
  /\ NDCG_at_k (constant_ranker second_is_best_x) like_both_x 3
     = Return (NpFloat
                 (fdiv (fold_left fadd
                          (map (gain_ratio (constant_ranker second_is_best_x)
                                  like_both_x 3)
                               (keys (train_user like_both_x)))
                          (of_Z 0))
                       (of_Z (n_users like_both_x)))).
Proof.
  destruct (proj2 (top_k_bounds (constant_ranker second_is_best_x)
                     like_both_x 7 3 [0; 1] ltac:(lia) eq_refl)
              ltac:(cbn; lia))
    as (HAP & _ & Huser & _ & _ & _ & _ & _ & Hhit & _ & Hgain & _).
  repeat split; assumption.
Defined.

(** On that input the list has the two items there are, both hits, and
    the hit rate of each user is [2 / 3]. *)
Example HitRatio_two_of_three :
  top_k_of second_is_best_x 3 = [1; 0]
  /\ HitRatio_at_k (constant_ranker second_is_best_x) like_both_x 3
     = Return (NpFloat (Finite (2 / 3)%R)).
Proof.
  assert (Htop : top_k_of second_is_best_x 3 = [1; 0]).
  { unfold top_k_of, np_argsort, second_is_best_x, sort_indexed. cbn.
    unfold np_lt. cbn.
    destruct (Rlt_dec 2 1) as [Hlt|_]; [exfalso; lra | reflexivity]. }
  split; [exact Htop|].
  rewrite HitRatio_at_k_map by lia.
  unfold hit_rate, relevant_of. cbn [keys map like_both_x ranking_dataset
    train_user fst dict_get constant_ranker predict_user].
  cbn [Z.eqb Pos.eqb]. rewrite Htop. cbn.
  destruct (Req_dec_T 3 0) as [H3|_]; [exfalso; lra|]. cbn.
  destruct (Req_dec_T 2 0) as [H2|_]; [exfalso; lra|].
  do 3 f_equal. lra.
Qed.

(** The same two users under a user count of four: every per-user value
    is [1.0] and the result is [2 / 4]. *)
Example NDCG_best_case_miscounted :
  NDCG_user (H0 := libm log_exact log2_exact) two_item_model miscounted 1 7
  = Return (NpFloat 1%float)
  /\ NDCG_user (H0 := libm log_exact log2_exact) two_item_model miscounted 1 8
     = Return (NpFloat 1%float)
  /\ NDCG_at_k (H0 := libm log_exact log2_exact) two_item_model miscounted 1
     = Return (NpFloat 0.5%float).
Proof. repeat split; vm_compute; reflexivity. Qed.

(** At [k = 1] the ideal gain is [1 / log2(2)]: the double [1.0] for
    every [np.log2] that is exact at [2]. *)
Lemma IDCG_regular_at_one (log log2 : float -> float) :
  log2 2%float = 1%float ->
  regular_float (to_F (IDCG_of (H0 := libm log log2) 1)) = true.
Proof.
  intros H2. unfold IDCG_of. cbn [range fold_left].
  change (range 0 1) with [0]. cbn [fold_left discount py_add is_np orb to_F].
  change (flog2 (of_Z (0 + 2))) with (log2 2%float). rewrite H2.
  vm_compute. reflexivity.
Qed.

(** Beyond [2^53] users the count in doubles falls behind: [2^53 + 1.0]
    is [2^53] again. *)
Lemma float_count_stuck (n : nat) :
  Z.of_nat n = 2 ^ 53 + 2 ->
  fold_left PrimFloat.add (repeat 1%float n) 0%float
  = 9007199254740992%float.
Proof.
  intros Hn. destruct n as [|[|m]]; try lia.
  rewrite !fold_repeat_succ, float_count_of_Z by lia.
  replace (Z.of_nat m) with (2 ^ 53) by lia.
  vm_compute. reflexivity.
Qed.

Lemma crowd_history (l : list nat) (u : Z) (rel : list Z) :
  dict_get (map (fun i => (Z.of_nat i, [0])) l) u = Return rel -> rel = [0].
Proof.
  induction l as [|i l IH]; cbn; [discriminate|].
  destruct (Z.of_nat i =? u); [now intros [= <-] | exact IH].
Qed.

(** The bound on the number of users is needed: with [2^53 + 2] users
    whose first-ranked item is relevant, the sum of the per-user values
    [1.0] is [2^53] and the result is below [1.0]. *)
Lemma NDCG_best_case_beyond_count (n : nat) :
  Z.of_nat n = 2 ^ 53 + 2 ->
  every_position_relevant one_item_model (crowd n) 1
  /\ NDCG_at_k (H0 := libm log_exact log2_exact) one_item_model (crowd n) 1
     = Return (NpFloat (PrimFloat.div 9007199254740992 9007199254740994))
  /\ NDCG_at_k (H0 := libm log_exact log2_exact) one_item_model (crowd n) 1
     <> Return (NpFloat (of_Z 1)).
Proof.
  intros Hn.
  assert (Hbest : every_position_relevant one_item_model (crowd n) 1).
  { intros u rel _ Hrel k Hk. assert (k = 0) as -> by lia.
    apply crowd_history in Hrel. subst rel. exists 0. split; reflexivity. }
  assert (Hne : train_user (crowd n) <> []).
  { destruct n as [|m]; [lia | discriminate]. }
  assert (Hval : NDCG_at_k (H0 := libm log_exact log2_exact)
                   one_item_model (crowd n) 1
                 = Return (NpFloat (PrimFloat.div 9007199254740992
                                                  9007199254740994))).
  { rewrite (NDCG_best_count (H0 := libm log_exact log2_exact)
               one_item_model (crowd n) 1 ltac:(lia) Hbest eq_refl Hne).
    unfold crowd, ranking_dataset. cbn [train_user n_users].
    rewrite length_map, length_seq, Hn.
    change (fold_left fadd (repeat (of_Z 1) n) (of_Z 0))
      with (fold_left PrimFloat.add (repeat 1%float n) 0%float).
    rewrite float_count_stuck by exact Hn. reflexivity. }
  split; [exact Hbest|]. split; [exact Hval|].
  rewrite Hval. intros H.
  apply (f_equal (fun r => match r with
                           | Return (NpFloat x) => Prim2SF x
                           | _ => S754_nan
                           end)) in H.
  vm_compute in H. discriminate.
Qed.

(** Two users who like both items of the catalog, in exact arithmetic
    at [k = 2]. *)
Example NDCG_both_relevant :
  NDCG_at_k (constant_ranker second_is_best_x) like_both_x 2
  = Return (NpFloat (Finite 1)).
Proof.
  apply (NDCG_best_case_exact (constant_ranker second_is_best_x)
           like_both_x 2); [lia | discriminate | reflexivity |].
  intros u rel Hu Hrel n Hn. cbn [constant_ranker predict_user].
  rewrite top_k_second_is_best.
  destruct Hu as [<- | [<- | []]]; injection Hrel as <-;
    assert (n = 0 \/ n = 1) as [-> | ->] by lia;
    (exists 1 + exists 0); split; reflexivity.
Qed.

